(** * kops: the Terraform value writer and the classic load balancer task

    A shallow embedding of three parts of the repository:

    - package [terraform]: [writeValue], [writeLiteral], [literalListTokens],
      [writeLiteralList] and [oldWriteMap], which serialise a cty value into
      an hclwrite body, and [writeMap], [writeIndent] and [quote], which
      write a map of literals into a buffer;
    - package [awstasks]: the [ClassicLoadBalancer] task with its discovery
      helpers, [Find], [FindAddresses], [ShouldCreate], [Normalize],
      [CheckChanges], [RenderAWS] and [RenderTerraform];
    - package [components]: [BuildOptions] of the cluster autoscaler.

    Go maps are association lists: the list order stands for the order in
    which [range] happens to enumerate the map, which Go leaves unspecified.
    Go panics are an explicit outcome. *)

From Stdlib Require Import ZArith Ascii String OrderedTypeEx.
From stdpp Require Import base list strings sorting pretty.

Set Warnings "-register-all".

Local Open Scope string_scope.
Local Open Scope list_scope.

(** ** Go strings and [sort.Strings] *)

Module GoString.

(** Go compares strings byte by byte; so does [String.compare]. *)
Definition le (s1 s2 : string) : Prop := String.leb s1 s2 = true.

Definition lt (s1 s2 : string) : Prop := String.ltb s1 s2 = true.

#[global] Instance le_dec s1 s2 : Decision (le s1 s2).
Proof. unfold le. apply _. Defined.

#[global] Instance lt_dec s1 s2 : Decision (lt s1 s2).
Proof. unfold lt. apply _. Defined.

(** [sort.Strings]: the slice in increasing order.  The order on strings is
    total and antisymmetric, so every sorting algorithm returns the same
    slice; insertion sort stands for the library's. *)
Fixpoint insertString (s : string) (l : list string) : list string :=
  match l with
  | [] => [s]
  | x :: l' => if String.leb s x then s :: l else x :: insertString s l'
  end.

Fixpoint sortStrings (l : list string) : list string :=
  match l with
  | [] => []
  | s :: l' => insertString s (sortStrings l')
  end.

(** [strings.HasPrefix] and [strings.TrimSuffix]. *)
Definition HasPrefix (s prefix : string) : bool := String.prefix prefix s.

Definition TrimSuffix (s suffix : string) : string :=
  let n := String.length s in
  let m := String.length suffix in
  if (m <=? n)%nat && String.eqb (String.substring (n - m) m s) suffix
  then String.substring 0 (n - m) s
  else s.

End GoString.

(** ** Package terraform: writing cty values into an hclwrite body *)

Module Terraform.
Import GoString.

(** The token kinds of hclsyntax that the writer produces. *)
Inductive TokenType :=
| TokenOBrace | TokenCBrace | TokenOBrack | TokenCBrack
| TokenOQuote | TokenCQuote | TokenQuotedLit
| TokenIdent | TokenComma | TokenEqual | TokenNewline.

(** [hclwrite.Token]; a field left out of a Go struct literal is zero. *)
Record Token := mkToken {
  Type_ : TokenType;
  Bytes : string;
  SpacesBefore : nat
}.

Definition Tokens := list Token.

(** The bytes of a double quote and of a line feed. *)
Definition dquote : string := String "034" EmptyString.

Definition newline : string := String "010" EmptyString.

(** Modelled from the spec: [terraformWriter.Literal] is declared in another
    package; a Deferred Value is "a literal text fragment understood by the
    target config language" or "a symbolic reference", and the writer reads
    the one field [String], the Terraform text of either. *)
Record Literal := mkLiteral { Literal_String : string }.

(** [cty.Value], by the kinds the writer tells apart.  An object carries its
    attributes and a map its elements as Go maps: [AttributeTypes] and
    [AsValueMap] return [map[string]...], enumerated in the order of the
    list.  Unknown and marked values, sets and tuples are left out. *)
Inductive Value :=
| VNull
| VString (s : string)
| VNumber (n : Z)
| VBool (b : bool)
| VList (elems : list Value)
| VObject (attrs : list (string * Value))
| VMap (elems : list (string * Value)).

Definition IsNull (v : Value) : bool :=
  match v with VNull => true | _ => false end.

Definition IsObjectType (v : Value) : bool :=
  match v with VObject _ => true | _ => false end.

(** [Value.AsString] panics unless the value is a string ([None]). *)
Definition AsString (v : Value) : option string :=
  match v with VString s => Some s | _ => None end.

(** An hclwrite body: attributes and nested blocks in the order in which
    they were added.  An attribute holds the tokens of its expression. *)
Inductive Item :=
| Attribute (name : string) (expr : Tokens)
| Block (typeName : string) (body : list Item).

Definition Body := list Item.

(** [Body.SetAttributeRaw]: the attribute of that name gets the new
    expression when the body has one, a new attribute is appended when it
    has none. *)
Fixpoint hasAttribute (body : Body) (name : string) : bool :=
  match body with
  | [] => false
  | Attribute n _ :: rest => String.eqb n name || hasAttribute rest name
  | Block _ _ :: rest => hasAttribute rest name
  end.

Fixpoint replaceAttribute (body : Body) (name : string) (tokens : Tokens) : Body :=
  match body with
  | [] => []
  | Attribute n e :: rest =>
      if String.eqb n name then Attribute n tokens :: rest
      else Attribute n e :: replaceAttribute rest name tokens
  | Block t b :: rest => Block t b :: replaceAttribute rest name tokens
  end.

Definition SetAttributeRaw (body : Body) (name : string) (tokens : Tokens) : Body :=
  if hasAttribute body name then replaceAttribute body name tokens
  else body ++ [Attribute name tokens].

(** [Body.AppendNewBlock(key, nil)] followed by writes to the new block's
    body: the block is appended with the body it ends up with. *)
Definition AppendBlock (body : Body) (typeName : string) (child : Body) : Body :=
  body ++ [Block typeName child].

(** Loops that stop at the first panic. *)
Definition foldM {A B : Type} (f : A -> B -> option A) : list B -> A -> option A :=
  fix go (l : list B) (a : A) : option A :=
    match l with
    | [] => Some a
    | x :: l' => match f a x with Some a' => go l' a' | None => None end
    end.

(** [values[k]] and [v.GetAttr(k)], the continuation applied to what is
    found; [GetAttr] panics on a name the object does not have. *)
Definition withKey {V R : Type} (k : string) (f : V -> option R) : list (string * V) -> option R :=
  fix go (l : list (string * V)) : option R :=
    match l with
    | [] => None
    | (k', v) :: l' => if String.eqb k' k then f v else go l'
    end.

Definition lookupKey {V : Type} (k : string) (l : list (string * V)) : option V :=
  withKey k Some l.

Section Writer.

(** The conversions of go-cty and the rendering of hclwrite which the
    writer calls.  [gocty.FromCtyValue] into a pointer to a Literal, and
    into a pointer to a slice of Literal pointers, gives the converted value
    when the library reports no error; [TokensForValue] is the expression
    that [Body.SetAttributeValue] stores for a value. *)
Variable FromCtyValue_Literal : Value -> option Literal.
Variable FromCtyValue_Literals : Value -> option (list Literal).
Variable TokensForValue : Value -> Tokens.

Definition SetAttributeValue (body : Body) (name : string) (value : Value) : Body :=
  SetAttributeRaw body name (TokensForValue value).

(** [writeLiteral] *)
Definition writeLiteral (body : Body) (key : string) (literal : Literal) : Body :=
  SetAttributeRaw body key [mkToken TokenIdent (Literal_String literal) 0].

(** The loop of [literalListTokens]: [i] is the index of the first of
    [literals], [n] the length of the whole slice. *)
Fixpoint literalListLoop (n i : nat) (literals : list Literal) (tokens : Tokens) : Tokens :=
  match literals with
  | [] => tokens
  | literal :: rest =>
      let tokens := tokens ++ [mkToken TokenIdent (Literal_String literal) 0] in
      let tokens :=
        if (Z.of_nat i <? Z.of_nat n - 1)%Z
        then tokens ++ [mkToken TokenComma "," 0] else tokens in
      literalListLoop n (S i) rest tokens
  end.

(** [literalListTokens] *)
Definition literalListTokens (literals : list Literal) : Tokens :=
  let tokens := [mkToken TokenOBrack "[" 1] in
  let tokens := literalListLoop (length literals) 0 literals tokens in
  tokens ++ [mkToken TokenCBrack "]" 0].

(** [writeLiteralList] *)
Definition writeLiteralList (body : Body) (key : string) (literals : list Literal) : Body :=
  SetAttributeRaw body key (literalListTokens literals).

(** One turn of the loop of [oldWriteMap] over the sorted keys. *)
Definition oldWriteMapStep (values : list (string * Value)) (tokens : Tokens) (k : string)
  : option Tokens :=
  let tokens := tokens ++
    [ mkToken TokenOQuote dquote 1;
      mkToken TokenQuotedLit k 0;
      mkToken TokenCQuote dquote 1;
      mkToken TokenEqual "=" 1 ] in
  withKey k (fun v =>
    match FromCtyValue_Literal v with
    | Some literal =>
        Some ((tokens ++ [mkToken TokenIdent (Literal_String literal) 0])
              ++ [mkToken TokenNewline newline 0])
    | None =>
        match FromCtyValue_Literals v with
        | Some literals =>
            Some ((tokens ++ literalListTokens literals)
                  ++ [mkToken TokenNewline newline 0])
        | None =>
            match AsString v with
            | Some s =>
                Some ((tokens ++
                        [ mkToken TokenOQuote dquote 1;
                          mkToken TokenQuotedLit s 0;
                          mkToken TokenOQuote dquote 1 ])
                      ++ [mkToken TokenNewline newline 0])
            | None => None
            end
        end
    end) values.

(** [oldWriteMap] *)
Definition oldWriteMap (body : Body) (key : string) (values : list (string * Value))
  : option Body :=
  if (length values =? 0)%nat then Some body
  else
    let tokens :=
      [ mkToken TokenOBrace "{" 1;
        mkToken TokenNewline newline 0 ] in
    let keys := sortStrings (map fst values) in
    match foldM (oldWriteMapStep values) keys tokens with
    | Some tokens =>
        let tokens := tokens ++ [mkToken TokenCBrace "}" 0] in
        Some (SetAttributeRaw body key tokens)
    | None => None
    end.

(** The body of a block for an object: its attributes written in the order
    of the sorted names.  [rec] is [writeValue]. *)
Definition writeAttributes (rec : Body -> string -> Value -> option Body)
    (attrs : list (string * Value)) : option Body :=
  let keys := sortStrings (map fst attrs) in
  foldM (fun childBody k => withKey k (fun v => rec childBody k v) attrs) keys [].

(** [writeValue].  [None] is a panic: [AttributeTypes] on an element that is
    not an object, or [AsString] in [oldWriteMap]. *)
Fixpoint writeValue (body : Body) (key : string) (value : Value) {struct value}
  : option Body :=
  if IsNull value then Some body
  else
    match value with
    | VList elems =>
        if (length elems =? 0)%nat then Some body
        else
          let literals := omap FromCtyValue_Literal elems in
          if (0 <? length literals)%nat then Some (writeLiteralList body key literals)
          else
            match elems with
            | [] => Some body
            | firstElement :: _ =>
                if IsObjectType firstElement then
                  foldM (fun body v =>
                    match v with
                    | VObject attrs =>
                        match writeAttributes writeValue attrs with
                        | Some childBody => Some (AppendBlock body key childBody)
                        | None => None
                        end
                    | _ => None
                    end) elems body
                else Some (SetAttributeValue body key value)
            end
    | _ =>
        match FromCtyValue_Literal value with
        | Some literal => Some (writeLiteral body key literal)
        | None =>
            match value with
            | VObject attrs =>
                match writeAttributes writeValue attrs with
                | Some childBody => Some (AppendBlock body key childBody)
                | None => None
                end
            | VMap values => oldWriteMap body key values
            | _ => Some (SetAttributeValue body key value)
            end
        end
    end.

End Writer.

(** *** The same logical value

    Two values are the same logical value when they differ only in the order
    in which their objects and maps enumerate their keys.  A Go map has each
    key once. *)
Inductive SameValue : Value -> Value -> Prop :=
| SameNull : SameValue VNull VNull
| SameString s : SameValue (VString s) (VString s)
| SameNumber n : SameValue (VNumber n) (VNumber n)
| SameBool b : SameValue (VBool b) (VBool b)
| SameList l1 l2 :
    Forall2 SameValue l1 l2 -> SameValue (VList l1) (VList l2)
| SameObject a1 a1' a2 :
    NoDup (map fst a1) -> a1 ≡ₚ a1' ->
    map fst a1' = map fst a2 -> Forall2 SameValue (map snd a1') (map snd a2) ->
    SameValue (VObject a1) (VObject a2)
| SameMap m1 m1' m2 :
    NoDup (map fst m1) -> m1 ≡ₚ m1' ->
    map fst m1' = map fst m2 -> Forall2 SameValue (map snd m1') (map snd m2) ->
    SameValue (VMap m1) (VMap m2).

(** *** The conversion into a Literal, for the scenarios *)

(** Modelled from the spec: the conversion of [gocty.FromCtyValue] into a
    [terraformWriter.Literal], which is declared in another package.  The
    library fills a struct from an object that has exactly the attributes
    named in the struct's [cty] tags; the one field [String] is taken to be
    tagged [string]. *)
Definition literalOfValue (v : Value) : option Literal :=
  match v with
  | VObject [(name, VString s)] =>
      if String.eqb name "string" then Some (mkLiteral s) else None
  | _ => None
  end.

(** Modelled from the spec: the conversion into a slice of Literals; the
    library fills a slice from a list, element by element. *)
Definition literalsOfValue (v : Value) : option (list Literal) :=
  match v with
  | VList elems => mapM literalOfValue elems
  | _ => None
  end.

(** [cty.ObjectVal] of a Literal, as [gocty.ToCtyValue] builds it. *)
Definition literalValue (s : string) : Value := VObject [("string", VString s)].

(** *** The map block in the words of the spec

    "A map value is emitted as a multi-line block of "key" = value pairs,
    keys sorted lexicographically, values individually resolved through the
    same literal-vs-quoted rule (map values that are themselves Deferred
    Values or lists of Deferred Values are unquoted; everything else is
    quoted)."  A Deferred Value is what converts into a Literal. *)

Section MapBlock.

Variable FromCtyValue_Literal : Value -> option Literal.
Variable FromCtyValue_Literals : Value -> option (list Literal).

Definition keyTokens (k : string) : Tokens :=
  [ mkToken TokenOQuote dquote 1;
    mkToken TokenQuotedLit k 0;
    mkToken TokenCQuote dquote 1;
    mkToken TokenEqual "=" 1 ].

Definition unquotedTokens (literal : Literal) : Tokens :=
  [mkToken TokenIdent (Literal_String literal) 0].

Definition quotedTokens (s : string) : Tokens :=
  [ mkToken TokenOQuote dquote 1;
    mkToken TokenQuotedLit s 0;
    mkToken TokenOQuote dquote 1 ].

(** The tokens of a value of the map; none for a value that is neither
    deferred nor a string. *)
Definition valueTokens (v : Value) : option Tokens :=
  match FromCtyValue_Literal v with
  | Some literal => Some (unquotedTokens literal)
  | None =>
      match FromCtyValue_Literals v with
      | Some literals => Some (literalListTokens literals)
      | None =>
          match v with
          | VString s => Some (quotedTokens s)
          | _ => None
          end
      end
  end.

(** One line of the block. *)
Definition pairTokens (values : list (string * Value)) (k : string) : option Tokens :=
  match lookupKey k values with
  | Some v =>
      match valueTokens v with
      | Some ts => Some (keyTokens k ++ ts ++ [mkToken TokenNewline newline 0])
      | None => None
      end
  | None => None
  end.

(** The lines of the block, for the keys in the given order. *)
Fixpoint blockLines (values : list (string * Value)) (keys : list string) : option Tokens :=
  match keys with
  | [] => Some []
  | k :: rest =>
      match pairTokens values k, blockLines values rest with
      | Some ts, Some tss => Some (ts ++ tss)
      | _, _ => None
      end
  end.

End MapBlock.

(** Two values give the same block body when they are objects. *)
Definition sameAttributes (FromCtyValue_Literal : Value -> option Literal)
    (FromCtyValue_Literals : Value -> option (list Literal))
    (TokensForValue : Value -> Tokens) (v1 v2 : Value) : Prop :=
  match v1, v2 with
  | VObject a1, VObject a2 =>
      writeAttributes
        (writeValue FromCtyValue_Literal FromCtyValue_Literals TokensForValue) a1
      = writeAttributes
          (writeValue FromCtyValue_Literal FromCtyValue_Literals TokensForValue) a2
  | _, _ => True
  end.

(** The expression of a scalar, for the scenarios; the rendering of lists,
    objects and maps by hclwrite is not spelled out. *)
Definition scalarTokens (v : Value) : Tokens :=
  match v with
  | VNull => [mkToken TokenIdent "null" 0]
  | VString s =>
      [ mkToken TokenOQuote dquote 0; mkToken TokenQuotedLit s 0;
        mkToken TokenCQuote dquote 0 ]
  | VNumber n => [mkToken TokenIdent (pretty n) 0]
  | VBool b => [mkToken TokenIdent (if b then "true" else "false") 0]
  | _ => []
  end.

(** *** The writer into a buffer: [writeMap], [writeIndent], [quote]

    A [bytes.Buffer] is the string written so far.  [quote] ranges over the
    runes of its argument; on a string of ASCII bytes every byte is a rune
    and is written back as it is, which is what is modelled.  (A byte
    sequence that is not UTF-8 would come out as U+FFFD.) *)

Definition isASCII (s : string) : bool :=
  forallb (fun c => (nat_of_ascii c <? 128)%nat) (list_ascii_of_string s).

Definition backslash : ascii := "092"%char.

Definition dquoteChar : ascii := "034"%char.

(** The loop of [quote] over the runes. *)
Fixpoint quoteRunes (s : string) : string :=
  match s with
  | EmptyString => EmptyString
  | String r rest =>
      if Ascii.eqb r backslash || Ascii.eqb r dquoteChar
      then String backslash (String r (quoteRunes rest))
      else String r (quoteRunes rest)
  end.

(** [quote] *)
Definition quote (s : string) : string :=
  String dquoteChar (quoteRunes s +:+ String dquoteChar EmptyString).

(** Reading a quoted string back: the text between the two quotes, a
    backslash taking the byte after it. *)
Fixpoint unquoteRunes (s : string) : option string :=
  match s with
  | EmptyString => None
  | String c rest =>
      if Ascii.eqb c dquoteChar then
        match rest with EmptyString => Some EmptyString | _ => None end
      else if Ascii.eqb c backslash then
        match rest with
        | String c' rest' =>
            match unquoteRunes rest' with
            | Some t => Some (String c' t)
            | None => None
            end
        | EmptyString => None
        end
      else
        match unquoteRunes rest with
        | Some t => Some (String c t)
        | None => None
        end
  end.

Definition unquote (s : string) : option string :=
  match s with
  | String c rest => if Ascii.eqb c dquoteChar then unquoteRunes rest else None
  | EmptyString => None
  end.

(** [n] spaces. *)
Fixpoint spaces (n : nat) : string :=
  match n with
  | O => EmptyString
  | S n' => String " " (spaces n')
  end.

(** [writeIndent]: the loop runs [indent] times, not at all for a negative
    [indent]. *)
Definition writeIndent (buf : string) (indent : Z) : string :=
  buf +:+ spaces (Z.to_nat indent).

(** The first loop of [writeMap]: the longest quoted key. *)
Definition maxKeyLen (values : list (string * option Literal)) : Z :=
  fold_left (fun maxKeyLen kv =>
      let kLen := Z.of_nat (String.length (quote kv.1)) in
      if (maxKeyLen <? kLen)%Z then kLen else maxKeyLen)
    values 0%Z.

(** One turn of the second loop of [writeMap].  The map holds pointers:
    [values[k]] is nil for a key stored with nil (and for a key the map does
    not have), and reading the field [String] through it panics. *)
Definition writeMapLine (indent maxKeyLen : Z) (values : list (string * option Literal))
    (buf : string) (k : string) : option string :=
  match lookupKey k values with
  | Some (Some literal) =>
      let buf := writeIndent buf (indent + 2) in
      let quoted := quote k in
      let buf := buf +:+ quoted in
      let buf := writeIndent buf (maxKeyLen - Z.of_nat (String.length quoted)) in
      let buf := buf +:+ " = " in
      let buf := buf +:+ Literal_String literal in
      Some (buf +:+ newline)
  | _ => None
  end.

(** [writeMap]; [None] is a panic. *)
Definition writeMap (buf : string) (indent : Z) (key : string)
    (values : list (string * option Literal)) : option string :=
  if (length values =? 0)%nat then Some buf
  else
    let buf := writeIndent buf indent in
    let buf := buf +:+ key in
    let buf := buf +:+ " = {" +:+ newline in
    let maxKeyLen := maxKeyLen values in
    let keys := sortStrings (map fst values) in
    match foldM (writeMapLine indent maxKeyLen values) keys buf with
    | Some buf =>
        let buf := writeIndent buf indent in
        Some (buf +:+ "}" +:+ newline)
    | None => None
    end.

(** A line of the block as it reads: the quoted key, padded to [width]. *)
Definition mapLine (indent width : Z) (k : string) (value : string) : string :=
  spaces (Z.to_nat (indent + 2)) +:+ quote k
  +:+ spaces (Z.to_nat (width - Z.of_nat (String.length (quote k))))
  +:+ " = " +:+ value +:+ newline.

(** The lines of the block for the keys in the order given. *)
Fixpoint mapLines (indent width : Z) (values : list (string * option Literal))
    (keys : list string) : string :=
  match keys with
  | [] => EmptyString
  | k :: rest =>
      mapLine indent width k
        (match lookupKey k values with
         | Some (Some literal) => Literal_String literal
         | _ => EmptyString
         end)
      +:+ mapLines indent width values rest
  end.

(** One turn of the first loop of [writeMap]. *)
Definition widen (maxKeyLen : Z) (kv : string * option Literal) : Z :=
  let kLen := Z.of_nat (String.length (quote kv.1)) in
  if (maxKeyLen <? kLen)%Z then kLen else maxKeyLen.

(** A key whose pointer is not nil. *)
Definition hasLiteral (values : list (string * option Literal)) (k : string) : bool :=
  match lookupKey k values with
  | Some (Some _) => true
  | _ => false
  end.

(** The tokens of a list of literals as they read: the identifiers with a
    comma between two of them. *)
Fixpoint commaSeparated (literals : list Literal) : Tokens :=
  match literals with
  | [] => []
  | [literal] => [mkToken TokenIdent (Literal_String literal) 0]
  | literal :: rest =>
      mkToken TokenIdent (Literal_String literal) 0
      :: mkToken TokenComma "," 0 :: commaSeparated rest
  end.

(** What a write under [key] may do to a body: nothing, set the attribute
    [key], or append blocks of type [key]. *)
Inductive WritesKey (key : string) (body : Body) : Body -> Prop :=
| WritesNothing : WritesKey key body body
| WritesAttribute tokens : WritesKey key body (SetAttributeRaw body key tokens)
| WritesBlocks children :
    WritesKey key body (body ++ map (Block key) children).

(** The body of the block that [writeValue] writes for an element of a list
    of objects. *)
Definition objectBody (FromCtyValue_Literal : Value -> option Literal)
    (FromCtyValue_Literals : Value -> option (list Literal))
    (TokensForValue : Value -> Tokens) (v : Value) : option Body :=
  match v with
  | VObject attrs =>
      writeAttributes (writeValue FromCtyValue_Literal FromCtyValue_Literals TokensForValue)
        attrs
  | _ => None
  end.

End Terraform.

(** ** Package awstasks: the classic load balancer task *)

Module Awstasks.
Import GoString.

(** *** Errors, results and pointers *)

(** Go errors by what the task can tell about them.  [AwsError] is an error
    value of the SDK that implements [awserr.Error]; [ErrorfV] and
    [ErrorfW] are [fmt.Errorf] with a [%v] and with a [%w] verb: both give
    a new error value of a type of package fmt. *)
Inductive error :=
| AwsError (code message : string)
| ProviderError (message : string)
| RequiredField (key : string)
| Errorf (text : string)
| ErrorfV (text : string) (err : error)
| ErrorfW (text : string) (err : error).

(** The type assertion [err.(awserr.Error)] and the [Code] of what it
    yields: only an error value of the SDK passes, an error made by
    [fmt.Errorf] does not. *)
Definition asAwsError (err : error) : option string :=
  match err with
  | AwsError code _ => Some code
  | _ => None
  end.

Inductive result (A : Type) :=
| Ok (a : A)
| Err (err : error).
Arguments Ok {A} a.
Arguments Err {A} err.

(** [fi.ValueOf], [aws.ToString], [aws.ToInt32]: the zero value for nil. *)
Definition ValueOf {A : Type} (zero : A) (p : option A) : A :=
  match p with Some a => a | None => zero end.

Definition ToString (p : option string) : string := ValueOf EmptyString p.

Definition ValueOfBool (p : option bool) : bool := ValueOf false p.

(** A Go slice: nil or a backing array. *)
Definition slice (A : Type) := option (list A).

Definition elems {A : Type} (s : slice A) : list A :=
  match s with Some l => l | None => [] end.

Definition len {A : Type} (s : slice A) : nat := length (elems s).

Definition append {A : Type} (s : slice A) (x : A) : slice A := Some (elems s ++ [x]).

Definition isNil {A : Type} (s : option A) : bool :=
  match s with Some _ => false | None => true end.

(** A Go map enumerated in list order; [m[k] = v]. *)
Fixpoint mapInsert {V : Type} (k : string) (v : V) (m : list (string * V)) : list (string * V) :=
  match m with
  | [] => [(k, v)]
  | (k', v') :: m' => if String.eqb k' k then (k, v) :: m' else (k', v') :: mapInsert k v m'
  end.

Fixpoint mapLookup {V : Type} (k : string) (m : list (string * V)) : option V :=
  match m with
  | [] => None
  | (k', v) :: m' => if String.eqb k' k then Some v else mapLookup k m'
  end.

(** [strconv.ParseInt(s, 10, bitSize)]: an optional sign and decimal
    digits; an error ([None]) on anything else and on a number that does not
    fit [bitSize] bits. *)
Definition digitOf (c : ascii) : option Z :=
  let n := Z.of_nat (nat_of_ascii c) in
  if (48 <=? n)%Z && (n <=? 57)%Z then Some (n - 48)%Z else None.

Fixpoint parseDigits (s : string) (acc : Z) : option Z :=
  match s with
  | EmptyString => Some acc
  | String c rest =>
      match digitOf c with
      | Some d => parseDigits rest (10 * acc + d)%Z
      | None => None
      end
  end.

Definition ParseInt (s : string) (bitSize : Z) : option Z :=
  match s with
  | EmptyString => None
  | String c rest =>
      let (neg, digits) :=
        if Ascii.eqb c "+" then (false, rest)
        else if Ascii.eqb c "-" then (true, rest)
        else (false, s) in
      match digits with
      | EmptyString => None
      | _ =>
          match parseDigits digits 0 with
          | Some n =>
              let v := if neg then (- n)%Z else n in
              if (- 2 ^ (bitSize - 1) <=? v)%Z && (v <=? 2 ^ (bitSize - 1) - 1)%Z
              then Some v else None
          | None => None
          end
      end
  end.

(** [strconv.FormatInt(n, 10)] *)
Definition FormatInt (n : Z) : string := pretty n.

(** The conversion [int32(n)] of an int64. *)
Definition int32 (n : Z) : Z := ((n + 2 ^ 31) mod 2 ^ 32 - 2 ^ 31)%Z.

(** *** The task and the types of the SDK *)

(** [Subnet], [SecurityGroup] and the blocks of attributes are declared in
    other files of the package; they stand here with the fields that the
    task reads. *)

Record Subnet := mkSubnet { Subnet_ID : option string }.

Record SecurityGroup := mkSecurityGroup { SecurityGroup_ID : option string }.

Record ClassicLoadBalancerListener := mkListener {
  Listener_InstancePort : Z;
  Listener_SSLCertificateID : string
}.

Record ClassicLoadBalancerHealthCheck := mkHealthCheck {
  HealthCheck_Target : option string;
  HealthCheck_HealthyThreshold : option Z;
  HealthCheck_UnhealthyThreshold : option Z;
  HealthCheck_Interval : option Z;
  HealthCheck_Timeout : option Z
}.

Record ClassicLoadBalancerAccessLog := mkAccessLog {
  AccessLog_EmitInterval : option Z;
  AccessLog_Enabled : option bool;
  AccessLog_S3BucketName : option string;
  AccessLog_S3BucketPrefix : option string
}.

Record ClassicLoadBalancerConnectionDraining := mkConnectionDraining {
  ConnectionDraining_Enabled : option bool;
  ConnectionDraining_Timeout : option Z
}.

Record ClassicLoadBalancerConnectionSettings := mkConnectionSettings {
  ConnectionSettings_IdleTimeout : option Z
}.

Record ClassicLoadBalancerCrossZoneLoadBalancing := mkCrossZone {
  CrossZone_Enabled : option bool
}.

(** [ClassicLoadBalancer] *)
Record ClassicLoadBalancer := mkCLB {
  Name : option string;
  Lifecycle : string;
  LoadBalancerName : option string;
  DNSName : option string;
  HostedZoneId : option string;
  Subnets : slice Subnet;
  SecurityGroups : slice SecurityGroup;
  Listeners : option (list (string * ClassicLoadBalancerListener));
  Scheme : option string;
  HealthCheck : option ClassicLoadBalancerHealthCheck;
  AccessLog : option ClassicLoadBalancerAccessLog;
  ConnectionDraining : option ClassicLoadBalancerConnectionDraining;
  ConnectionSettings : option ClassicLoadBalancerConnectionSettings;
  CrossZoneLoadBalancing : option ClassicLoadBalancerCrossZoneLoadBalancing;
  SSLCertificateID : string;
  Tags : option (list (string * string));
  Shared : option bool;
  WellKnownServices : list string
}.

(** The zero value [&ClassicLoadBalancer{}]. *)
Definition emptyCLB : ClassicLoadBalancer :=
  mkCLB None EmptyString None None None None None None None None None None None None
        EmptyString None None [].

(** Assignments to single fields. *)
Definition setLoadBalancerName (v : option string) (e : ClassicLoadBalancer) :=
  mkCLB (Name e) (Lifecycle e) v (DNSName e) (HostedZoneId e) (Subnets e)
    (SecurityGroups e) (Listeners e) (Scheme e) (HealthCheck e) (AccessLog e)
    (ConnectionDraining e) (ConnectionSettings e) (CrossZoneLoadBalancing e)
    (SSLCertificateID e) (Tags e) (Shared e) (WellKnownServices e).

Definition setDNSName (v : option string) (e : ClassicLoadBalancer) :=
  mkCLB (Name e) (Lifecycle e) (LoadBalancerName e) v (HostedZoneId e) (Subnets e)
    (SecurityGroups e) (Listeners e) (Scheme e) (HealthCheck e) (AccessLog e)
    (ConnectionDraining e) (ConnectionSettings e) (CrossZoneLoadBalancing e)
    (SSLCertificateID e) (Tags e) (Shared e) (WellKnownServices e).

Definition setHostedZoneId (v : option string) (e : ClassicLoadBalancer) :=
  mkCLB (Name e) (Lifecycle e) (LoadBalancerName e) (DNSName e) v (Subnets e)
    (SecurityGroups e) (Listeners e) (Scheme e) (HealthCheck e) (AccessLog e)
    (ConnectionDraining e) (ConnectionSettings e) (CrossZoneLoadBalancing e)
    (SSLCertificateID e) (Tags e) (Shared e) (WellKnownServices e).

Definition setSubnets (v : slice Subnet) (e : ClassicLoadBalancer) :=
  mkCLB (Name e) (Lifecycle e) (LoadBalancerName e) (DNSName e) (HostedZoneId e) v
    (SecurityGroups e) (Listeners e) (Scheme e) (HealthCheck e) (AccessLog e)
    (ConnectionDraining e) (ConnectionSettings e) (CrossZoneLoadBalancing e)
    (SSLCertificateID e) (Tags e) (Shared e) (WellKnownServices e).

Definition setSecurityGroups (v : slice SecurityGroup) (e : ClassicLoadBalancer) :=
  mkCLB (Name e) (Lifecycle e) (LoadBalancerName e) (DNSName e) (HostedZoneId e)
    (Subnets e) v (Listeners e) (Scheme e) (HealthCheck e) (AccessLog e)
    (ConnectionDraining e) (ConnectionSettings e) (CrossZoneLoadBalancing e)
    (SSLCertificateID e) (Tags e) (Shared e) (WellKnownServices e).

(** [elbtypes.Listener] *)
Record Listener := mkAWSListener {
  LoadBalancerPort : Z;
  InstancePort : option Z;
  Protocol : option string;
  InstanceProtocol : option string;
  SSLCertificateId : option string
}.

(** [elbtypes.Tag] *)
Record Tag := mkTag { Tag_Key : option string; Tag_Value : option string }.

(** [elbtypes.LoadBalancerDescription], the fields the task reads. *)
Record LoadBalancerDescription := mkLBD {
  LBD_LoadBalancerName : option string;
  LBD_DNSName : option string;
  LBD_CanonicalHostedZoneNameID : option string;
  LBD_Scheme : option string;
  LBD_Subnets : list string;
  LBD_SecurityGroups : list string;
  LBD_ListenerDescriptions : list Listener
}.

(** [elbtypes.LoadBalancerAttributes], its four blocks present. *)
Record LoadBalancerAttributes := mkLBA {
  LBA_AccessLog_Enabled : bool;
  LBA_AccessLog_EmitInterval : option Z;
  LBA_AccessLog_S3BucketName : option string;
  LBA_AccessLog_S3BucketPrefix : option string;
  LBA_ConnectionDraining_Enabled : bool;
  LBA_ConnectionDraining_Timeout : option Z;
  LBA_ConnectionSettings_IdleTimeout : option Z;
  LBA_CrossZoneLoadBalancing_Enabled : bool
}.

(** [route53.AliasTarget] *)
Record AliasTarget := mkAlias {
  Alias_DNSName : option string;
  Alias_HostedZoneId : option string
}.

(** [elb.CreateLoadBalancerInput] *)
Record CreateLoadBalancerInput := mkCreate {
  Create_LoadBalancerName : option string;
  Create_Scheme : option string;
  Create_Subnets : list string;
  Create_SecurityGroups : list string;
  Create_Listeners : list Listener
}.

(** The mutating calls a render makes, with their requests. *)
Inductive Call :=
| CreateLoadBalancerCall (request : CreateLoadBalancerInput)
| DetachLoadBalancerFromSubnetsCall (loadBalancerName : string) (subnets : list string)
| AttachLoadBalancerToSubnetsCall (loadBalancerName : string) (subnets : list string)
| ApplySecurityGroupsToLoadBalancerCall (loadBalancerName : string) (securityGroups : list string)
| DeleteLoadBalancerListenersCall (loadBalancerName : string) (loadBalancerPorts : list Z)
| CreateLoadBalancerListenersCall (loadBalancerName : string) (listeners : list Listener)
| AddELBTagsCall (loadBalancerName : string) (tags : option (list (string * string)))
| RemoveELBTagsCall (loadBalancerName : string) (tags : option (list (string * string)))
| ConfigureHealthCheckCall (loadBalancerName : string) (healthCheck : ClassicLoadBalancerHealthCheck)
| ModifyLoadBalancerAttributesCall (a : option ClassicLoadBalancer) (e changes : ClassicLoadBalancer).

(** The cloud, as the task meets it.  [World] is the state of the remote
    side.  A listing gives the pages its paginator delivers, each a page or
    an error; a mutating call answers with an error or not and leaves a new
    state.  [FindELBByNameTag], [DescribeELBTags], [findELBAttributes],
    [findHealthCheck], [AddELBTags], [RemoveELBTags], [BuildTags] and
    [modifyLoadBalancerAttributes] are code of the repository outside these
    files and stand here with the cloud they talk to. *)
Record AWSCloud (World : Type) := mkCloud {
  DescribeLoadBalancers :
    list string -> World -> list (result (list LoadBalancerDescription));
  FindELBByNameTag : string -> World -> result (option LoadBalancerDescription);
  DescribeELBTags : list string -> World -> result (list (string * list Tag));
  findHealthCheck :
    LoadBalancerDescription -> result (option ClassicLoadBalancerHealthCheck);
  findELBAttributes : string -> World -> result (option LoadBalancerAttributes);
  BuildTags : option string -> list (string * string);
  (** the answer to a mutating call: the DNS name for a creation *)
  mutate : Call -> World -> result (option string) * World
}.
Arguments DescribeLoadBalancers {World}.
Arguments FindELBByNameTag {World}.
Arguments DescribeELBTags {World}.
Arguments findHealthCheck {World}.
Arguments findELBAttributes {World}.
Arguments BuildTags {World}.
Arguments mutate {World}.



(** *** [sort.Stable] *)

Section StableSort.
Context {A : Type} (less : A -> A -> bool).

(** A stable sort leaves elements that [less] does not order in the order
    they came in; insertion from the right does that. *)
Fixpoint stableInsert (x : A) (l : list A) : list A :=
  match l with
  | [] => [x]
  | y :: rest => if less y x then y :: stableInsert x rest else x :: l
  end.

Fixpoint stableSort (l : list A) : list A :=
  match l with
  | [] => []
  | x :: rest => stableInsert x (stableSort rest)
  end.

(** Sorting a slice in place: nil stays nil. *)
Definition sortSlice (s : slice A) : slice A :=
  match s with
  | Some l => Some (stableSort l)
  | None => None
  end.

End StableSort.

(** Modelled from the spec: [OrderSubnetsById] is declared in another file
    of the package; the spec has normalize sort "reference lists by the
    referenced resource's identifier", and the sibling
    [OrderLoadBalancersByName] compares [fi.ValueOf] of the names with [<]. *)
Definition OrderSubnetsById_Less (a b : Subnet) : bool :=
  String.ltb (ToString (Subnet_ID a)) (ToString (Subnet_ID b)).

(** Modelled from the spec: [OrderSecurityGroupsById] is declared in another
    file of the package; it orders by identifier in the same way. *)
Definition OrderSecurityGroupsById_Less (a b : SecurityGroup) : bool :=
  String.ltb (ToString (SecurityGroup_ID a)) (ToString (SecurityGroup_ID b)).

(** Modelled from the spec: [slice.Contains] is declared in package
    util/pkg/slice: whether the string is in the slice. *)
Definition Contains (l : list string) (s : string) : bool := existsb (String.eqb s) l.

(** Modelled from the spec: [slice.GetUniqueStrings] is declared in package
    util/pkg/slice; the spec has the render compute "items to detach =
    actual - desired, items to attach = desired - actual" with the calls
    [GetUniqueStrings(expected, actual)] and [GetUniqueStrings(actual,
    expected)]: the strings of [extra] that are not in [main]. *)
Definition GetUniqueStrings (main extra : list string) : list string :=
  List.filter (fun item => negb (Contains main item)) extra.

(** *** Discovery *)

(** What a call leaves behind: a value, an error, or a panic. *)
Inductive outcome (A : Type) :=
| Done (a : A)
| Failed (err : error)
| Panicked.
Arguments Done {A} a.
Arguments Failed {A} err.
Arguments Panicked {A}.

(** [ShouldCreate] *)
Definition ShouldCreate (a : option ClassicLoadBalancer) (e changes : ClassicLoadBalancer)
  : bool * option error :=
  if ValueOfBool (Shared e) then (false, None) else (true, None).

(** [Normalize]: both slices are sorted in place, the error is nil. *)
Definition Normalize (e : ClassicLoadBalancer) : ClassicLoadBalancer * option error :=
  let e := setSubnets (sortSlice OrderSubnetsById_Less (Subnets e)) e in
  let e := setSecurityGroups (sortSlice OrderSecurityGroupsById_Less (SecurityGroups e)) e in
  (e, None).

(** [CheckChanges] *)
Definition CheckChanges (a : option ClassicLoadBalancer) (e changes : ClassicLoadBalancer)
  : option error :=
  match a with
  | Some _ => None
  | None =>
      if String.eqb (ToString (Name e)) EmptyString then Some (RequiredField "Name")
      else
        let shared := ValueOfBool (Shared e) in
        if negb shared && (len (SecurityGroups e) =? 0)%nat
        then Some (RequiredField "SecurityGroups")
        else if negb shared && (len (Subnets e) =? 0)%nat
        then Some (RequiredField "Subnets")
        else
          let accessLog :=
            match AccessLog e with
            | Some al =>
                match AccessLog_Enabled al with
                | None => Some (RequiredField "Acceslog.Enabled")
                | Some enabled =>
                    if enabled && isNil (AccessLog_S3BucketName al)
                    then Some (RequiredField "Acceslog.S3Bucket")
                    else None
                end
            | None => None
            end in
          match accessLog with
          | Some err => Some err
          | None =>
              let draining :=
                match ConnectionDraining e with
                | Some cd =>
                    if isNil (ConnectionDraining_Enabled cd)
                    then Some (RequiredField "ConnectionDraining.Enabled")
                    else None
                | None => None
                end in
              match draining with
              | Some err => Some err
              | None =>
                  match CrossZoneLoadBalancing e with
                  | Some cz =>
                      if isNil (CrossZone_Enabled cz)
                      then Some (RequiredField "CrossZoneLoadBalancing.Enabled")
                      else None
                  | None => None
                  end
              end
          end
  end.

Section Discovery.
Context {World : Type} (cloud : AWSCloud World).

(** The loop of [describeLoadBalancers] over the pages of the paginator. *)
Fixpoint describePages (pages : list (result (list LoadBalancerDescription)))
    (filter : LoadBalancerDescription -> bool) (found : list LoadBalancerDescription)
  : result (list LoadBalancerDescription) :=
  match pages with
  | [] => Ok found
  | Err err :: _ => Err (ErrorfW "error listing ELBs: %w" err)
  | Ok output :: rest => describePages rest filter (found ++ List.filter filter output)
  end.

(** [describeLoadBalancers] *)
Definition describeLoadBalancers (w : World) (request : list string)
    (filter : LoadBalancerDescription -> bool) : result (list LoadBalancerDescription) :=
  describePages (DescribeLoadBalancers cloud request w) filter [].

(** The filter of the lookup by name. *)
Definition nameFilter (loadBalancerName : string) (lb : LoadBalancerDescription) : bool :=
  String.eqb (ToString (LBD_LoadBalancerName lb)) loadBalancerName.

(** The filter of the lookup by alias. *)
Definition aliasFilter (matchHostedZoneId matchDnsName : string)
    (lb : LoadBalancerDescription) : bool :=
  if negb (String.eqb matchHostedZoneId (ToString (LBD_CanonicalHostedZoneNameID lb)))
  then false
  else
    let lbDnsName := TrimSuffix (ToString (LBD_DNSName lb)) "." in
    String.eqb lbDnsName matchDnsName
    || String.eqb ("dualstack." ++ lbDnsName) matchDnsName.

(** [findLoadBalancerByLoadBalancerName] *)
Definition findLoadBalancerByLoadBalancerName (w : World) (loadBalancerName : string)
  : result (option LoadBalancerDescription) :=
  match describeLoadBalancers w [loadBalancerName] (nameFilter loadBalancerName) with
  | Err err =>
      match asAwsError err with
      | Some code =>
          if String.eqb code "LoadBalancerNotFound" then Ok None
          else Err (ErrorfV "error listing ELBs: %v" err)
      | None => Err (ErrorfV "error listing ELBs: %v" err)
      end
  | Ok found =>
      if (length found =? 0)%nat then Ok None
      else if negb (length found =? 1)%nat
      then Err (Errorf ("Found multiple ELBs with name " ++ loadBalancerName))
      else Ok (head found)
  end.

(** [findLoadBalancerByAlias] *)
Definition findLoadBalancerByAlias (w : World) (alias : AliasTarget)
  : result (option LoadBalancerDescription) :=
  let dnsName := ToString (Alias_DNSName alias) in
  let matchDnsName := TrimSuffix dnsName "." in
  if String.eqb matchDnsName EmptyString then Err (Errorf "DNSName not set on AliasTarget")
  else
    let matchHostedZoneId := ToString (Alias_HostedZoneId alias) in
    match describeLoadBalancers w [] (aliasFilter matchHostedZoneId matchDnsName) with
    | Err err => Err (ErrorfV "error listing ELBs: %v" err)
    | Ok found =>
        if (length found =? 0)%nat then Ok None
        else if negb (length found =? 1)%nat
        then Err (Errorf ("Found multiple ELBs with DNSName " ++ dnsName))
        else Ok (head found)
    end.

(** [subnetSlicesEqualIgnoreOrder] is declared in another file of the
    package. *)
Variable subnetSlicesEqualIgnoreOrder : slice Subnet -> slice Subnet -> bool.

(** The snapshot that [Find] builds before it compares it with [e]. *)
Definition snapshot (e : ClassicLoadBalancer) (lb : LoadBalancerDescription)
    (tags : list Tag) (healthcheck : option ClassicLoadBalancerHealthCheck)
    (lbAttributes : option LoadBalancerAttributes) : ClassicLoadBalancer :=
  let actualTags :=
    fold_left (fun m tag =>
        if HasPrefix (ToString (Tag_Key tag)) "aws:cloudformation:" then m
        else mapInsert (ToString (Tag_Key tag)) (ToString (Tag_Value tag)) m)
      tags [] in
  let subnets :=
    fold_left (fun s subnet => append s (mkSubnet (Some subnet))) (LBD_Subnets lb) None in
  let securityGroups :=
    fold_left (fun s sg => append s (mkSecurityGroup (Some sg)))
      (LBD_SecurityGroups lb) None in
  let listeners :=
    fold_left (fun m l =>
        mapInsert (FormatInt (LoadBalancerPort l))
          (mkListener (ValueOf 0%Z (InstancePort l)) (ToString (SSLCertificateId l))) m)
      (LBD_ListenerDescriptions lb) [] in
  mkCLB (Name e) (Lifecycle e)
    (LBD_LoadBalancerName lb) (LBD_DNSName lb) (LBD_CanonicalHostedZoneNameID lb)
    subnets securityGroups (Some listeners) (LBD_Scheme lb) healthcheck
    (match lbAttributes with
     | Some at_ => Some (mkAccessLog (LBA_AccessLog_EmitInterval at_)
                           (Some (LBA_AccessLog_Enabled at_))
                           (LBA_AccessLog_S3BucketName at_)
                           (LBA_AccessLog_S3BucketPrefix at_))
     | None => None
     end)
    (match lbAttributes with
     | Some at_ => Some (mkConnectionDraining
                           (if LBA_ConnectionDraining_Enabled at_ then Some true else None)
                           (LBA_ConnectionDraining_Timeout at_))
     | None => None
     end)
    (match lbAttributes with
     | Some at_ => Some (mkConnectionSettings (LBA_ConnectionSettings_IdleTimeout at_))
     | None => None
     end)
    (match lbAttributes with
     | Some at_ => Some (mkCrossZone (Some (LBA_CrossZoneLoadBalancing_Enabled at_)))
     | None => None
     end)
    EmptyString (Some actualTags) None (WellKnownServices e).

(** The end of [Find], from "Avoid spurious mismatches" on: the desired task
    and the snapshot it leaves.  After [actual.Subnets = e.Subnets] the two
    slices are one backing array, so what [Normalize] does to
    [actual.Subnets] in place is seen through [e.Subnets] too. *)
Definition reconcile (e actual : ClassicLoadBalancer)
  : ClassicLoadBalancer * ClassicLoadBalancer :=
  let oneArray := subnetSlicesEqualIgnoreOrder (Subnets actual) (Subnets e) in
  let actual := if oneArray then setSubnets (Subnets e) actual else actual in
  let e := if isNil (DNSName e) then setDNSName (DNSName actual) e else e in
  let e := if isNil (HostedZoneId e) then setHostedZoneId (HostedZoneId actual) e else e in
  let e :=
    if isNil (LoadBalancerName e) then setLoadBalancerName (LoadBalancerName actual) e
    else e in
  let e :=
    if negb (String.eqb (ToString (LoadBalancerName e)) (ToString (LoadBalancerName actual)))
    then setLoadBalancerName (LoadBalancerName actual) e
    else e in
  let actual := (Normalize actual).1 in
  let e := if oneArray then setSubnets (Subnets actual) e else e in
  (e, actual).

(** [Find]: the desired task as the call leaves it, and what it returns. *)
Definition Find (w : World) (e : ClassicLoadBalancer)
  : ClassicLoadBalancer * outcome (option ClassicLoadBalancer) :=
  match FindELBByNameTag cloud (ToString (Name e)) w with
  | Err err => (e, Failed err)
  | Ok None => (e, Done None)
  | Ok (Some lb) =>
      match LBD_LoadBalancerName lb with
      | None => (e, Panicked)
      | Some lbName =>
          match DescribeELBTags cloud [lbName] w with
          | Err err => (e, Failed err)
          | Ok tagMap =>
              match LoadBalancerName e with
              | None => (e, Panicked)
              | Some eName =>
                  let tags := ValueOf [] (mapLookup eName tagMap) in
                  match findHealthCheck cloud lb with
                  | Err err => (e, Failed err)
                  | Ok healthcheck =>
                      match findELBAttributes cloud (ToString (LBD_LoadBalancerName lb)) w with
                      | Err err => (e, Failed err)
                      | Ok lbAttributes =>
                          let actual := snapshot e lb tags healthcheck lbAttributes in
                          let (e', actual') := reconcile e actual in
                          (e', Done (Some actual'))
                      end
                  end
              end
          end
      end
  end.

End Discovery.

(** *** Rendering against the API *)

(** [ClassicLoadBalancerListener.mapToAWS] *)
Definition mapToAWS (e : ClassicLoadBalancerListener) (loadBalancerPort : Z) : Listener :=
  if negb (String.eqb (Listener_SSLCertificateID e) EmptyString)
  then mkAWSListener loadBalancerPort (Some (Listener_InstancePort e))
         (Some "SSL") (Some "SSL") (Some (Listener_SSLCertificateID e))
  else mkAWSListener loadBalancerPort (Some (Listener_InstancePort e))
         (Some "TCP") (Some "TCP") None.

(** The loop over a map of listeners that fills [request.Listeners]; it
    returns at the first port that does not parse. *)
Fixpoint listenersToAWS (listeners : list (string * ClassicLoadBalancerListener))
    (acc : list Listener) : result (list Listener) :=
  match listeners with
  | [] => Ok acc
  | (loadBalancerPort, listener) :: rest =>
      match ParseInt loadBalancerPort 32 with
      | None =>
          Err (Errorf ("error parsing load balancer listener port: " ++ loadBalancerPort))
      | Some loadBalancerPortInt =>
          listenersToAWS rest (acc ++ [mapToAWS listener (int32 loadBalancerPortInt)])
      end
  end.

Definition subnetIDs (s : slice Subnet) : list string :=
  map (fun subnet => ToString (Subnet_ID subnet)) (elems s).

Definition securityGroupIDs (s : slice SecurityGroup) : list string :=
  map (fun sg => ToString (SecurityGroup_ID sg)) (elems s).

Section RenderAWS.
Context {World : Type} (cloud : AWSCloud World).

(** What a render threads through: the remote side, the mutating calls made
    so far, and the desired task, which the render writes to. *)
Record RenderState := mkRenderState {
  world : World;
  calls : list Call;
  desired : ClassicLoadBalancer
}.

Definition M (A : Type) : Type := RenderState -> result A * RenderState.

Definition ret {A : Type} (a : A) : M A := fun s => (Ok a, s).

Definition fail {A : Type} (err : error) : M A := fun s => (Err err, s).

Definition bind {A B : Type} (m : M A) (f : A -> M B) : M B :=
  fun s =>
    match m s with
    | (Ok a, s') => f a s'
    | (Err err, s') => (Err err, s')
    end.

#[local] Instance M_ret : MRet M := @ret.

#[local] Instance M_bind : MBind M := fun A B f m => bind m f.

(** A mutating call; [wrap] is what the caller makes of its error. *)
Definition call (c : Call) (wrap : error -> error) : M (option string) :=
  fun s =>
    let (r, w') := mutate cloud c (world s) in
    let s' := mkRenderState w' (calls s ++ [c]) (desired s) in
    match r with
    | Ok x => (Ok x, s')
    | Err err => (Err (wrap err), s')
    end.

(** A mutating call whose results are dropped. *)
Definition callIgnored (c : Call) : M unit :=
  fun s =>
    let (_, w') := mutate cloud c (world s) in
    (Ok tt, mkRenderState w' (calls s ++ [c]) (desired s)).

Definition requery (loadBalancerName : string) : M (option LoadBalancerDescription) :=
  fun s => (findLoadBalancerByLoadBalancerName cloud (world s) loadBalancerName, s).

Definition assign (f : ClassicLoadBalancer -> ClassicLoadBalancer) : M unit :=
  fun s => (Ok tt, mkRenderState (world s) (calls s) (f (desired s))).

Definition lift {A : Type} (r : result A) : M A := fun s => (r, s).

Definition when (b : bool) (m : M unit) : M unit := if b then m else ret tt.

(** The first creation. *)
Definition renderCreate (e : ClassicLoadBalancer) : M string :=
  match LoadBalancerName e with
  | None => fail (RequiredField "LoadBalancerName")
  | Some loadBalancerName =>
      listeners ← lift (listenersToAWS (ValueOf [] (Listeners e)) []);
      let request :=
        mkCreate (LoadBalancerName e) (Scheme e)
          (subnetIDs (Subnets e)) (securityGroupIDs (SecurityGroups e)) listeners in
      response ← call (CreateLoadBalancerCall request) (ErrorfV "error creating ELB: %v");
      assign (setDNSName response);;
      lb ← requery loadBalancerName;
      match lb with
      | None => fail (Errorf ("Unable to find newly created ELB " ++ loadBalancerName))
      | Some lb =>
          assign (setHostedZoneId (LBD_CanonicalHostedZoneNameID lb));;
          ret loadBalancerName
      end
  end.

(** The update of the subnets. *)
Definition renderSubnets (loadBalancerName : string) (a e : ClassicLoadBalancer) : M unit :=
  let expectedSubnets := subnetIDs (Subnets e) in
  let actualSubnets := subnetIDs (Subnets a) in
  let oldSubnetIDs := GetUniqueStrings expectedSubnets actualSubnets in
  when (0 <? length oldSubnetIDs)%nat
    (call (DetachLoadBalancerFromSubnetsCall loadBalancerName oldSubnetIDs)
       (ErrorfV "Error detaching Load Balancer from old subnets: %v");; ret tt);;
  let newSubnetIDs := GetUniqueStrings actualSubnets expectedSubnets in
  when (0 <? length newSubnetIDs)%nat
    (call (AttachLoadBalancerToSubnetsCall loadBalancerName newSubnetIDs)
       (ErrorfV "Error attaching Load Balancer to new subnets: %v");; ret tt).

(** The update of the listeners. *)
Definition renderListeners (loadBalancerName : string) (changes : ClassicLoadBalancer) : M unit :=
  elbDescription ←
    ((fun s =>
       match findLoadBalancerByLoadBalancerName cloud (world s) loadBalancerName with
       | Ok d => (Ok d, s)
       | Err err => (Err (ErrorfV "error getting load balancer by name: %v" err), s)
       end) : M (option LoadBalancerDescription));
  when (negb (isNil elbDescription))
    (callIgnored (DeleteLoadBalancerListenersCall loadBalancerName [443%Z]));;
  listeners ← lift (listenersToAWS (ValueOf [] (Listeners changes)) []);
  call (CreateLoadBalancerListenersCall loadBalancerName listeners)
    (ErrorfV "error creating LoadBalancerListeners: %v");;
  ret tt.

(** The update of an existing load balancer. *)
Definition renderUpdate (a e changes : ClassicLoadBalancer) : M string :=
  let loadBalancerName := ToString (LoadBalancerName a) in
  when (negb (isNil (Subnets changes))) (renderSubnets loadBalancerName a e);;
  when (negb (isNil (SecurityGroups changes)))
    (call (ApplySecurityGroupsToLoadBalancerCall loadBalancerName
             (securityGroupIDs (SecurityGroups e)))
       (ErrorfV "Error updating security groups on Load Balancer: %v");; ret tt);;
  when (negb (isNil (Listeners changes))) (renderListeners loadBalancerName changes);;
  ret loadBalancerName.

(** [RenderAWS], as a computation. *)
Definition renderAWS (a : option ClassicLoadBalancer) (e changes : ClassicLoadBalancer)
  : M unit :=
  let shared := ValueOfBool (Shared e) in
  if shared then ret tt
  else
    loadBalancerName ←
      match a with
      | None => renderCreate e
      | Some a => renderUpdate a e changes
      end;
    call (AddELBTagsCall loadBalancerName (Tags e)) id;;
    call (RemoveELBTagsCall loadBalancerName (Tags e)) id;;
    match HealthCheck e with
    | Some healthCheck =>
        when (negb (isNil (HealthCheck changes)))
          (call (ConfigureHealthCheckCall loadBalancerName healthCheck)
             (ErrorfV "error configuring health checks on ELB: %v");; ret tt)
    | None => ret tt
    end;;
    call (ModifyLoadBalancerAttributesCall a e changes) id;;
    ret tt.

(** [RenderAWS]: the error it returns, and the state it leaves, starting
    with no call made. *)
Definition RenderAWS (w : World) (a : option ClassicLoadBalancer)
    (e changes : ClassicLoadBalancer) : option error * RenderState :=
  match renderAWS a e changes (mkRenderState w [] e) with
  | (Ok _, s) => (None, s)
  | (Err err, s) => (Some err, s)
  end.

End RenderAWS.

Arguments world {World}.
Arguments calls {World}.
Arguments desired {World}.

(** *** Rendering to Terraform *)

Record terraformLoadBalancerListener := mkTfListener {
  tf_InstancePort : Z;
  tf_InstanceProtocol : string;
  tf_LBPort : Z;
  tf_LBProtocol : string;
  tf_SSLCertificateID : option string
}.

Record terraformLoadBalancerHealthCheck := mkTfHealthCheck {
  tf_Target : option string;
  tf_HealthyThreshold : option Z;
  tf_UnhealthyThreshold : option Z;
  tf_Interval : option Z;
  tf_Timeout : option Z
}.

Record terraformLoadBalancerAccessLog := mkTfAccessLog {
  tf_EmitInterval : option Z;
  tf_Enabled : option bool;
  tf_S3BucketName : option string;
  tf_S3BucketPrefix : option string
}.

Record terraformLoadBalancer := mkTf {
  tf_LoadBalancerName : option string;
  tf_Listener : list terraformLoadBalancerListener;
  tf_SecurityGroups : list Terraform.Literal;
  tf_Subnets : list Terraform.Literal;
  tf_Internal : option bool;
  tf_HealthCheck : option terraformLoadBalancerHealthCheck;
  tf_AccessLog : option terraformLoadBalancerAccessLog;
  tf_ConnectionDraining : option bool;
  tf_ConnectionDrainingTimeout : option Z;
  tf_CrossZoneLoadBalancing : option bool;
  tf_IdleTimeout : option Z;
  tf_Tags : list (string * string)
}.

(** The Terraform target and the helpers of other packages that the render
    calls: [Target] is the state of the target, [RenderResource] adds a
    resource to it. *)
Record TerraformTarget (Target : Type) := mkTarget {
  SubnetTerraformLink : Subnet -> Terraform.Literal;
  SecurityGroupTerraformLink : SecurityGroup -> Terraform.Literal;
  SortLiterals : list Terraform.Literal -> list Terraform.Literal;
  RenderResource :
    string -> string -> terraformLoadBalancer -> Target -> option error * Target
}.
Arguments SubnetTerraformLink {Target}.
Arguments SecurityGroupTerraformLink {Target}.
Arguments SortLiterals {Target}.
Arguments RenderResource {Target}.

(** The loop over the listeners in [RenderTerraform]. *)
Fixpoint listenersToTerraform (listeners : list (string * ClassicLoadBalancerListener))
    (acc : list terraformLoadBalancerListener) : result (list terraformLoadBalancerListener) :=
  match listeners with
  | [] => Ok acc
  | (loadBalancerPort, listener) :: rest =>
      match ParseInt loadBalancerPort 64 with
      | None =>
          Err (Errorf ("error parsing load balancer listener port: " ++ loadBalancerPort))
      | Some loadBalancerPortInt =>
          let l :=
            if negb (String.eqb (Listener_SSLCertificateID listener) EmptyString)
            then mkTfListener (Listener_InstancePort listener) "SSL"
                   (int32 loadBalancerPortInt) "SSL"
                   (Some (Listener_SSLCertificateID listener))
            else mkTfListener (Listener_InstancePort listener) "TCP"
                   (int32 loadBalancerPortInt) "TCP" None in
          listenersToTerraform rest (acc ++ [l])
      end
  end.

Section RenderTerraform.
Context {World Target : Type} (cloud : AWSCloud World) (t : TerraformTarget Target).

(** [RenderTerraform]: what it returns and the target it leaves. *)
Definition RenderTerraform (target : Target) (a : option ClassicLoadBalancer)
    (e changes : ClassicLoadBalancer) : outcome unit * Target :=
  let shared := ValueOfBool (Shared e) in
  if shared then (Done tt, target)
  else
    match LoadBalancerName e with
    | None => (Failed (RequiredField "LoadBalancerName"), target)
    | Some _ =>
        let internal :=
          if String.eqb (ToString (Scheme e)) "internal" then Some true else None in
        let subnets := SortLiterals t (map (SubnetTerraformLink t) (elems (Subnets e))) in
        let securityGroups :=
          SortLiterals t (map (SecurityGroupTerraformLink t) (elems (SecurityGroups e))) in
        match listenersToTerraform (ValueOf [] (Listeners e)) [] with
        | Err err => (Failed err, target)
        | Ok listeners =>
            let healthCheck :=
              match HealthCheck e with
              | Some hc =>
                  Some (mkTfHealthCheck (HealthCheck_Target hc)
                          (HealthCheck_HealthyThreshold hc)
                          (HealthCheck_UnhealthyThreshold hc)
                          (HealthCheck_Interval hc) (HealthCheck_Timeout hc))
              | None => None
              end in
            let accessLog :=
              match AccessLog e with
              | Some al =>
                  if ValueOfBool (AccessLog_Enabled al)
                  then Some (mkTfAccessLog (AccessLog_EmitInterval al) (AccessLog_Enabled al)
                               (AccessLog_S3BucketName al) (AccessLog_S3BucketPrefix al))
                  else None
              | None => None
              end in
            let tags :=
              fold_left (fun tags kv => mapInsert kv.1 kv.2 tags)
                (ValueOf [] (Tags e)) (BuildTags cloud (Name e)) in
            let tf :=
              mkTf (LoadBalancerName e) listeners securityGroups subnets internal
                healthCheck accessLog
                (match ConnectionDraining e with
                 | Some cd => ConnectionDraining_Enabled cd | None => None end)
                (match ConnectionDraining e with
                 | Some cd => ConnectionDraining_Timeout cd | None => None end)
                (match CrossZoneLoadBalancing e with
                 | Some cz => CrossZone_Enabled cz | None => None end)
                (match ConnectionSettings e with
                 | Some cs => ConnectionSettings_IdleTimeout cs | None => None end)
                tags in
            match Name e with
            | None => (Panicked, target)
            | Some name =>
                match RenderResource t "aws_elb" name tf target with
                | (Some err, target') => (Failed err, target')
                | (None, target') => (Done tt, target')
                end
            end
        end
    end.

End RenderTerraform.

(** *** The required fields in the words of the spec

    "non-shared resources must have security-group and subnet references,
    and any enabled optional feature block (access log, connection draining,
    cross-zone) must have its own required sub-fields populated", and the
    logical name, which the code asks for first.  [Missing e f]: the field
    that the error text [f] names is missing in [e]. *)
Inductive Missing (e : ClassicLoadBalancer) : string -> Prop :=
| MissingName :
    ToString (Name e) = EmptyString -> Missing e "Name"
| MissingSecurityGroups :
    ValueOfBool (Shared e) = false -> len (SecurityGroups e) = 0%nat ->
    Missing e "SecurityGroups"
| MissingSubnets :
    ValueOfBool (Shared e) = false -> len (Subnets e) = 0%nat ->
    Missing e "Subnets"
| MissingAccessLogEnabled al :
    AccessLog e = Some al -> AccessLog_Enabled al = None ->
    Missing e "Acceslog.Enabled"
| MissingAccessLogBucket al :
    AccessLog e = Some al -> AccessLog_Enabled al = Some true ->
    AccessLog_S3BucketName al = None ->
    Missing e "Acceslog.S3Bucket"
| MissingConnectionDrainingEnabled cd :
    ConnectionDraining e = Some cd -> ConnectionDraining_Enabled cd = None ->
    Missing e "ConnectionDraining.Enabled"
| MissingCrossZoneEnabled cz :
    CrossZoneLoadBalancing e = Some cz -> CrossZone_Enabled cz = None ->
    Missing e "CrossZoneLoadBalancing.Enabled".

(** The conditions that C5 lists for an error, as a test. *)
Definition listedMissing (e : ClassicLoadBalancer) : bool :=
  (negb (ValueOfBool (Shared e))
   && ((len (SecurityGroups e) =? 0)%nat || (len (Subnets e) =? 0)%nat))
  || match AccessLog e with
     | Some al =>
         match AccessLog_Enabled al with
         | None => true
         | Some enabled => enabled && isNil (AccessLog_S3BucketName al)
         end
     | None => false
     end
  || match ConnectionDraining e with
     | Some cd => isNil (ConnectionDraining_Enabled cd)
     | None => false
     end
  || match CrossZoneLoadBalancing e with
     | Some cz => isNil (CrossZone_Enabled cz)
     | None => false
     end.

(** The calls about subnets and about listeners. *)
Definition detachedSubnets (c : Call) : option (list string) :=
  match c with
  | DetachLoadBalancerFromSubnetsCall _ subnets => Some subnets
  | _ => None
  end.

Definition attachedSubnets (c : Call) : option (list string) :=
  match c with
  | AttachLoadBalancerToSubnetsCall _ subnets => Some subnets
  | _ => None
  end.

Definition deletedPorts (c : Call) : option (list Z) :=
  match c with
  | DeleteLoadBalancerListenersCall _ ports => Some ports
  | _ => None
  end.

Definition succeeded {A : Type} (r : result A) : bool :=
  match r with Ok _ => true | Err _ => false end.

(** The calls about subnets that an update is to make, by the spec: "items
    to detach = actual - desired, items to attach = desired - actual",
    "detach/attach only for non-empty deltas"; the attach call is reached
    when no detach call has failed before it. *)
Definition subnetCalls {World : Type} (cloud : AWSCloud World) (w : World)
    (loadBalancerName : string) (actual desired : list string) : list Call :=
  let detach := List.filter (fun s => negb (Contains desired s)) actual in
  let attach := List.filter (fun s => negb (Contains actual s)) desired in
  let detachCall := DetachLoadBalancerFromSubnetsCall loadBalancerName detach in
  (if (0 <? length detach)%nat then [detachCall] else [])
  ++ (if (0 <? length attach)%nat
         && (negb (0 <? length detach)%nat || succeeded (mutate cloud detachCall w).1)
      then [AttachLoadBalancerToSubnetsCall loadBalancerName attach] else []).

(** [adds P m]: whatever the state, [m] leaves the earlier calls in place
    and adds only calls that satisfy [P]. *)
Definition adds {World A : Type} (P : Call -> Prop) (m : M (World := World) A) : Prop :=
  forall s, exists cs, calls (m s).2 = calls s ++ cs /\ Forall P cs.

(** What holds of every call of a render of [e] against [a]: a detach call
    carries the subnets of [a] that [e] does not have, an attach call those
    of [e] that [a] does not have, neither of them an empty list, and a
    call that deletes listeners names port 443. *)
Definition plannedCall (a : option ClassicLoadBalancer) (e : ClassicLoadBalancer)
    (c : Call) : Prop :=
  (forall subnets, detachedSubnets c = Some subnets ->
     exists a', a = Some a' /\
       subnets = GetUniqueStrings (subnetIDs (Subnets e)) (subnetIDs (Subnets a')) /\
       subnets <> []) /\
  (forall subnets, attachedSubnets c = Some subnets ->
     exists a', a = Some a' /\
       subnets = GetUniqueStrings (subnetIDs (Subnets a')) (subnetIDs (Subnets e)) /\
       subnets <> []) /\
  (forall ports, deletedPorts c = Some ports -> ports = [443%Z]).

(** *** Addresses and the order by name *)

(** [FindAddresses]: the DNS name of the load balancer found by the Name
    tag, when it has one. *)
Definition FindAddresses {World : Type} (cloud : AWSCloud World) (w : World)
    (e : ClassicLoadBalancer) : result (slice string) :=
  match FindELBByNameTag cloud (ToString (Name e)) w with
  | Err err => Err err
  | Ok None => Ok None
  | Ok (Some lb) =>
      let lbDnsName := ToString (LBD_DNSName lb) in
      if String.eqb lbDnsName EmptyString then Ok None
      else Ok (Some [lbDnsName])
  end.

(** [GetWellKnownServices] *)
Definition GetWellKnownServices (e : ClassicLoadBalancer) := WellKnownServices e.

(** [CompareWithID] *)
Definition CompareWithID (e : ClassicLoadBalancer) : option string := Name e.

(** [OrderLoadBalancersByName.Less], on the two elements compared. *)
Definition OrderLoadBalancersByName_Less (a b : ClassicLoadBalancer) : bool :=
  String.ltb (ToString (Name a)) (ToString (Name b)).

(** The load balancer that a call names in its request. *)
Definition callTarget (c : Call) : option string :=
  match c with
  | CreateLoadBalancerCall request => Create_LoadBalancerName request
  | DetachLoadBalancerFromSubnetsCall name _
  | AttachLoadBalancerToSubnetsCall name _
  | ApplySecurityGroupsToLoadBalancerCall name _
  | DeleteLoadBalancerListenersCall name _
  | CreateLoadBalancerListenersCall name _
  | AddELBTagsCall name _
  | RemoveELBTagsCall name _
  | ConfigureHealthCheckCall name _ => Some name
  | ModifyLoadBalancerAttributesCall _ _ _ => None
  end.

Definition isCreate (c : Call) : bool :=
  match c with CreateLoadBalancerCall _ => true | _ => false end.

(** A task that differs from [e] in the two fields a render writes to. *)
Definition sameButAddress (e e' : ClassicLoadBalancer) : Prop :=
  e' = setHostedZoneId (HostedZoneId e') (setDNSName (DNSName e') e).

(** [writes R m]: whatever the state, the desired task that [m] leaves is
    related by [R] to the one it found. *)
Definition writes {World A : Type} (R : ClassicLoadBalancer -> ClassicLoadBalancer -> Prop)
    (m : M (World := World) A) : Prop :=
  forall s, R (desired s) (desired (m s).2).

(** [returns Q m]: what [m] returns when it does not fail satisfies [Q]. *)
Definition returns {World A : Type} (Q : A -> Prop) (m : M (World := World) A) : Prop :=
  forall s x, (m s).1 = Ok x -> Q x.

(** A call that names a load balancer names [name]. *)
Definition targets (name : string) (c : Call) : Prop :=
  forall n, callTarget c = Some n -> n = name.


End Awstasks.

(** ** Package components: the options of the cluster autoscaler *)

Module Components.
Import Awstasks.

(** [kops.ClusterAutoscalerConfig], by the fields the builder reads and
    writes.  A pointer field is nil or set. *)
Record ClusterAutoscalerConfig := mkCAS {
  Enabled : option bool;
  Image : option string;
  Expander : option string;
  ScaleDownUtilizationThreshold : option string;
  SkipNodesWithLocalStorage : option bool;
  SkipNodesWithSystemPods : option bool;
  BalanceSimilarNodeGroups : option bool;
  AWSUseStaticInstanceList : option bool;
  NewPodScaleUpDelay : option string;
  ScaleDownDelayAfterAdd : option string;
  ScaleDownUnneededTime : option string;
  ScaleDownUnreadyTime : option string;
  MaxNodeProvisionTime : string;
  AutoDiscovery : option bool
}.

(** [kops.ClusterSpec], by the fields the builder reads. *)
Record ClusterSpec := mkClusterSpec {
  KubernetesVersion : string;
  ClusterAutoscaler : option ClusterAutoscalerConfig
}.

(** [semver.Version] *)
Record Version := mkVersion {
  Major : Z;
  Minor : Z;
  Patch : Z
}.

(** A pointer field that is nil gets the default. *)
Definition orDefault {A : Type} (p : option A) (default : A) : option A :=
  match p with
  | Some v => Some v
  | None => Some default
  end.

Definition imagePrefix : string := "registry.k8s.io/autoscaling/cluster-autoscaler:".

Section Builder.

(** [util.ParseKubernetesVersion] is declared in another package; [None] is
    its error. *)
Variable ParseKubernetesVersion : string -> option Version.

(** The image for a cluster whose spec names none. *)
Definition defaultImage (kubernetesVersion : string) : string :=
  let image := EmptyString in
  match ParseKubernetesVersion kubernetesVersion with
  | Some v =>
      if (Minor v =? 25)%Z then "registry.k8s.io/autoscaling/cluster-autoscaler:v1.25.0"
      else if (Minor v =? 24)%Z then "registry.k8s.io/autoscaling/cluster-autoscaler:v1.24.0"
      else if (Minor v =? 23)%Z then "registry.k8s.io/autoscaling/cluster-autoscaler:v1.23.1"
      else if (Minor v =? 22)%Z then "registry.k8s.io/autoscaling/cluster-autoscaler:v1.22.3"
      else if (Minor v =? 21)%Z then "registry.k8s.io/autoscaling/cluster-autoscaler:v1.21.3"
      else "registry.k8s.io/autoscaling/cluster-autoscaler:v1.25.0"
  | None => image
  end.

(** The writes of [BuildOptions] to the autoscaler's config. *)
Definition buildCAS (kubernetesVersion : string) (cas : ClusterAutoscalerConfig)
  : ClusterAutoscalerConfig :=
  mkCAS (Enabled cas)
    (match Image cas with
     | None => Some (defaultImage kubernetesVersion)
     | Some image => Some image
     end)
    (orDefault (Expander cas) "random")
    (orDefault (ScaleDownUtilizationThreshold cas) "0.5")
    (orDefault (SkipNodesWithLocalStorage cas) true)
    (orDefault (SkipNodesWithSystemPods cas) true)
    (orDefault (BalanceSimilarNodeGroups cas) false)
    (orDefault (AWSUseStaticInstanceList cas) false)
    (orDefault (NewPodScaleUpDelay cas) "0s")
    (orDefault (ScaleDownDelayAfterAdd cas) "10m0s")
    (orDefault (ScaleDownUnneededTime cas) "10m0s")
    (orDefault (ScaleDownUnreadyTime cas) "20m0s")
    (if String.eqb (MaxNodeProvisionTime cas) EmptyString then "15m0s"
     else MaxNodeProvisionTime cas)
    (orDefault (AutoDiscovery cas) false).

(** [BuildOptions], on a cluster spec: the spec it leaves and the error it
    returns. *)
Definition BuildOptions (clusterSpec : ClusterSpec) : ClusterSpec * option error :=
  match ClusterAutoscaler clusterSpec with
  | None => (clusterSpec, None)
  | Some cas =>
      if negb (ValueOfBool (Enabled cas)) then (clusterSpec, None)
      else
        (mkClusterSpec (KubernetesVersion clusterSpec)
           (Some (buildCAS (KubernetesVersion clusterSpec) cas)), None)
  end.

End Builder.

(** No pointer field of the config is nil, and the provision time is not
    the empty string. *)
Definition complete (cas : ClusterAutoscalerConfig) : bool :=
  negb (isNil (Image cas)) && negb (isNil (Expander cas))
  && negb (isNil (ScaleDownUtilizationThreshold cas))
  && negb (isNil (SkipNodesWithLocalStorage cas))
  && negb (isNil (SkipNodesWithSystemPods cas))
  && negb (isNil (BalanceSimilarNodeGroups cas))
  && negb (isNil (AWSUseStaticInstanceList cas))
  && negb (isNil (NewPodScaleUpDelay cas))
  && negb (isNil (ScaleDownDelayAfterAdd cas))
  && negb (isNil (ScaleDownUnneededTime cas))
  && negb (isNil (ScaleDownUnreadyTime cas))
  && negb (String.eqb (MaxNodeProvisionTime cas) EmptyString)
  && negb (isNil (AutoDiscovery cas)).

(** [keeps p q]: a pointer that was set still points to the same value. *)
Definition keeps {A : Type} (p q : option A) : Prop :=
  forall v, p = Some v -> q = Some v.

(** Every field that the user has set is as it was. *)
Definition keepsSettings (cas cas' : ClusterAutoscalerConfig) : Prop :=
  Enabled cas' = Enabled cas /\
  keeps (Image cas) (Image cas') /\
  keeps (Expander cas) (Expander cas') /\
  keeps (ScaleDownUtilizationThreshold cas) (ScaleDownUtilizationThreshold cas') /\
  keeps (SkipNodesWithLocalStorage cas) (SkipNodesWithLocalStorage cas') /\
  keeps (SkipNodesWithSystemPods cas) (SkipNodesWithSystemPods cas') /\
  keeps (BalanceSimilarNodeGroups cas) (BalanceSimilarNodeGroups cas') /\
  keeps (AWSUseStaticInstanceList cas) (AWSUseStaticInstanceList cas') /\
  keeps (NewPodScaleUpDelay cas) (NewPodScaleUpDelay cas') /\
  keeps (ScaleDownDelayAfterAdd cas) (ScaleDownDelayAfterAdd cas') /\
  keeps (ScaleDownUnneededTime cas) (ScaleDownUnneededTime cas') /\
  keeps (ScaleDownUnreadyTime cas) (ScaleDownUnreadyTime cas') /\
  (MaxNodeProvisionTime cas <> EmptyString ->
   MaxNodeProvisionTime cas' = MaxNodeProvisionTime cas) /\
  keeps (AutoDiscovery cas) (AutoDiscovery cas').

End Components.

(** ** Sample inputs for the scenarios of the spec *)

Import GoString Terraform.

(** Two enumerations of one desired state. *)
Definition sampleTags1 : Value :=
  VMap [ ("b", VString "two"); ("a", literalValue "aws_vpc.main.id") ].

Definition sampleTags2 : Value :=
  VMap [ ("a", literalValue "aws_vpc.main.id"); ("b", VString "two") ].

Definition sampleListener1 : Value :=
  VList [ VObject [ ("lb_port", VNumber 443); ("instance_port", VNumber 8443) ] ].

Definition sampleListener2 : Value :=
  VList [ VObject [ ("instance_port", VNumber 8443); ("lb_port", VNumber 443) ] ].

Definition sampleTree1 : Value :=
  VObject [ ("tags", sampleTags1); ("name", VString "api"); ("listener", sampleListener1) ].

Definition sampleTree2 : Value :=
  VObject [ ("listener", sampleListener2); ("tags", sampleTags2); ("name", VString "api") ].


(** The map of the scenario: "b" holds a plain string, "a" a Deferred
    Value; the enumeration has "b" first. *)
Definition sampleMap : list (string * Value) :=
  [ ("b", VString "literalB"); ("a", literalValue "aws_subnet.a.id") ].

(** A map of numbers. *)
Definition numberMap : list (string * Value) := [ ("port", VNumber 443) ].

Import Awstasks.

(** A task with a name, by the fields the scenarios vary. *)
Definition sampleTask (loadBalancerName : option string) (subnets : slice Subnet)
    (securityGroups : slice SecurityGroup)
    (listeners : option (list (string * ClassicLoadBalancerListener)))
    (shared : option bool) : ClassicLoadBalancer :=
  mkCLB (Some "api.example.com") "Sync" loadBalancerName None None subnets securityGroups
    listeners None None None None None None EmptyString None shared [].

(** A changes record that carries one field. *)
Definition changedSubnets (subnets : slice Subnet) : ClassicLoadBalancer :=
  setSubnets subnets emptyCLB.

Definition changedListeners (listeners : option (list (string * ClassicLoadBalancerListener)))
  : ClassicLoadBalancer :=
  mkCLB None EmptyString None None None None None listeners None None None None None None
    EmptyString None None [].

(** A load balancer on the remote side. *)
Definition sampleLB : LoadBalancerDescription :=
  mkLBD (Some "api-elb") (Some "api-elb-1234.elb.amazonaws.com") (Some "Z35SXDOTRQ7X7K")
    (Some "internet-facing") ["s1"; "s2"] ["sgA"]
    [mkAWSListener 80 (Some 8080%Z) (Some "TCP") (Some "TCP") None].

(** A cloud that holds the load balancers [remote] and accepts every call:
    a listing is one page, a lookup by name tag gives the first of them. *)
Definition sampleCloud (remote : list LoadBalancerDescription) : AWSCloud unit :=
  {| DescribeLoadBalancers := fun _ _ => [Ok remote];
     FindELBByNameTag := fun _ _ => Ok (head remote);
     DescribeELBTags := fun _ _ => Ok [];
     findHealthCheck := fun _ => Ok None;
     findELBAttributes := fun _ _ => Ok None;
     BuildTags := fun _ => [];
     mutate := fun _ w => (Ok None, w) |}.

(** A cloud whose listing fails with the not-found code of the provider. *)
Definition notFoundCloud : AWSCloud unit :=
  {| DescribeLoadBalancers := fun _ _ =>
       [Err (AwsError "LoadBalancerNotFound" "There is no ACTIVE Load Balancer")];
     FindELBByNameTag := fun _ _ => Ok None;
     DescribeELBTags := fun _ _ => Ok [];
     findHealthCheck := fun _ => Ok None;
     findELBAttributes := fun _ _ => Ok None;
     BuildTags := fun _ => [];
     mutate := fun _ w => (Ok None, w) |}.

(** A Terraform target that collects the resources. *)
Definition sampleTarget
  : TerraformTarget (list (string * string * terraformLoadBalancer)) :=
  {| SubnetTerraformLink := fun s =>
       mkLiteral ("aws_subnet." ++ ToString (Subnet_ID s) ++ ".id");
     SecurityGroupTerraformLink := fun sg =>
       mkLiteral ("aws_security_group." ++ ToString (SecurityGroup_ID sg) ++ ".id");
     SortLiterals := fun l => l;
     RenderResource := fun kind name tf target => (None, target ++ [(kind, name, tf)]) |}.

(** C3: actual subnets s1, s2; desired subnets s2, s3. *)
Definition subnetsActual : ClassicLoadBalancer :=
  sampleTask (Some "api-elb") (Some [mkSubnet (Some "s1"); mkSubnet (Some "s2")])
    (Some [mkSecurityGroup (Some "sgA")]) None None.

Definition subnetsDesired : ClassicLoadBalancer :=
  sampleTask (Some "api-elb") (Some [mkSubnet (Some "s2"); mkSubnet (Some "s3")])
    (Some [mkSecurityGroup (Some "sgA")]) None None.

(** C4: the listener on port 80 changed its instance port. *)
Definition listenersActual : ClassicLoadBalancer :=
  sampleTask (Some "api-elb") None None (Some [("80", mkListener 8080 EmptyString)]) None.

Definition listenersDesired : ClassicLoadBalancer :=
  sampleTask (Some "api-elb") None None (Some [("80", mkListener 9090 EmptyString)]) None.

(** C5: a shared task without a name. *)
Definition sharedUnnamed : ClassicLoadBalancer :=
  mkCLB None EmptyString None None None None None None None None None None None None
    EmptyString None (Some true) [].

(** C7: a desired task that names its load balancer otherwise than the
    cloud does. *)
Definition renamedDesired : ClassicLoadBalancer :=
  sampleTask (Some "api-old-name") None None None None.

(** C8: a shared task. *)
Definition sharedTask : ClassicLoadBalancer :=
  sampleTask (Some "api-elb") None None None (Some true).

(** C9: two security groups out of order. *)
Definition unsortedTask : ClassicLoadBalancer :=
  sampleTask (Some "api-elb") None
    (Some [mkSecurityGroup (Some "sgB"); mkSecurityGroup (Some "sgA")]) None None.

(** A cluster with an enabled autoscaler that sets its expander only, and a
    parser that knows one version. *)
Definition sampleParse (s : string) : option Components.Version :=
  if String.eqb s "1.24.3" then Some (Components.mkVersion 1 24 3) else None.

Definition sampleCAS : Components.ClusterAutoscalerConfig :=
  Components.mkCAS (Some true) None (Some "least-waste") None None None None None
    None None None None EmptyString None.

Definition sampleSpec : Components.ClusterSpec :=
  Components.mkClusterSpec "1.24.3" (Some sampleCAS).

(** The snapshot of an outcome that holds one. *)
Definition foundOf (o : outcome (option ClassicLoadBalancer)) : ClassicLoadBalancer :=
  match o with
  | Done (Some actual) => actual
  | _ => emptyCLB
  end.

(** A cloud whose load balancer carries a tag of its own and a tag of
    CloudFormation. *)
Definition taggedCloud : AWSCloud unit :=
  {| DescribeLoadBalancers := fun _ _ => [Ok [sampleLB]];
     FindELBByNameTag := fun _ _ => Ok (Some sampleLB);
     DescribeELBTags := fun _ _ =>
       Ok [("api-elb",
            [ mkTag (Some "aws:cloudformation:stack-name") (Some "kops");
              mkTag (Some "KubernetesCluster") (Some "example.com") ])];
     findHealthCheck := fun _ => Ok None;
     findELBAttributes := fun _ _ => Ok None;
     BuildTags := fun _ => [("Name", "api.example.com")];
     mutate := fun _ w => (Ok None, w) |}.

(** A lookup that finds [sampleLB] for the task [subnetsDesired], the
    subnets taken to differ. *)
Definition sampleFind : ClassicLoadBalancer * outcome (option ClassicLoadBalancer) :=
  Find taggedCloud (fun _ _ => false) tt subnetsDesired.

(** A task that names no load balancer. *)
Definition unnamedTask : ClassicLoadBalancer :=
  sampleTask None None (Some [mkSecurityGroup (Some "sgA")]) None None.

(** A task with a listener on a port beyond 32 bits. *)
Definition widePortTask : ClassicLoadBalancer :=
  sampleTask (Some "api-elb") None None
    (Some [("4294967376", mkListener 8080 EmptyString)]) None.

(** * Facts about the order on Go strings *)

Module GoStringFacts.
Import GoString.

Lemma compare_refl s : String.compare s s = Eq.
Proof. apply String_as_OT.cmp_eq. reflexivity. Qed.

Lemma compare_Lt_trans s1 s2 s3 :
  String.compare s1 s2 = Lt -> String.compare s2 s3 = Lt ->
  String.compare s1 s3 = Lt.
Proof.
  intros H12 H23.
  apply String_as_OT.cmp_lt in H12. apply String_as_OT.cmp_lt in H23.
  apply String_as_OT.cmp_lt. eapply String_as_OT.lt_trans; eassumption.
Qed.

Lemma compare_Eq_eq s1 s2 : String.compare s1 s2 = Eq -> s1 = s2.
Proof. apply String.compare_eq_iff. Qed.

#[global] Instance le_refl : Reflexive le.
Proof. intros s. unfold le, String.leb. now rewrite compare_refl. Qed.

#[global] Instance le_trans : Transitive le.
Proof.
  intros s1 s2 s3. unfold le, String.leb.
  destruct (String.compare s1 s2) eqn:H12; [| |discriminate].
  - apply compare_Eq_eq in H12. now subst.
  - destruct (String.compare s2 s3) eqn:H23; [| |discriminate]; intros _ _.
    + apply compare_Eq_eq in H23. subst. now rewrite H12.
    + now rewrite (compare_Lt_trans _ _ _ H12 H23).
Qed.

#[global] Instance le_antisym : AntiSymm (=) le.
Proof. intros s1 s2. apply String.leb_antisym. Qed.

#[global] Instance le_total : Total le.
Proof. intros s1 s2. apply String.leb_total. Qed.

Lemma not_lt_le s1 s2 : ~ lt s1 s2 -> le s2 s1.
Proof.
  unfold lt, le, String.ltb, String.leb. rewrite (String.compare_antisym s2 s1).
  destruct (String.compare s1 s2); simpl; intros H; try reflexivity.
  exfalso. now apply H.
Qed.

Lemma lt_le s1 s2 : lt s1 s2 -> le s1 s2.
Proof.
  unfold lt, le, String.ltb, String.leb.
  destruct (String.compare s1 s2); congruence.
Qed.

Lemma lt_not_le s1 s2 : lt s1 s2 -> ~ le s2 s1.
Proof.
  unfold lt, le, String.ltb, String.leb. rewrite (String.compare_antisym s2 s1).
  destruct (String.compare s1 s2); simpl; congruence.
Qed.

Lemma insertString_Permutation s l : insertString s l ≡ₚ s :: l.
Proof.
  induction l as [|x l IH]; simpl; [done|].
  destruct (String.leb s x); [done|]. rewrite IH. apply Permutation_swap.
Qed.

Lemma sortStrings_Permutation l : sortStrings l ≡ₚ l.
Proof.
  induction l as [|s l IH]; simpl; [done|].
  now rewrite insertString_Permutation, IH.
Qed.

Lemma insertString_Sorted s l : Sorted le l -> Sorted le (insertString s l).
Proof.
  induction 1 as [|x l Hl IH Hhd]; simpl.
  - repeat constructor.
  - destruct (String.leb s x) eqn:Hsx.
    + constructor; [by constructor|]. by constructor.
    + constructor; [done|].
      assert (Hxs : le x s).
      { destruct (le_total x s) as [?|Hle]; [done|]. unfold le in Hle. congruence. }
      destruct Hhd as [|y l' Hxy]; simpl.
      * by constructor.
      * destruct (String.leb s y); by constructor.
Qed.

Lemma sortStrings_Sorted l : Sorted le (sortStrings l).
Proof.
  induction l as [|s l IH]; simpl; [constructor|].
  by apply insertString_Sorted.
Qed.

(** Sorting forgets the order in which the keys were enumerated. *)
Lemma sortStrings_unique l1 l2 : l1 ≡ₚ l2 -> sortStrings l1 = sortStrings l2.
Proof.
  intros Hp. apply (Sorted_unique le); try apply sortStrings_Sorted.
  now rewrite !sortStrings_Permutation.
Qed.

Lemma elem_of_sortStrings s l : s ∈ sortStrings l <-> s ∈ l.
Proof. now rewrite sortStrings_Permutation. Qed.

End GoStringFacts.

(** * Facts about the value writer *)

Module TerraformFacts.
Import GoString GoStringFacts Terraform.

(** Induction on values that reaches the elements of lists, objects and
    maps. *)
Lemma Value_nested_ind (P : Value -> Prop) :
  P VNull ->
  (forall s, P (VString s)) ->
  (forall n, P (VNumber n)) ->
  (forall b, P (VBool b)) ->
  (forall elems, Forall P elems -> P (VList elems)) ->
  (forall attrs, Forall (fun kv => P kv.2) attrs -> P (VObject attrs)) ->
  (forall elems, Forall (fun kv => P kv.2) elems -> P (VMap elems)) ->
  forall v, P v.
Proof.
  intros Hnull Hstr Hnum Hbool Hlist Hobj Hmap.
  fix IH 1. intros [ | s | n | b | elems | attrs | elems ].
  - exact Hnull.
  - apply Hstr.
  - apply Hnum.
  - apply Hbool.
  - apply Hlist. induction elems as [|v elems IHl]; constructor; [apply IH | exact IHl].
  - apply Hobj. induction attrs as [|[k v] attrs IHl]; constructor; [apply IH | exact IHl].
  - apply Hmap. induction elems as [|[k v] elems IHl]; constructor; [apply IH | exact IHl].
Qed.

(** *** Reading a Go map *)

Lemma withKey_lookupKey {V R} k (f : V -> option R) l :
  withKey k f l = match lookupKey k l with Some v => f v | None => None end.
Proof.
  unfold lookupKey. induction l as [|[k' v] l IH]; simpl; [done|].
  destruct (String.eqb k' k); [done | exact IH].
Qed.

Lemma lookupKey_Some_elem {V} k (v : V) l : lookupKey k l = Some v -> (k, v) ∈ l.
Proof.
  unfold lookupKey. induction l as [|[k' v'] l IH]; simpl; [done|].
  destruct (String.eqb k' k) eqn:Hk.
  - apply String.eqb_eq in Hk. intros [= ->]. subst. left.
  - intros H. right. by apply IH.
Qed.

Lemma lookupKey_None {V} k (l : list (string * V)) :
  lookupKey k l = None <-> k ∉ map fst l.
Proof.
  unfold lookupKey. induction l as [|[k' v'] l IH]; simpl.
  - split; [intros _; apply not_elem_of_nil | done].
  - rewrite not_elem_of_cons. destruct (String.eqb k' k) eqn:Hk.
    + apply String.eqb_eq in Hk. subst. split; [done | intros [? _]; done].
    + apply String.eqb_neq in Hk. rewrite IH. split; [intros ?; split; congruence | tauto].
Qed.

Lemma elem_lookupKey {V} k (v : V) l :
  NoDup (map fst l) -> (k, v) ∈ l -> lookupKey k l = Some v.
Proof.
  unfold lookupKey. induction l as [|[k' v'] l IH]; simpl.
  - intros _ H. by apply elem_of_nil in H.
  - intros Hnd H. apply NoDup_cons in Hnd as [Hk' Hnd].
    apply elem_of_cons in H as [[= <- <-]|H].
    + by rewrite String.eqb_refl.
    + destruct (String.eqb k' k) eqn:Hk; [|by apply IH].
      apply String.eqb_eq in Hk. subst k'. exfalso. apply Hk'.
      apply list_elem_of_fmap. by exists (k, v).
Qed.

Lemma lookupKey_Permutation {V} k (l1 l2 : list (string * V)) :
  NoDup (map fst l1) -> l1 ≡ₚ l2 -> lookupKey k l1 = lookupKey k l2.
Proof.
  intros Hnd Hp.
  assert (Hnd2 : NoDup (map fst l2)) by (by rewrite <- Hp).
  destruct (lookupKey k l1) as [v|] eqn:H1.
  - symmetry. apply elem_lookupKey; [done|]. rewrite <- Hp. by apply lookupKey_Some_elem.
  - symmetry. apply lookupKey_None. rewrite <- Hp. by apply lookupKey_None.
Qed.

Lemma lookupKey_elem_of_keys {V} k (l : list (string * V)) :
  k ∈ map fst l -> exists v, lookupKey k l = Some v.
Proof.
  intros Hk. destruct (lookupKey k l) as [v|] eqn:H; [by exists v|].
  apply lookupKey_None in H. done.
Qed.

(** Two maps with the same keys in the same order, read at the same key. *)
Lemma lookupKey_Forall2 {V} (R : V -> V -> Prop) k (l1 l2 : list (string * V)) :
  map fst l1 = map fst l2 -> Forall2 R (map snd l1) (map snd l2) ->
  match lookupKey k l1, lookupKey k l2 with
  | Some v1, Some v2 => R v1 v2
  | None, None => True
  | _, _ => False
  end.
Proof.
  unfold lookupKey. revert l2.
  induction l1 as [|[k1 v1] l1 IH]; intros [|[k2 v2] l2]; simpl; try done.
  intros [= -> Hk] HR. apply Forall2_cons in HR as [Hv HR].
  destruct (String.eqb k2 k); [done | by apply IH].
Qed.

(** *** Loops *)

Lemma foldM_ext {A B} (f g : A -> B -> option A) l a :
  (forall a x, x ∈ l -> f a x = g a x) -> foldM f l a = foldM g l a.
Proof.
  revert a. induction l as [|x l IH]; intros a Hfg; simpl; [done|].
  rewrite (Hfg a x) by left.
  destruct (g a x) as [a'|]; [|done].
  apply IH. intros a0 y Hy. apply Hfg. by right.
Qed.

Lemma foldM_Forall2 {A B} (f : A -> B -> option A) l1 l2 a :
  Forall2 (fun x y => forall a, f a x = f a y) l1 l2 -> foldM f l1 a = foldM f l2 a.
Proof.
  intros H. revert a. induction H as [|x y l1 l2 Hxy _ IH]; intros a; simpl; [done|].
  rewrite Hxy. destruct (f a y); [apply IH | done].
Qed.

(** *** The same logical value *)

Lemma SameValue_AsString v1 v2 : SameValue v1 v2 -> AsString v1 = AsString v2.
Proof. by destruct 1. Qed.

Lemma SameValue_IsObjectType v1 v2 :
  SameValue v1 v2 -> IsObjectType v1 = IsObjectType v2.
Proof. by destruct 1. Qed.

Lemma SameValue_keys (m1 m1' m2 : list (string * Value)) :
  m1 ≡ₚ m1' -> map fst m1' = map fst m2 ->
  sortStrings (map fst m1) = sortStrings (map fst m2).
Proof.
  intros Hp Hk. apply sortStrings_unique. rewrite <- Hk. by apply fmap_Permutation.
Qed.

Lemma SameValue_length (m1 m1' m2 : list (string * Value)) :
  m1 ≡ₚ m1' -> map fst m1' = map fst m2 -> length m1 = length m2.
Proof.
  intros Hp Hk. rewrite (Permutation_length Hp).
  rewrite <- (length_map fst m1'), Hk. apply length_map.
Qed.

(** The values found under one key in two enumerations of a logical map. *)
Lemma SameValue_lookupKey k (m1 m1' m2 : list (string * Value)) :
  NoDup (map fst m1) -> m1 ≡ₚ m1' -> map fst m1' = map fst m2 ->
  Forall2 SameValue (map snd m1') (map snd m2) ->
  k ∈ map fst m1 ->
  exists v1 v2, lookupKey k m1 = Some v1 /\ lookupKey k m2 = Some v2 /\
                (k, v1) ∈ m1 /\ SameValue v1 v2.
Proof.
  intros Hnd Hp Hk HR Hin.
  destruct (lookupKey_elem_of_keys k m1 Hin) as [v1 Hv1].
  pose proof (lookupKey_Forall2 SameValue k m1' m2 Hk HR) as H.
  rewrite <- (lookupKey_Permutation k m1 m1' Hnd Hp), Hv1 in H.
  destruct (lookupKey k m2) as [v2|]; [|done].
  exists v1, v2. repeat split; try done. by apply lookupKey_Some_elem.
Qed.

(** *** Determinism of the writer *)

Section Determinism.

Variable FromCtyValue_Literal : Value -> option Literal.
Variable FromCtyValue_Literals : Value -> option (list Literal).
Variable TokensForValue : Value -> Tokens.

(** The library functions see the logical value, not the order in which a Go
    map happens to be enumerated. *)
Hypothesis Literal_logical : forall v1 v2,
  SameValue v1 v2 -> FromCtyValue_Literal v1 = FromCtyValue_Literal v2.
Hypothesis Literals_logical : forall v1 v2,
  SameValue v1 v2 -> FromCtyValue_Literals v1 = FromCtyValue_Literals v2.
Hypothesis Tokens_logical : forall v1 v2,
  SameValue v1 v2 -> TokensForValue v1 = TokensForValue v2.

Local Abbreviation writeValue := (writeValue FromCtyValue_Literal FromCtyValue_Literals TokensForValue).
Local Abbreviation oldWriteMap := (oldWriteMap FromCtyValue_Literal FromCtyValue_Literals).
Local Abbreviation oldWriteMapStep := (oldWriteMapStep FromCtyValue_Literal FromCtyValue_Literals).

Lemma oldWriteMapStep_same m1 m1' m2 tokens k :
  NoDup (map fst m1) -> m1 ≡ₚ m1' -> map fst m1' = map fst m2 ->
  Forall2 SameValue (map snd m1') (map snd m2) ->
  k ∈ map fst m1 ->
  oldWriteMapStep m1 tokens k = oldWriteMapStep m2 tokens k.
Proof.
  intros Hnd Hp Hk HR Hin.
  destruct (SameValue_lookupKey k m1 m1' m2 Hnd Hp Hk HR Hin)
    as (v1 & v2 & H1 & H2 & _ & Hv).
  unfold Terraform.oldWriteMapStep. rewrite !withKey_lookupKey, H1, H2.
  rewrite (Literal_logical _ _ Hv), (Literals_logical _ _ Hv), (SameValue_AsString _ _ Hv).
  reflexivity.
Qed.

Lemma oldWriteMap_same body key m1 m1' m2 :
  NoDup (map fst m1) -> m1 ≡ₚ m1' -> map fst m1' = map fst m2 ->
  Forall2 SameValue (map snd m1') (map snd m2) ->
  oldWriteMap body key m1 = oldWriteMap body key m2.
Proof.
  intros Hnd Hp Hk HR. unfold Terraform.oldWriteMap.
  rewrite (SameValue_length m1 m1' m2 Hp Hk), (SameValue_keys m1 m1' m2 Hp Hk).
  destruct (length m2 =? 0)%nat; [done|].
  erewrite foldM_ext; [reflexivity|].
  intros tokens k Hin. apply (oldWriteMapStep_same m1 m1' m2); try done.
  apply (proj1 (elem_of_sortStrings _ _)) in Hin. rewrite <- Hk in Hin.
  by rewrite (Permutation_map fst Hp).
Qed.

(** The block body of an object does not depend on the enumeration, once
    the attribute values are written alike. *)
Lemma writeAttributes_same a1 a1' a2 :
  NoDup (map fst a1) -> a1 ≡ₚ a1' -> map fst a1' = map fst a2 ->
  Forall2 SameValue (map snd a1') (map snd a2) ->
  Forall (fun kv => forall v2, SameValue kv.2 v2 ->
            forall body key, writeValue body key kv.2 = writeValue body key v2) a1 ->
  writeAttributes writeValue a1 = writeAttributes writeValue a2.
Proof.
  intros Hnd Hp Hk HR IH. unfold writeAttributes.
  rewrite (SameValue_keys a1 a1' a2 Hp Hk).
  apply foldM_ext. intros childBody k Hin.
  apply (proj1 (elem_of_sortStrings _ _)) in Hin. rewrite <- Hk in Hin.
  rewrite <- (Permutation_map fst Hp) in Hin.
  destruct (SameValue_lookupKey k a1 a1' a2 Hnd Hp Hk HR Hin)
    as (v1 & v2 & H1 & H2 & Hel & Hv).
  rewrite !withKey_lookupKey, H1, H2.
  rewrite Forall_forall in IH. exact (IH (k, v1) Hel v2 Hv childBody k).
Qed.

Lemma omap_Literal_same l1 l2 :
  Forall2 SameValue l1 l2 ->
  omap FromCtyValue_Literal l1 = omap FromCtyValue_Literal l2.
Proof.
  induction 1 as [|v1 v2 l1 l2 Hv _ IH]; [done|].
  unfold omap in *. simpl. rewrite (Literal_logical _ _ Hv), IH. reflexivity.
Qed.

Local Abbreviation sameAttributes :=
  (sameAttributes FromCtyValue_Literal FromCtyValue_Literals TokensForValue).

Lemma writeValue_same_strong v1 :
  forall v2, SameValue v1 v2 ->
  (forall body key, writeValue body key v1 = writeValue body key v2) /\
  sameAttributes v1 v2.
Proof.
  induction v1 as [ | s | n | b | elems IH | attrs IH | elems IH ]
    using Value_nested_ind; intros v2 Hsame.
  - inversion Hsame; subst. by split.
  - inversion Hsame; subst. by split.
  - inversion Hsame; subst. by split.
  - inversion Hsame; subst. by split.
  - split; [|by destruct v2]. intros body key.
    pose proof Hsame as Hsame'.
    inversion Hsame as [ | | | | l1 l2 HF | | ]; subst. simpl.
    rewrite (Forall2_length _ _ _ HF), (omap_Literal_same _ _ HF).
    destruct (length l2 =? 0)%nat; [done|].
    destruct (0 <? length (omap FromCtyValue_Literal l2))%nat; [done|].
    destruct HF as [|x y l1 l2 Hxy HF]; [done|].
    rewrite (SameValue_IsObjectType _ _ Hxy).
    destruct (IsObjectType y).
    + apply foldM_Forall2.
      assert (HF' : Forall2 SameValue (x :: l1) (y :: l2)) by (by constructor).
      clear Hxy HF Hsame Hsame'.
      induction HF' as [|x' y' l1' l2' Hxy' HF' IHF]; constructor.
      * intros body'. apply Forall_cons in IH as [IHx _].
        destruct (IHx y' Hxy') as [_ Hattrs].
        destruct Hxy'; try done. unfold Terraform.sameAttributes in Hattrs. by rewrite Hattrs.
      * apply IHF. by apply Forall_cons in IH as [_ ?].
    + unfold SetAttributeValue. by rewrite (Tokens_logical _ _ Hsame').
  - pose proof Hsame as Hsame'.
    inversion Hsame as [ | | | | | a1 a1' a2 Hnd Hp Hk HR | ]; subst.
    assert (Hattrs : writeAttributes writeValue attrs = writeAttributes writeValue a2).
    { apply (writeAttributes_same attrs a1' a2); try done.
      eapply Forall_impl; [exact IH|]. intros [k v] Hv v2 Hv2. simpl in *.
      by apply Hv. }
    split; [|exact Hattrs]. intros body key. simpl.
    by rewrite (Literal_logical _ _ Hsame'), Hattrs.
  - pose proof Hsame as Hsame'.
    inversion Hsame as [ | | | | | | m1 m1' m2 Hnd Hp Hk HR ]; subst.
    split; [|done]. intros body key. simpl.
    rewrite (Literal_logical _ _ Hsame').
    by rewrite (oldWriteMap_same body key elems m1' m2).
Qed.

Lemma writeValue_same v1 v2 body key :
  SameValue v1 v2 -> writeValue body key v1 = writeValue body key v2.
Proof. intros H. by apply writeValue_same_strong. Qed.

End Determinism.

(** *** The map emitter against the map block of the spec *)

Section MapBlockFacts.

Variable FromCtyValue_Literal : Value -> option Literal.
Variable FromCtyValue_Literals : Value -> option (list Literal).

Local Abbreviation oldWriteMapStep :=
  (oldWriteMapStep FromCtyValue_Literal FromCtyValue_Literals).
Local Abbreviation pairTokens := (pairTokens FromCtyValue_Literal FromCtyValue_Literals).
Local Abbreviation blockLines := (blockLines FromCtyValue_Literal FromCtyValue_Literals).
Local Abbreviation valueTokens := (valueTokens FromCtyValue_Literal FromCtyValue_Literals).

Lemma oldWriteMapStep_pairTokens values tokens k :
  oldWriteMapStep values tokens k =
  match pairTokens values k with
  | Some ts => Some (tokens ++ ts)
  | None => None
  end.
Proof.
  unfold Terraform.oldWriteMapStep, Terraform.pairTokens, Terraform.valueTokens.
  rewrite withKey_lookupKey.
  destruct (lookupKey k values) as [v|]; [|done].
  destruct (FromCtyValue_Literal v) as [literal|].
  { unfold keyTokens, unquotedTokens. by rewrite <- !app_assoc. }
  destruct (FromCtyValue_Literals v) as [literals|].
  { unfold keyTokens. by rewrite <- !app_assoc. }
  destruct v; simpl; try done.
  unfold keyTokens, quotedTokens. by rewrite <- !app_assoc.
Qed.

Lemma foldM_blockLines values keys tokens :
  foldM (oldWriteMapStep values) keys tokens =
  match blockLines values keys with
  | Some lines => Some (tokens ++ lines)
  | None => None
  end.
Proof.
  revert tokens. induction keys as [|k keys IH]; intros tokens; simpl.
  - by rewrite app_nil_r.
  - rewrite oldWriteMapStep_pairTokens.
    destruct (pairTokens values k) as [ts|]; [|done].
    rewrite IH. destruct (blockLines values keys) as [tss|]; [|done].
    by rewrite app_assoc.
Qed.

Lemma literalListLoop_prefix n i literals tokens :
  exists rest, literalListLoop n i literals tokens = tokens ++ rest.
Proof.
  revert i tokens. induction literals as [|literal literals IH]; intros i tokens; simpl.
  - exists []. by rewrite app_nil_r.
  - destruct (Z.of_nat i <? Z.of_nat n - 1)%Z.
    + destruct (IH (S i) ((tokens ++ [mkToken TokenIdent (Literal_String literal) 0])
                            ++ [mkToken TokenComma "," 0])) as [rest ->].
      eexists. by rewrite <- !app_assoc.
    + destruct (IH (S i) (tokens ++ [mkToken TokenIdent (Literal_String literal) 0]))
        as [rest ->].
      eexists. by rewrite <- !app_assoc.
Qed.

Lemma literalListTokens_head literals :
  exists rest, literalListTokens literals = mkToken TokenOBrack "[" 1 :: rest.
Proof.
  unfold literalListTokens.
  destruct (literalListLoop_prefix (length literals) 0 literals [mkToken TokenOBrack "[" 1])
    as [rest ->].
  by eexists.
Qed.

(** A value is quoted exactly when it is neither a Deferred Value nor a
    list of Deferred Values, and then it is a string. *)
Lemma valueTokens_quoted v ts :
  valueTokens v = Some ts ->
  ((exists s, ts = quotedTokens s) <->
   (FromCtyValue_Literal v = None /\ FromCtyValue_Literals v = None)).
Proof.
  unfold Terraform.valueTokens.
  destruct (FromCtyValue_Literal v) as [literal|].
  { intros [= <-]. split; [intros [s Hs]; discriminate Hs | intros [? _]; done]. }
  destruct (FromCtyValue_Literals v) as [literals|].
  { intros [= <-]. split; [|intros [_ ?]; done].
    intros [s Hs]. destruct (literalListTokens_head literals) as [rest Hrest].
    rewrite Hrest in Hs. discriminate Hs. }
  destruct v; try done. intros [= <-]. split; [done | by exists s].
Qed.

Lemma valueTokens_None v :
  valueTokens v = None <->
  (FromCtyValue_Literal v = None /\ FromCtyValue_Literals v = None /\ AsString v = None).
Proof.
  unfold Terraform.valueTokens.
  destruct (FromCtyValue_Literal v); [split; [done | intros [? _]; done]|].
  destruct (FromCtyValue_Literals v); [split; [done | intros (_ & ? & _); done]|].
  destruct v; simpl; split; try done; intros (_ & _ & ?); done.
Qed.

End MapBlockFacts.

End TerraformFacts.

(** * Facts about the writer into a buffer *)

Module TextFacts.
Import GoString GoStringFacts Terraform TerraformFacts.

(** One step of [append] on a string that starts with a known byte. *)
Ltac append_step :=
  repeat match goal with
  | |- context [String ?c ?s +:+ ?t] =>
      change (String c s +:+ t) with (String c (s +:+ t))
  | |- context [EmptyString +:+ ?t] => change (EmptyString +:+ t) with t
  end.

Lemma append_length s1 s2 :
  String.length (s1 +:+ s2) = (String.length s1 + String.length s2)%nat.
Proof. induction s1 as [|c s1 IH]; append_step; simpl; [done | by rewrite IH]. Qed.

Lemma append_assoc s1 s2 s3 : (s1 +:+ s2) +:+ s3 = s1 +:+ (s2 +:+ s3).
Proof. induction s1 as [|c s1 IH]; append_step; [done | by f_equal]. Qed.

Lemma append_nil_r s : s +:+ EmptyString = s.
Proof. induction s as [|c s IH]; append_step; [done | by f_equal]. Qed.

Lemma spaces_length n : String.length (spaces n) = n.
Proof. induction n as [|n IH]; simpl; [done | by rewrite IH]. Qed.

(** *** [quote] *)

Lemma unquoteRunes_quoteRunes s :
  unquoteRunes (quoteRunes s +:+ String dquoteChar EmptyString) = Some s.
Proof.
  induction s as [|r s IH]; simpl; [done|].
  destruct (Ascii.eqb r backslash) eqn:Hb; simpl.
  - apply Ascii.eqb_eq in Hb. subst r. simpl. by rewrite IH.
  - destruct (Ascii.eqb r dquoteChar) eqn:Hq; simpl.
    + by rewrite IH.
    + by rewrite Hq, Hb, IH.
Qed.

Lemma unquote_quote s : unquote (quote s) = Some s.
Proof. unfold unquote, quote. simpl. apply unquoteRunes_quoteRunes. Qed.

Lemma quoteRunes_length s :
  (String.length s <= String.length (quoteRunes s) <= 2 * String.length s)%nat.
Proof.
  induction s as [|r s IH]; simpl; [lia|].
  destruct (Ascii.eqb r backslash || Ascii.eqb r dquoteChar); simpl; lia.
Qed.

(** *** [writeMap] *)

Lemma widen_max acc kv : widen acc kv = Z.max acc (Z.of_nat (String.length (quote kv.1))).
Proof.
  unfold widen. cbv zeta.
  destruct (Z.ltb_spec acc (Z.of_nat (String.length (quote kv.1)))); lia.
Qed.

Ltac widen_cases := rewrite ?widen_max; lia.

Lemma fold_widen_le values acc : (acc <= fold_left widen values acc)%Z.
Proof.
  revert acc. induction values as [|kv values IH]; intros acc; cbn [fold_left]; [lia|].
  etrans; [|apply IH]. widen_cases.
Qed.

Lemma fold_widen_elem values acc kv :
  kv ∈ values -> (Z.of_nat (String.length (quote kv.1)) <= fold_left widen values acc)%Z.
Proof.
  revert acc. induction values as [|kv' values IH]; intros acc Hin; cbn [fold_left].
  - by apply elem_of_nil in Hin.
  - apply elem_of_cons in Hin as [->|Hin]; [|by apply IH].
    etrans; [|apply fold_widen_le]. widen_cases.
Qed.

Lemma fold_widen_Permutation values1 values2 acc :
  values1 ≡ₚ values2 -> fold_left widen values1 acc = fold_left widen values2 acc.
Proof.
  intros Hp. revert acc.
  induction Hp as [|x l1 l2 _ IH|x y l|l1 l2 l3 _ IH1 _ IH2]; intros acc; cbn [fold_left].
  - done.
  - apply IH.
  - f_equal. widen_cases.
  - by rewrite IH1.
Qed.

Lemma maxKeyLen_elem values k :
  k ∈ map fst values -> (Z.of_nat (String.length (quote k)) <= maxKeyLen values)%Z.
Proof.
  intros Hk. apply list_elem_of_fmap in Hk as (kv & -> & Hkv).
  by apply (fold_widen_elem values 0 kv).
Qed.

Lemma maxKeyLen_Permutation values1 values2 :
  values1 ≡ₚ values2 -> maxKeyLen values1 = maxKeyLen values2.
Proof. apply fold_widen_Permutation. Qed.

Lemma writeMapLine_mapLine indent width values buf k :
  writeMapLine indent width values buf k =
  if hasLiteral values k
  then Some (buf +:+ mapLines indent width values [k])
  else None.
Proof.
  unfold writeMapLine, hasLiteral. simpl.
  destruct (lookupKey k values) as [[literal|]|]; try done.
  unfold writeIndent, mapLine. f_equal.
  by rewrite append_nil_r, !append_assoc.
Qed.

Lemma mapLines_app indent width values keys1 keys2 :
  mapLines indent width values (keys1 ++ keys2) =
  mapLines indent width values keys1 +:+ mapLines indent width values keys2.
Proof.
  induction keys1 as [|k keys1 IH]; simpl; [done|]. by rewrite IH, append_assoc.
Qed.

Lemma foldM_writeMapLine indent width values keys buf :
  foldM (writeMapLine indent width values) keys buf =
  if forallb (hasLiteral values) keys
  then Some (buf +:+ mapLines indent width values keys)
  else None.
Proof.
  revert buf. induction keys as [|k keys IH]; intros buf; simpl.
  - by rewrite append_nil_r.
  - rewrite writeMapLine_mapLine. destruct (hasLiteral values k); simpl; [|done].
    rewrite IH. destruct (forallb (hasLiteral values) keys); [|done].
    f_equal. simpl. by rewrite append_nil_r, !append_assoc.
Qed.

Lemma hasLiteral_all values :
  Forall (fun kv => kv.2 <> None) values ->
  forall k, k ∈ map fst values -> hasLiteral values k = true.
Proof.
  intros Hall k Hk. unfold hasLiteral.
  destruct (lookupKey_elem_of_keys k values Hk) as [v Hv]. rewrite Hv.
  apply lookupKey_Some_elem in Hv.
  rewrite Forall_forall in Hall. specialize (Hall _ Hv). by destruct v.
Qed.

Lemma forallb_hasLiteral_false values :
  NoDup (map fst values) ->
  forallb (hasLiteral values) (sortStrings (map fst values)) = false <->
  exists k, (k, None) ∈ values.
Proof.
  intros Hnd. split.
  - intros H. apply not_true_iff_false in H.
    destruct (decide (Exists (fun kv => kv.2 = None) values)) as [Hex|Hno].
    + apply Exists_exists in Hex as ([k v] & Hin & Hv). simpl in Hv. subst v. by exists k.
    + exfalso. apply H. apply forallb_forall. intros k Hk.
      apply list_elem_of_In in Hk. apply (proj1 (elem_of_sortStrings _ _)) in Hk.
      apply hasLiteral_all; [|done].
      apply Forall_forall. intros kv Hkv Hnone. apply Hno.
      apply Exists_exists. by exists kv.
  - intros [k Hk]. apply not_true_iff_false. intros H.
    rewrite forallb_forall in H. specialize (H k).
    unfold hasLiteral in H. rewrite (elem_lookupKey k None values Hnd Hk) in H.
    assert (false = true); [|done]. apply H.
    apply list_elem_of_In. apply (proj2 (elem_of_sortStrings _ _)).
    apply list_elem_of_fmap. by exists (k, None).
Qed.

End TextFacts.

(** * Facts about lists and blocks *)

Module ListFacts.
Import GoString GoStringFacts Terraform TerraformFacts.

Lemma literalListLoop_commaSeparated n i literals tokens :
  (i + length literals = n)%nat ->
  literalListLoop n i literals tokens = tokens ++ commaSeparated literals.
Proof.
  revert i tokens. induction literals as [|literal rest IH]; intros i tokens Hn.
  - simpl. by rewrite app_nil_r.
  - cbn [literalListLoop]. cbv zeta. rewrite IH by (simpl in Hn; lia).
    destruct rest as [|literal' rest].
    + simpl in Hn. destruct (Z.ltb_spec (Z.of_nat i) (Z.of_nat n - 1)); [lia|].
      simpl. by rewrite app_nil_r.
    + simpl in Hn. destruct (Z.ltb_spec (Z.of_nat i) (Z.of_nat n - 1)); [|lia].
      cbn [commaSeparated]. by rewrite <- !app_assoc.
Qed.

Section Blocks.
Variable FromCtyValue_Literal : Value -> option Literal.
Variable FromCtyValue_Literals : Value -> option (list Literal).
Variable TokensForValue : Value -> Tokens.

Let objectBody := objectBody FromCtyValue_Literal FromCtyValue_Literals TokensForValue.

(** The loop of [writeValue] over a list of objects. *)
Lemma foldM_blocks key elems body :
  foldM (fun body v =>
      match v with
      | VObject attrs =>
          match writeAttributes
                  (writeValue FromCtyValue_Literal FromCtyValue_Literals TokensForValue)
                  attrs with
          | Some childBody => Some (AppendBlock body key childBody)
          | None => None
          end
      | _ => None
      end) elems body =
  match mapM objectBody elems with
  | Some children => Some (body ++ map (Block key) children)
  | None => None
  end.
Proof.
  revert body. induction elems as [|v elems IH]; intros body.
  - simpl. by rewrite app_nil_r.
  - cbn [foldM mapM]. unfold mbind, option_bind.
    assert (Hv : objectBody v =
                 match v with
                 | VObject attrs =>
                     writeAttributes
                       (writeValue FromCtyValue_Literal FromCtyValue_Literals TokensForValue)
                       attrs
                 | _ => None
                 end) by done.
    destruct v; try (by rewrite Hv).
    rewrite Hv. destruct (writeAttributes _ attrs) as [child|]; [|done].
    fold (mapM objectBody elems).
    specialize (IH (AppendBlock body key child)).
    change (foldM ?f elems (AppendBlock body key child)) with
      (foldM f elems (AppendBlock body key child)) in IH.
    etrans; [exact IH|].
    destruct (mapM objectBody elems) as [children|]; [|done].
    simpl. unfold AppendBlock. by rewrite <- app_assoc.
Qed.

(** [writeValue] on a list, by the equation of its definition. *)
Lemma writeValue_VList body key elems :
  writeValue FromCtyValue_Literal FromCtyValue_Literals TokensForValue body key (VList elems) =
  if (length elems =? 0)%nat then Some body
  else
    let literals := omap FromCtyValue_Literal elems in
    if (0 <? length literals)%nat then Some (writeLiteralList body key literals)
    else
      match elems with
      | [] => Some body
      | firstElement :: _ =>
          if IsObjectType firstElement then
            match mapM objectBody elems with
            | Some children => Some (body ++ map (Block key) children)
            | None => None
            end
          else Some (SetAttributeValue TokensForValue body key (VList elems))
      end.
Proof.
  rewrite <- foldM_blocks. reflexivity.
Qed.

End Blocks.

End ListFacts.

(** * Facts about the options builder of the cluster autoscaler *)

Module ComponentsFacts.
Import Awstasks Components.

Section Builder.
Variable ParseKubernetesVersion : string -> option Version.

Lemma orDefault_idempotent {A : Type} (p : option A) (d : A) :
  orDefault (orDefault p d) d = orDefault p d.
Proof. by destruct p. Qed.

Lemma buildCAS_idempotent (version : string) (cas : ClusterAutoscalerConfig) :
  buildCAS ParseKubernetesVersion version (buildCAS ParseKubernetesVersion version cas)
  = buildCAS ParseKubernetesVersion version cas.
Proof.
  unfold buildCAS. cbn [Enabled Image Expander ScaleDownUtilizationThreshold
    SkipNodesWithLocalStorage SkipNodesWithSystemPods BalanceSimilarNodeGroups
    AWSUseStaticInstanceList NewPodScaleUpDelay ScaleDownDelayAfterAdd
    ScaleDownUnneededTime ScaleDownUnreadyTime MaxNodeProvisionTime AutoDiscovery].
  rewrite !orDefault_idempotent.
  f_equal.
  - by destruct (Image cas).
  - destruct (String.eqb (MaxNodeProvisionTime cas) EmptyString) eqn:Hempty; [done|].
    by rewrite Hempty.
Qed.

Lemma complete_buildCAS (version : string) (cas : ClusterAutoscalerConfig) :
  buildCAS ParseKubernetesVersion version cas = cas <-> complete cas = true.
Proof.
  destruct cas as [enabled image expander threshold localStorage systemPods balance
                   staticList scaleUp afterAdd unneeded unready provision discovery].
  unfold buildCAS, complete. simpl. split.
  - intros [= Himage Hexpander Hthreshold HlocalStorage HsystemPods Hbalance HstaticList
              HscaleUp HafterAdd Hunneeded Hunready Hprovision Hdiscovery].
    destruct image, expander, threshold, localStorage, systemPods, balance, staticList,
      scaleUp, afterAdd, unneeded, unready, discovery; try discriminate; simpl.
    destruct (String.eqb provision EmptyString) eqn:Hempty; [|done].
    apply String.eqb_eq in Hempty. by subst provision.
  - intros H.
    repeat match type of H with
           | (_ && _ = true) => let H' := fresh in apply andb_prop in H as [H H']
           end.
    destruct image, expander, threshold, localStorage, systemPods, balance, staticList,
      scaleUp, afterAdd, unneeded, unready, discovery; try discriminate; simpl in *.
    by destruct (String.eqb provision EmptyString).
Qed.

End Builder.

End ComponentsFacts.

(** * Facts about the classic load balancer task *)

Module AwstasksFacts.
Import GoString GoStringFacts Awstasks.

(** *** [sort.Stable] by a string key *)

Section StableSortFacts.
Context {A : Type} (key : A -> string).

Let less (a b : A) : bool := String.ltb (key a) (key b).
Let ordered (a b : A) : Prop := GoString.le (key a) (key b).

Lemma less_false_ordered a b : less a b = false -> ordered b a.
Proof.
  intros H. apply not_lt_le. unfold GoString.lt. unfold less in H. congruence.
Qed.

Lemma less_true_ordered a b : less a b = true -> ordered a b.
Proof. intros H. by apply lt_le. Qed.

Lemma ordered_not_less a b : ordered a b -> less b a = false.
Proof.
  intros H. destruct (less b a) eqn:Hl; [|done].
  exfalso. by apply (lt_not_le (key b) (key a)).
Qed.

Lemma ordered_trans a b c : ordered a b -> ordered b c -> ordered a c.
Proof. unfold ordered. apply le_trans. Qed.

Lemma stableInsert_Permutation x l : stableInsert less x l ≡ₚ x :: l.
Proof.
  induction l as [|y l IH]; simpl; [done|].
  destruct (less y x); [|done]. rewrite IH. apply perm_swap.
Qed.

Lemma stableInsert_sorted x l :
  StronglySorted ordered l -> StronglySorted ordered (stableInsert less x l).
Proof.
  induction 1 as [|y l Hl IH Hy]; simpl.
  - repeat constructor.
  - destruct (less y x) eqn:Hyx.
    + constructor; [done|].
      rewrite stableInsert_Permutation. constructor; [|done].
      by apply less_true_ordered.
    + apply less_false_ordered in Hyx.
      constructor; [by constructor|]. constructor; [done|].
      eapply Forall_impl; [exact Hy|]. intros z Hz. by eapply ordered_trans.
Qed.

Lemma stableSort_sorted l : StronglySorted ordered (stableSort less l).
Proof.
  induction l as [|x l IH]; simpl; [constructor|]. by apply stableInsert_sorted.
Qed.

(** A slice in order is left as it is. *)
Lemma stableSort_fixed l : StronglySorted ordered l -> stableSort less l = l.
Proof.
  induction 1 as [|x l Hl IH Hx]; simpl; [done|].
  rewrite IH. destruct Hx as [|y l' Hxy _]; simpl; [done|].
  by rewrite (ordered_not_less _ _ Hxy).
Qed.

Lemma stableSort_idempotent l : stableSort less (stableSort less l) = stableSort less l.
Proof. apply stableSort_fixed, stableSort_sorted. Qed.

Lemma sortSlice_idempotent s : sortSlice less (sortSlice less s) = sortSlice less s.
Proof. destruct s as [l|]; simpl; [|done]. by rewrite stableSort_idempotent. Qed.

End StableSortFacts.

(** *** [CheckChanges] *)

Ltac split_matches :=
  repeat match goal with
    | |- context [match ?x with _ => _ end] =>
        lazymatch x with
        | context [match _ with _ => _ end] => fail
        | _ => destruct x eqn:?; simpl
        end
    end.

Ltac missing_field :=
  repeat match goal with
    | H : (_ =? _)%nat = true |- _ => apply Nat.eqb_eq in H
    | H : String.eqb _ _ = true |- _ => apply String.eqb_eq in H
    | H : _ && _ = true |- _ => apply andb_prop in H; destruct H
    end;
  first [ discriminate
        | subst; eexists; split; [reflexivity|]; econstructor; eauto ].

Lemma CheckChanges_Some_Missing e changes err :
  CheckChanges None e changes = Some err ->
  exists field, err = RequiredField field /\ Missing e field.
Proof.
  unfold CheckChanges, isNil.
  destruct (String.eqb (ToString (Name e)) EmptyString) eqn:Hname.
  { intros [= <-]. missing_field. }
  destruct (ValueOfBool (Shared e)) eqn:Hshared; simpl.
  - split_matches; intros [= <-]; missing_field.
  - destruct (len (SecurityGroups e) =? 0)%nat eqn:Hsg; simpl.
    { intros [= <-]. missing_field. }
    destruct (len (Subnets e) =? 0)%nat eqn:Hsn; simpl.
    { intros [= <-]. missing_field. }
    split_matches; intros [= <-]; missing_field.
Qed.

Lemma Missing_CheckChanges e changes field :
  Missing e field -> CheckChanges None e changes <> None.
Proof.
  intros H. unfold CheckChanges, isNil.
  destruct (String.eqb (ToString (Name e)) EmptyString) eqn:Hname; [done|].
  destruct H as [Hn | Hs Hl | Hs Hl | al Hal Hen | al Hal Hen Hb | cd Hcd Hen | cz Hcz Hen].
  - apply String.eqb_neq in Hname. done.
  - rewrite Hs, Hl. done.
  - rewrite Hs, Hl. simpl. by destruct (len (SecurityGroups e) =? 0)%nat.
  - rewrite Hal, Hen. split_matches; done.
  - rewrite Hal, Hen, Hb. split_matches; done.
  - rewrite Hcd, Hen. split_matches; done.
  - rewrite Hcz, Hen. split_matches; done.
Qed.

Lemma CheckChanges_None_iff e changes :
  CheckChanges None e changes = None <-> forall field, ~ Missing e field.
Proof.
  split.
  - intros H field Hm. by apply (Missing_CheckChanges e changes field).
  - intros H. destruct (CheckChanges None e changes) as [err|] eqn:Hc; [|done].
    destruct (CheckChanges_Some_Missing e changes err Hc) as (field & _ & Hm).
    by destruct (H field).
Qed.

(** *** Discovery *)

Section DiscoveryFacts.
Context {World : Type} (cloud : AWSCloud World).

(** An error of a listing comes back wrapped by [fmt.Errorf]. *)
Lemma describePages_Err pages filter found err :
  describePages pages filter found = Err err ->
  exists inner, err = ErrorfW "error listing ELBs: %w" inner /\ Err inner ∈ pages.
Proof.
  revert found. induction pages as [|[output|inner] pages IH]; intros found; simpl.
  - done.
  - intros H. destruct (IH _ H) as (inner & -> & Hin). exists inner. split; [done|by right].
  - intros [= <-]. exists inner. split; [done|left].
Qed.

End DiscoveryFacts.

(** *** The calls of a render *)

Section RenderFacts.
Context {World : Type} (cloud : AWSCloud World).

Local Abbreviation adds := (@Awstasks.adds World _).

Lemma adds_ret {A} P (a : A) : adds P (ret a).
Proof. intros s. exists []. by rewrite app_nil_r. Qed.

Lemma adds_fail {A} P err : adds P (fail (A := A) err).
Proof. intros s. exists []. by rewrite app_nil_r. Qed.

Lemma adds_lift {A} P (r : result A) : adds P (lift r).
Proof. intros s. exists []. by rewrite app_nil_r. Qed.

Lemma adds_assign P f : adds P (assign f).
Proof. intros s. exists []. by rewrite app_nil_r. Qed.

Lemma adds_requery P name : adds P (requery cloud name).
Proof. intros s. exists []. by rewrite app_nil_r. Qed.

Lemma adds_call P c wrap : P c -> adds P (call cloud c wrap).
Proof.
  intros Hc s. exists [c]. unfold call.
  destruct (mutate cloud c (world s)) as [[x|err] w']; simpl; by repeat constructor.
Qed.

Lemma adds_callIgnored P c : P c -> adds P (callIgnored cloud c).
Proof.
  intros Hc s. exists [c]. unfold callIgnored.
  destruct (mutate cloud c (world s)) as [r w']; simpl; by repeat constructor.
Qed.

Lemma adds_bind {A B} P (m : M A) (f : A -> M B) :
  adds P m -> (forall a, adds P (f a)) -> adds P (bind m f).
Proof.
  intros Hm Hf s. unfold bind.
  destruct (Hm s) as (cs1 & Hcs1 & HP1).
  destruct (m s) as [[a|err] s1]; simpl in *.
  - destruct (Hf a s1) as (cs2 & Hcs2 & HP2).
    exists (cs1 ++ cs2). rewrite Hcs2, Hcs1, app_assoc. split; [done|].
    by apply Forall_app.
  - by exists cs1.
Qed.

Lemma adds_when P b m : (b = true -> adds P m) -> adds P (when b m).
Proof. destruct b; simpl; [by intros H; apply H | intros _; apply adds_ret]. Qed.

Ltac other_call := repeat split; intros ? [=].

Lemma adds_renderCreate e : adds (plannedCall None e) (renderCreate cloud e).
Proof.
  unfold renderCreate. destruct (LoadBalancerName e) as [name|]; [|apply adds_fail].
  unfold mbind, M_bind.
  apply adds_bind; [apply adds_lift|intros listeners].
  apply adds_bind; [apply adds_call; other_call|intros response].
  apply adds_bind; [apply adds_assign|intros _].
  apply adds_bind; [apply adds_requery|intros [lb|]]; [|apply adds_fail].
  apply adds_bind; [apply adds_assign|intros _]. apply adds_ret.
Qed.

Lemma nonempty_length {A} (l : list A) : (0 <? length l)%nat = true -> l <> [].
Proof. by destruct l. Qed.

Lemma adds_renderSubnets name a e :
  adds (plannedCall (Some a) e) (renderSubnets cloud name a e).
Proof.
  unfold renderSubnets, mbind, M_bind.
  apply adds_bind; [|intros _].
  - apply adds_when. intros Hlen. apply adds_bind; [|intros _; apply adds_ret].
    apply adds_call. split; [|split]; [|intros ? [=]..].
    intros subnets [= <-]. exists a. repeat split. by apply nonempty_length.
  - apply adds_when. intros Hlen. apply adds_bind; [|intros _; apply adds_ret].
    apply adds_call. split; [|split]; [intros ? [=]| |intros ? [=]].
    intros subnets [= <-]. exists a. repeat split. by apply nonempty_length.
Qed.

Lemma adds_renderListeners name a e changes :
  adds (plannedCall a e) (renderListeners cloud name changes).
Proof.
  unfold renderListeners, mbind, M_bind.
  apply adds_bind; [|intros elbDescription].
  { intros s. exists []. rewrite app_nil_r.
    by destruct (findLoadBalancerByLoadBalancerName cloud (world s) name). }
  apply adds_bind; [|intros _].
  { apply adds_when. intros _. apply adds_callIgnored.
    split; [|split]; [intros ? [=]..|]. by intros ports [= <-]. }
  apply adds_bind; [apply adds_lift|intros listeners].
  apply adds_bind; [apply adds_call; other_call|intros _]. apply adds_ret.
Qed.

Lemma adds_renderUpdate a e changes :
  adds (plannedCall (Some a) e) (renderUpdate cloud a e changes).
Proof.
  unfold renderUpdate, mbind, M_bind.
  apply adds_bind; [|intros _].
  { apply adds_when. intros _. apply adds_renderSubnets. }
  apply adds_bind; [|intros _].
  { apply adds_when. intros _.
    apply adds_bind; [apply adds_call; other_call|intros _]. apply adds_ret. }
  apply adds_bind; [|intros _].
  { apply adds_when. intros _. apply adds_renderListeners. }
  apply adds_ret.
Qed.

Lemma adds_renderAWS a e changes :
  adds (plannedCall a e) (renderAWS cloud a e changes).
Proof.
  unfold renderAWS, mbind, M_bind.
  destruct (ValueOfBool (Shared e)); [apply adds_ret|].
  apply adds_bind; [|intros name].
  { destruct a as [a|]; [apply adds_renderUpdate | apply adds_renderCreate]. }
  apply adds_bind; [apply adds_call; other_call|intros _].
  apply adds_bind; [apply adds_call; other_call|intros _].
  apply adds_bind; [|intros _].
  { destruct (HealthCheck e) as [hc|]; [|apply adds_ret].
    apply adds_when. intros _.
    apply adds_bind; [apply adds_call; other_call|intros _]. apply adds_ret. }
  apply adds_bind; [apply adds_call; other_call|intros _]. apply adds_ret.
Qed.

(** Every call that [RenderAWS] has made is a planned one. *)
Lemma RenderAWS_calls w a e changes :
  Forall (plannedCall a e) (calls (RenderAWS cloud w a e changes).2).
Proof.
  unfold RenderAWS.
  destruct (adds_renderAWS a e changes (mkRenderState w [] e)) as (cs & Hcs & HP).
  destruct (renderAWS cloud a e changes (mkRenderState w [] e)) as [[u|err] s];
    simpl in *; by rewrite Hcs.
Qed.

(** The calls with which a computation starts stay in front. *)
Lemma bind_prefix {A B} P (m : M A) (f : A -> M B) s pre :
  (exists rest, calls (m s).2 = pre ++ rest) -> (forall a, adds P (f a)) ->
  exists rest, calls (bind m f s).2 = pre ++ rest.
Proof.
  intros [rest Hm] Hf. unfold bind. destruct (m s) as [[a|err] s1]; simpl in *.
  - destruct (Hf a s1) as (cs & Hcs & _). exists (rest ++ cs).
    by rewrite Hcs, Hm, app_assoc.
  - by exists rest.
Qed.

Lemma renderSubnets_calls name a e s :
  calls (renderSubnets cloud name a e s).2 =
  calls s ++ subnetCalls cloud (world s) name (subnetIDs (Subnets a)) (subnetIDs (Subnets e)).
Proof.
  unfold renderSubnets, subnetCalls, GetUniqueStrings, mbind, M_bind, bind, when, call, ret.
  destruct (0 <? length (List.filter _ (subnetIDs (Subnets a))))%nat; simpl.
  - destruct (mutate cloud _ (world s)) as [[x|err] w1]; simpl.
    + destruct (0 <? length (List.filter _ (subnetIDs (Subnets e))))%nat; simpl.
      * destruct (mutate cloud _ w1) as [[y|err] w2]; simpl; by rewrite <- app_assoc.
      * done.
    + by rewrite andb_false_r.
  - destruct (0 <? length (List.filter _ (subnetIDs (Subnets e))))%nat; simpl.
    + destruct (mutate cloud _ (world s)) as [[y|err] w2]; simpl; done.
    + by rewrite app_nil_r.
Qed.

(** An update of a task that is not shared and whose subnets changed starts
    with the subnet calls. *)
Lemma RenderAWS_subnet_calls w a e changes :
  ValueOfBool (Shared e) = false -> Subnets changes <> None ->
  exists rest,
    calls (RenderAWS cloud w (Some a) e changes).2 =
    subnetCalls cloud w (ToString (LoadBalancerName a))
      (subnetIDs (Subnets a)) (subnetIDs (Subnets e)) ++ rest.
Proof.
  intros Hshared Hchanged.
  assert (H : exists rest,
    calls (renderAWS cloud (Some a) e changes (mkRenderState w [] e)).2 =
    subnetCalls cloud w (ToString (LoadBalancerName a))
      (subnetIDs (Subnets a)) (subnetIDs (Subnets e)) ++ rest).
  { unfold renderAWS. rewrite Hshared. unfold mbind, M_bind.
    apply (bind_prefix (plannedCall (Some a) e)).
    - unfold renderUpdate, mbind, M_bind.
      apply (bind_prefix (plannedCall (Some a) e)).
      + destruct (Subnets changes); [|done]. simpl.
        exists []. by rewrite renderSubnets_calls, app_nil_r.
      + intros _. apply adds_bind; [|intros _].
        { apply adds_when. intros _.
          apply adds_bind; [apply adds_call; other_call|intros _]. apply adds_ret. }
        apply adds_bind; [|intros _; apply adds_ret].
        apply adds_when. intros _. apply adds_renderListeners.
    - intros name.
      apply adds_bind; [apply adds_call; other_call|intros _].
      apply adds_bind; [apply adds_call; other_call|intros _].
      apply adds_bind; [|intros _].
      { destruct (HealthCheck e) as [hc|]; [|apply adds_ret].
        apply adds_when. intros _.
        apply adds_bind; [apply adds_call; other_call|intros _]. apply adds_ret. }
      apply adds_bind; [apply adds_call; other_call|intros _]. apply adds_ret. }
  unfold RenderAWS.
  destruct (renderAWS cloud (Some a) e changes (mkRenderState w [] e)) as [[u|err] s];
    exact H.
Qed.

(** A shared task: no call, the remote side and the task as they were. *)
Lemma RenderAWS_shared w a e changes :
  ValueOfBool (Shared e) = true ->
  RenderAWS cloud w a e changes = (None, mkRenderState w [] e).
Proof. intros H. unfold RenderAWS, renderAWS. by rewrite H. Qed.

End RenderFacts.

End AwstasksFacts.

(** * Further facts about the classic load balancer task *)

Module AwstasksMoreFacts.
Import GoString GoStringFacts Awstasks AwstasksFacts.

(** *** Discovery *)

Section DiscoveryMore.
Context {World : Type} (cloud : AWSCloud World).

(** A listing that does not fail has read every page. *)
Lemma describePages_Ok pages filter found out :
  describePages pages filter found = Ok out ->
  exists oks, pages = map Ok oks /\ out = found ++ List.filter filter (concat oks).
Proof.
  revert found. induction pages as [|[output|inner] pages IH]; intros found; simpl.
  - intros [= <-]. exists []. by rewrite app_nil_r.
  - intros H. destruct (IH _ H) as (oks & -> & ->). exists (output :: oks).
    split; [done|]. simpl. by rewrite List.filter_app, app_assoc.
  - done.
Qed.

Lemma describeLoadBalancers_Ok w request filter out :
  describeLoadBalancers cloud w request filter = Ok out ->
  exists oks, DescribeLoadBalancers cloud request w = map Ok oks /\
              out = List.filter filter (concat oks).
Proof. unfold describeLoadBalancers. intros H. by apply describePages_Ok in H. Qed.

(** The one load balancer of a lookup passes the filter and is on a page. *)
Lemma found_one w request filter out lb :
  describeLoadBalancers cloud w request filter = Ok out ->
  (if (length out =? 0)%nat then Ok None
   else if negb (length out =? 1)%nat then Err (Errorf EmptyString)
   else Ok (head out)) = Ok (Some lb) ->
  filter lb = true /\
  exists page, Ok page ∈ DescribeLoadBalancers cloud request w /\ lb ∈ page.
Proof.
  intros Hout Hone. destruct out as [|lb' [|? ?]]; try done.
  simpl in Hone. injection Hone as ->.
  destruct (describeLoadBalancers_Ok _ _ _ _ Hout) as (oks & Hpages & Hfound).
  assert (Hin : In lb (List.filter filter (concat oks))) by (rewrite <- Hfound; by left).
  apply List.filter_In in Hin as [Hin Hf]. split; [done|].
  apply in_concat in Hin as (page & Hpage & Hlb).
  exists page. split; [|by apply list_elem_of_In].
  rewrite Hpages. apply list_elem_of_fmap. exists page. split; [done|].
  by apply list_elem_of_In.
Qed.

End DiscoveryMore.

(** *** [Find] *)

Lemma elem_of_mapInsert {V : Type} (k k0 : string) (v v0 : V) m :
  (k, v) ∈ mapInsert k0 v0 m -> (k, v) = (k0, v0) \/ (k, v) ∈ m.
Proof.
  induction m as [|[k' v'] m IH]; simpl.
  - intros H. apply list_elem_of_singleton in H. by left.
  - destruct (String.eqb k' k0).
    + intros H. apply elem_of_cons in H as [H|H]; [by left | right; by right].
    + intros H. apply elem_of_cons in H as [H|H]; [right; rewrite H; left|].
      destruct (IH H) as [?|?]; [by left | right; by right].
Qed.

(** The tags that the snapshot keeps. *)
Lemma snapshot_tags (tags : list Tag) (m : list (string * string)) k v :
  (k, v) ∈ fold_left (fun m tag =>
               if HasPrefix (ToString (Tag_Key tag)) "aws:cloudformation:" then m
               else mapInsert (ToString (Tag_Key tag)) (ToString (Tag_Value tag)) m)
             tags m ->
  (k, v) ∈ m \/
  (HasPrefix k "aws:cloudformation:" = false /\
   exists tag, tag ∈ tags /\ ToString (Tag_Key tag) = k /\ ToString (Tag_Value tag) = v).
Proof.
  revert m. induction tags as [|tag tags IH]; intros m; cbn [fold_left]; [by left|].
  intros H. apply IH in H as [H|(Hp & tag' & Hin & Hk & Hv)].
  - destruct (HasPrefix (ToString (Tag_Key tag)) "aws:cloudformation:") eqn:Hprefix;
      [by left|].
    apply elem_of_mapInsert in H as [[= -> ->]|H]; [|by left].
    right. split; [done|]. exists tag. split; [left | done].
  - right. split; [done|]. exists tag'. split; [by right | done].
Qed.

Lemma Normalize_fixed (e : ClassicLoadBalancer) :
  Normalize (Normalize e).1 = ((Normalize e).1, None).
Proof.
  unfold Normalize. simpl. f_equal.
  unfold setSecurityGroups, setSubnets. simpl.
  rewrite (sortSlice_idempotent (fun s => ToString (Subnet_ID s))).
  rewrite (sortSlice_idempotent (fun sg => ToString (SecurityGroup_ID sg))).
  reflexivity.
Qed.

Section FindMore.
Context {World : Type} (cloud : AWSCloud World).
Variable subnetSlicesEqualIgnoreOrder : slice Subnet -> slice Subnet -> bool.

(** What [Find] has read when it returns a snapshot. *)
Lemma Find_Done w e actual :
  (Find cloud subnetSlicesEqualIgnoreOrder w e).2 = Done (Some actual) ->
  exists lb lbName tagMap eName healthcheck lbAttributes,
    FindELBByNameTag cloud (ToString (Name e)) w = Ok (Some lb) /\
    LBD_LoadBalancerName lb = Some lbName /\
    DescribeELBTags cloud [lbName] w = Ok tagMap /\
    LoadBalancerName e = Some eName /\
    findHealthCheck cloud lb = Ok healthcheck /\
    findELBAttributes cloud lbName w = Ok lbAttributes /\
    Find cloud subnetSlicesEqualIgnoreOrder w e =
    (let (e', actual') :=
       reconcile subnetSlicesEqualIgnoreOrder e
         (snapshot e lb (ValueOf [] (mapLookup eName tagMap)) healthcheck lbAttributes) in
     (e', Done (Some actual'))).
Proof.
  unfold Find.
  destruct (FindELBByNameTag cloud (ToString (Name e)) w) as [[lb|]|err] eqn:Hlb; try done.
  destruct (LBD_LoadBalancerName lb) as [lbName|] eqn:HlbName; [|done].
  destruct (DescribeELBTags cloud [lbName] w) as [tagMap|err] eqn:Htags; [|done].
  destruct (LoadBalancerName e) as [eName|] eqn:HeName; [|done].
  destruct (findHealthCheck cloud lb) as [healthcheck|err] eqn:Hhc; [|done].
  cbn [ToString ValueOf].
  destruct (findELBAttributes cloud lbName w) as [lbAttributes|err] eqn:Hattrs; [|done].
  intros _. exists lb, lbName, tagMap, eName, healthcheck, lbAttributes.
  repeat split; done.
Qed.

End FindMore.

(** *** [strconv.ParseInt] and the listeners *)


Lemma ParseInt_64_wide s v :
  ParseInt s 64 = Some v -> ParseInt s 32 = None -> int32 v <> v.
Proof.
  unfold ParseInt. destruct s as [|c rest]; [done|].
  destruct (if Ascii.eqb c "+" then (false, rest)
            else if Ascii.eqb c "-" then (true, rest) else (false, String c rest))
    as [neg digits].
  destruct digits as [|d digits]; [done|].
  destruct (parseDigits (String d digits) 0) as [n|]; [|done].
  change (2 ^ (32 - 1))%Z with 2147483648%Z.
  change (2 ^ (64 - 1))%Z with 9223372036854775808%Z.
  set (value := if neg then (- n)%Z else n).
  destruct (_ && _); [|done]. intros [= <-].
  destruct (_ && _) eqn:Hrange; [done|]. intros _.
  apply andb_false_iff in Hrange. rewrite !Z.leb_gt in Hrange.
  unfold int32.
  change (2 ^ 31)%Z with 2147483648%Z. change (2 ^ 32)%Z with 4294967296%Z.
  pose proof (Z.mod_pos_bound (value + 2147483648) 4294967296 ltac:(lia)).
  lia.
Qed.


Lemma listenersToAWS_narrow listeners acc port listener :
  (port, listener) ∈ listeners -> ParseInt port 32 = None ->
  succeeded (listenersToAWS listeners acc) = false.
Proof.
  revert acc. induction listeners as [|[port' listener'] listeners IH]; intros acc Hin Hport.
  - by apply elem_of_nil in Hin.
  - simpl. apply elem_of_cons in Hin as [[= <- <-]|Hin].
    + by rewrite Hport.
    + destruct (ParseInt port' 32); [|done]. by apply IH.
Qed.

Lemma listenersToTerraform_wide listeners acc :
  Forall (fun kv => ParseInt kv.1 64 <> None) listeners ->
  exists outT,
    listenersToTerraform listeners acc = Ok (acc ++ outT) /\
    forall port listener v,
      (port, listener) ∈ listeners -> ParseInt port 64 = Some v ->
      exists t, t ∈ outT /\ tf_LBPort t = int32 v /\
                tf_InstancePort t = Listener_InstancePort listener.
Proof.
  intros Hall. revert acc.
  induction Hall as [|[port' listener'] listeners Hport' _ IH]; intros acc.
  - exists []. rewrite app_nil_r. split; [done|]. intros ? ? ? Hin. by apply elem_of_nil in Hin.
  - simpl in *. destruct (ParseInt port' 64) as [v'|] eqn:Hv'; [|done].
    destruct (IH (acc ++ [
      if negb (String.eqb (Listener_SSLCertificateID listener') EmptyString)
      then mkTfListener (Listener_InstancePort listener') "SSL" (int32 v') "SSL"
             (Some (Listener_SSLCertificateID listener'))
      else mkTfListener (Listener_InstancePort listener') "TCP" (int32 v') "TCP" None]))
      as (outT & HT & Hports).
    eexists (_ :: outT). rewrite <- app_assoc in HT. split; [exact HT|].
    intros port listener v Hin Hv. apply elem_of_cons in Hin as [[= -> ->]|Hin].
    + eexists. split; [left|]. rewrite Hv' in Hv. injection Hv as ->.
      by destruct (negb (String.eqb (Listener_SSLCertificateID listener') EmptyString)).
    + destruct (Hports port listener v Hin Hv) as (t & Ht & ?). exists t. split; [by right|done].
Qed.

(** *** [sort.Stable] keeps the elements *)

Lemma stableSort_Permutation {A : Type} (key : A -> string) (l : list A) :
  stableSort (fun a b => String.ltb (key a) (key b)) l ≡ₚ l.
Proof.
  induction l as [|x l IH]; simpl; [done|].
  rewrite (stableInsert_Permutation key). by rewrite IH.
Qed.

Lemma sortSlice_Permutation {A : Type} (key : A -> string) (s : slice A) :
  isNil (sortSlice (fun a b => String.ltb (key a) (key b)) s) = isNil s /\
  elems (sortSlice (fun a b => String.ltb (key a) (key b)) s) ≡ₚ elems s.
Proof.
  destruct s as [l|]; simpl; [|done]. split; [done|]. apply stableSort_Permutation.
Qed.

(** *** Go maps *)

Lemma mapLookup_mapInsert {V : Type} (k k' : string) (v : V) m :
  mapLookup k (mapInsert k' v m) = if String.eqb k' k then Some v else mapLookup k m.
Proof.
  induction m as [|[k0 v0] m IH]; simpl.
  - done.
  - destruct (String.eqb k0 k') eqn:H0; simpl.
    + apply String.eqb_eq in H0. subst k0. by destruct (String.eqb k' k).
    + rewrite IH. destruct (String.eqb k0 k) eqn:H1; [|done].
      apply String.eqb_eq in H1. subst k0. by rewrite String.eqb_sym, H0.
Qed.

Lemma mapLookup_None {V : Type} (k : string) (m : list (string * V)) :
  mapLookup k m = None <-> k ∉ map fst m.
Proof.
  induction m as [|[k0 v0] m IH]; simpl.
  - split; [intros _; apply not_elem_of_nil | done].
  - rewrite not_elem_of_cons. destruct (String.eqb k0 k) eqn:H0.
    + apply String.eqb_eq in H0. subst. split; [done | intros [? _]; done].
    + apply String.eqb_neq in H0. rewrite IH. split; [intros ?; split; congruence | tauto].
Qed.

(** Writing the entries of one map into another: a key of the first map
    gets its value there, another key keeps the value it had. *)
Lemma mapLookup_fold_other {V : Type} (k : string) (l m : list (string * V)) :
  mapLookup k l = None ->
  mapLookup k (fold_left (fun tags kv => mapInsert kv.1 kv.2 tags) l m) = mapLookup k m.
Proof.
  revert m. induction l as [|[k0 v0] l IH]; intros m; simpl; [done|].
  destruct (String.eqb k0 k) eqn:H0; [done|]. intros H.
  rewrite IH by done. by rewrite mapLookup_mapInsert, H0.
Qed.

Lemma mapLookup_fold {V : Type} (k : string) (v : V) (l m : list (string * V)) :
  NoDup (map fst l) -> mapLookup k l = Some v ->
  mapLookup k (fold_left (fun tags kv => mapInsert kv.1 kv.2 tags) l m) = Some v.
Proof.
  revert m. induction l as [|[k0 v0] l IH]; intros m Hnd; simpl; [done|].
  apply NoDup_cons in Hnd as [Hk0 Hnd].
  destruct (String.eqb k0 k) eqn:H0.
  - apply String.eqb_eq in H0. subst k0. intros [= ->].
    rewrite mapLookup_fold_other by (by apply mapLookup_None).
    by rewrite mapLookup_mapInsert, String.eqb_refl.
  - by apply IH.
Qed.

(** *** What a render writes to the desired task and what it returns *)

#[local] Instance sameButAddress_refl : Reflexive sameButAddress.
Proof. intros e. by destruct e. Qed.

#[local] Instance sameButAddress_trans : Transitive sameButAddress.
Proof.
  intros e1 e2 e3 H12 H23. unfold sameButAddress in *.
  rewrite H23, H12. by destruct e1, e3.
Qed.

Section RenderMore.
Context {World : Type} (cloud : AWSCloud World).

Local Abbreviation adds := (@Awstasks.adds World _).
Local Abbreviation writes := (@Awstasks.writes World _).
Local Abbreviation returns := (@Awstasks.returns World _).

Section Writes.
Context (R : ClassicLoadBalancer -> ClassicLoadBalancer -> Prop).
Context `{!Reflexive R, !Transitive R}.

Lemma writes_ret {A} (a : A) : writes R (ret a).
Proof. intros s. done. Qed.

Lemma writes_fail {A} err : writes R (fail (A := A) err).
Proof. intros s. done. Qed.

Lemma writes_lift {A} (r : result A) : writes R (lift r).
Proof. intros s. done. Qed.

Lemma writes_requery name : writes R (requery cloud name).
Proof. intros s. done. Qed.

Lemma writes_call c wrap : writes R (call cloud c wrap).
Proof.
  intros s. unfold call. by destruct (mutate cloud c (world s)) as [[x|err] w'].
Qed.

Lemma writes_callIgnored c : writes R (callIgnored cloud c).
Proof. intros s. unfold callIgnored. by destruct (mutate cloud c (world s)). Qed.

Lemma writes_assign f : (forall e, R e (f e)) -> writes R (assign f).
Proof. intros Hf s. apply Hf. Qed.

Lemma writes_bind {A B} (m : M A) (f : A -> M B) :
  writes R m -> (forall a, writes R (f a)) -> writes R (bind m f).
Proof.
  intros Hm Hf s. unfold bind. specialize (Hm s).
  destruct (m s) as [[a|err] s1]; simpl in *; [|done].
  etrans; [exact Hm | apply Hf].
Qed.

Lemma writes_when b m : (b = true -> writes R m) -> writes R (when b m).
Proof. destruct b; simpl; [by intros H; apply H | intros _; apply writes_ret]. Qed.

Lemma writes_renderSubnets name a e : writes R (renderSubnets cloud name a e).
Proof.
  unfold renderSubnets, mbind, M_bind.
  apply writes_bind; [|intros _];
    (apply writes_when; intros _;
     apply writes_bind; [apply writes_call | intros _; apply writes_ret]).
Qed.

Lemma writes_renderListeners name changes : writes R (renderListeners cloud name changes).
Proof.
  unfold renderListeners, mbind, M_bind.
  apply writes_bind; [|intros elbDescription].
  { intros s. by destruct (findLoadBalancerByLoadBalancerName cloud (world s) name). }
  apply writes_bind; [|intros _].
  { apply writes_when. intros _. apply writes_callIgnored. }
  apply writes_bind; [apply writes_lift|intros listeners].
  apply writes_bind; [apply writes_call|intros _]. apply writes_ret.
Qed.

Lemma writes_renderUpdate a e changes : writes R (renderUpdate cloud a e changes).
Proof.
  unfold renderUpdate, mbind, M_bind.
  apply writes_bind; [|intros _].
  { apply writes_when. intros _. apply writes_renderSubnets. }
  apply writes_bind; [|intros _].
  { apply writes_when. intros _.
    apply writes_bind; [apply writes_call|intros _]. apply writes_ret. }
  apply writes_bind; [|intros _].
  { apply writes_when. intros _. apply writes_renderListeners. }
  apply writes_ret.
Qed.

(** The end of [RenderAWS], from the tags on. *)
Lemma writes_finish a e changes name :
  writes R
    (bind (call cloud (AddELBTagsCall name (Tags e)) id) (fun _ =>
     bind (call cloud (RemoveELBTagsCall name (Tags e)) id) (fun _ =>
     bind (match HealthCheck e with
           | Some healthCheck =>
               when (negb (isNil (HealthCheck changes)))
                 (bind (call cloud (ConfigureHealthCheckCall name healthCheck)
                          (ErrorfV "error configuring health checks on ELB: %v"))
                    (fun _ => ret tt))
           | None => ret tt
           end) (fun _ =>
     bind (call cloud (ModifyLoadBalancerAttributesCall a e changes) id) (fun _ =>
     ret tt))))).
Proof.
  apply writes_bind; [apply writes_call|intros _].
  apply writes_bind; [apply writes_call|intros _].
  apply writes_bind; [|intros _].
  { destruct (HealthCheck e) as [hc|]; [|apply writes_ret].
    apply writes_when. intros _.
    apply writes_bind; [apply writes_call|intros _]. apply writes_ret. }
  apply writes_bind; [apply writes_call|intros _]. apply writes_ret.
Qed.

End Writes.

Ltac writes_step lemma := apply lemma; try apply _.

Lemma writes_renderCreate e : writes sameButAddress (renderCreate cloud e).
Proof.
  unfold renderCreate. destruct (LoadBalancerName e) as [name|];
    [|writes_step writes_fail].
  unfold mbind, M_bind.
  writes_step writes_bind; [writes_step writes_lift | intros listeners].
  writes_step writes_bind; [writes_step writes_call | intros response].
  writes_step writes_bind; [|intros _].
  { writes_step writes_assign. intros e0. by destruct e0. }
  writes_step writes_bind; [writes_step writes_requery | intros [lb|]];
    [|writes_step writes_fail].
  writes_step writes_bind; [|intros _; writes_step writes_ret].
  writes_step writes_assign. intros e0. by destruct e0.
Qed.

Lemma writes_renderAWS_update a e changes :
  writes eq (renderAWS cloud (Some a) e changes).
Proof.
  unfold renderAWS. destruct (ValueOfBool (Shared e)); [writes_step writes_ret|].
  unfold mbind, M_bind.
  writes_step writes_bind; [writes_step writes_renderUpdate | intros name].
  writes_step writes_finish.
Qed.

Lemma writes_renderAWS a e changes :
  writes sameButAddress (renderAWS cloud a e changes).
Proof.
  unfold renderAWS. destruct (ValueOfBool (Shared e)); [writes_step writes_ret|].
  unfold mbind, M_bind.
  writes_step writes_bind; [|intros name; writes_step writes_finish].
  destruct a as [a|]; [writes_step writes_renderUpdate | apply writes_renderCreate].
Qed.

(** *** The name that the calls of a render carry *)

Lemma returns_ret {A} (Q : A -> Prop) a : Q a -> returns Q (ret a).
Proof. intros Ha s x [= <-]. done. Qed.

Lemma returns_fail {A} (Q : A -> Prop) err : returns Q (fail err).
Proof. intros s x [=]. Qed.

Lemma returns_bind {A B} (Q : B -> Prop) (m : M A) (f : A -> M B) :
  (forall a, returns Q (f a)) -> returns Q (bind m f).
Proof.
  intros Hf s x. unfold bind. destruct (m s) as [[a|err] s1]; [apply Hf | done].
Qed.

Lemma adds_bind_returns {A B} P (Q : A -> Prop) (m : M A) (f : A -> M B) :
  adds P m -> returns Q m -> (forall a, Q a -> adds P (f a)) -> adds P (bind m f).
Proof.
  intros Hm HQ Hf s. unfold bind.
  destruct (Hm s) as (cs1 & Hcs1 & HP1). specialize (HQ s).
  destruct (m s) as [[a|err] s1]; simpl in *.
  - destruct (Hf a (HQ a eq_refl) s1) as (cs2 & Hcs2 & HP2).
    exists (cs1 ++ cs2). rewrite Hcs2, Hcs1, app_assoc. split; [done|].
    by apply Forall_app.
  - by exists cs1.
Qed.

Lemma returns_renderCreate e :
  returns (fun name => name = ToString (LoadBalancerName e)) (renderCreate cloud e).
Proof.
  unfold renderCreate. destruct (LoadBalancerName e) as [name|]; [|apply returns_fail].
  unfold mbind, M_bind.
  apply returns_bind; intros listeners. apply returns_bind; intros response.
  apply returns_bind; intros _. apply returns_bind; intros [lb|]; [|apply returns_fail].
  apply returns_bind; intros _. by apply returns_ret.
Qed.

Lemma returns_renderUpdate a e changes :
  returns (fun name => name = ToString (LoadBalancerName a)) (renderUpdate cloud a e changes).
Proof.
  unfold renderUpdate, mbind, M_bind.
  do 3 (apply returns_bind; intros _). by apply returns_ret.
Qed.

Ltac names_it := intros ? [= <-]; reflexivity.

Lemma targets_renderCreate e :
  adds (targets (ToString (LoadBalancerName e))) (renderCreate cloud e).
Proof.
  unfold renderCreate. destruct (LoadBalancerName e) as [name|]; [|apply adds_fail].
  unfold mbind, M_bind.
  apply adds_bind; [apply adds_lift|intros listeners].
  apply adds_bind; [apply adds_call; names_it|intros response].
  apply adds_bind; [apply adds_assign|intros _].
  apply adds_bind; [apply adds_requery|intros [lb|]]; [|apply adds_fail].
  apply adds_bind; [apply adds_assign|intros _]. apply adds_ret.
Qed.

Lemma targets_renderUpdate a e changes :
  adds (targets (ToString (LoadBalancerName a))) (renderUpdate cloud a e changes).
Proof.
  unfold renderUpdate, mbind, M_bind.
  apply adds_bind; [|intros _].
  { apply adds_when. intros _. unfold renderSubnets, mbind, M_bind.
    apply adds_bind; [|intros _];
      (apply adds_when; intros _;
       apply adds_bind; [apply adds_call; names_it | intros _; apply adds_ret]). }
  apply adds_bind; [|intros _].
  { apply adds_when. intros _.
    apply adds_bind; [apply adds_call; names_it|intros _]. apply adds_ret. }
  apply adds_bind; [|intros _; apply adds_ret].
  apply adds_when. intros _. unfold renderListeners, mbind, M_bind.
  apply adds_bind; [|intros elbDescription].
  { intros s. exists []. rewrite app_nil_r.
    by destruct (findLoadBalancerByLoadBalancerName cloud (world s) _). }
  apply adds_bind; [|intros _].
  { apply adds_when. intros _. apply adds_callIgnored. names_it. }
  apply adds_bind; [apply adds_lift|intros listeners].
  apply adds_bind; [apply adds_call; names_it|intros _]. apply adds_ret.
Qed.

(** The end of [RenderAWS], from the tags on, carries the name it is
    given. *)
Lemma adds_finish (P : Call -> Prop) a e changes name :
  P (AddELBTagsCall name (Tags e)) -> P (RemoveELBTagsCall name (Tags e)) ->
  (forall hc, P (ConfigureHealthCheckCall name hc)) ->
  P (ModifyLoadBalancerAttributesCall a e changes) ->
  adds P
    (bind (call cloud (AddELBTagsCall name (Tags e)) id) (fun _ =>
     bind (call cloud (RemoveELBTagsCall name (Tags e)) id) (fun _ =>
     bind (match HealthCheck e with
           | Some healthCheck =>
               when (negb (isNil (HealthCheck changes)))
                 (bind (call cloud (ConfigureHealthCheckCall name healthCheck)
                          (ErrorfV "error configuring health checks on ELB: %v"))
                    (fun _ => ret tt))
           | None => ret tt
           end) (fun _ =>
     bind (call cloud (ModifyLoadBalancerAttributesCall a e changes) id) (fun _ =>
     ret tt))))).
Proof.
  intros Hadd Hremove Hconfigure Hmodify.
  apply adds_bind; [by apply adds_call|intros _].
  apply adds_bind; [by apply adds_call|intros _].
  apply adds_bind; [|intros _].
  { destruct (HealthCheck e) as [hc|]; [|apply adds_ret].
    apply adds_when. intros _.
    apply adds_bind; [by apply adds_call|intros _]. apply adds_ret. }
  apply adds_bind; [by apply adds_call|intros _]. apply adds_ret.
Qed.

Lemma targets_renderAWS a e changes :
  adds (targets (ToString (LoadBalancerName (ValueOf e a)))) (renderAWS cloud a e changes).
Proof.
  unfold renderAWS. destruct (ValueOfBool (Shared e)); [apply adds_ret|].
  unfold mbind, M_bind.
  apply (adds_bind_returns _ (fun name => name = ToString (LoadBalancerName (ValueOf e a)))).
  - destruct a as [a|]; [apply targets_renderUpdate | apply targets_renderCreate].
  - destruct a as [a|]; [apply returns_renderUpdate | apply returns_renderCreate].
  - intros name ->. apply adds_finish; try names_it. intros hc. names_it.
Qed.

(** *** The order of the calls *)

Lemma bind_run {A B} (m : M (World := World) A) (f : A -> M B) s :
  bind m f s =
  match m s with
  | (Ok a, s') => f a s'
  | (Err err, s') => (Err err, s')
  end.
Proof. reflexivity. Qed.

Lemma renderCreate_calls e s :
  (calls (renderCreate cloud e s).2 = calls s /\ succeeded (renderCreate cloud e s).1 = false)
  \/ exists request,
       calls (renderCreate cloud e s).2 = calls s ++ [CreateLoadBalancerCall request] /\
       Create_LoadBalancerName request = LoadBalancerName e.
Proof.
  unfold renderCreate. destruct (LoadBalancerName e) as [name|] eqn:Hname; [|by left].
  unfold mbind, M_bind, bind, lift, call, assign, requery, ret, fail.
  destruct (listenersToAWS (ValueOf [] (Listeners e)) []) as [listeners|err]; [|by left].
  right. eexists. cbn [world calls desired].
  destruct (mutate cloud _ (world s)) as [[response|err] w1]; cbn [world calls desired];
    [|done].
  by destruct (findLoadBalancerByLoadBalancerName cloud w1 name) as [[lb|]|err'].
Qed.

Ltac not_create := reflexivity.

Lemma nocreate_renderUpdate a e changes :
  adds (fun c => isCreate c = false) (renderUpdate cloud a e changes).
Proof.
  unfold renderUpdate, mbind, M_bind.
  apply adds_bind; [|intros _].
  { apply adds_when. intros _. unfold renderSubnets, mbind, M_bind.
    apply adds_bind; [|intros _];
      (apply adds_when; intros _;
       apply adds_bind; [apply adds_call; not_create | intros _; apply adds_ret]). }
  apply adds_bind; [|intros _].
  { apply adds_when. intros _.
    apply adds_bind; [apply adds_call; not_create|intros _]. apply adds_ret. }
  apply adds_bind; [|intros _; apply adds_ret].
  apply adds_when. intros _. unfold renderListeners, mbind, M_bind.
  apply adds_bind; [|intros elbDescription].
  { intros s. exists []. rewrite app_nil_r.
    by destruct (findLoadBalancerByLoadBalancerName cloud (world s) _). }
  apply adds_bind; [|intros _].
  { apply adds_when. intros _. apply adds_callIgnored. not_create. }
  apply adds_bind; [apply adds_lift|intros listeners].
  apply adds_bind; [apply adds_call; not_create|intros _]. apply adds_ret.
Qed.


End RenderMore.

End AwstasksMoreFacts.

(** * The claims about the value writer *)

Import GoStringFacts TerraformFacts.

Lemma literalOfValue_logical v1 v2 :
  SameValue v1 v2 -> literalOfValue v1 = literalOfValue v2.
Proof.
  destruct 1 as [ | | | | | a1 a1' a2 Hnd Hp Hk HR | ]; try reflexivity.
  destruct a1 as [|[k v] [|x a1]].
  - apply Permutation_nil_l in Hp. subst a1'. by destruct a2.
  - apply Permutation_singleton_l in Hp. subst a1'.
    destruct a2 as [|[k2 v2] [|y a2]]; try done.
    simpl in Hk, HR. injection Hk as <-.
    apply Forall2_cons in HR as [Hv _]. by destruct Hv.
  - pose proof (Permutation_length Hp) as Hlen.
    assert (Hlen2 : length a1' = length a2).
    { by rewrite <- (length_map fst a1'), Hk, length_map. }
    destruct a2 as [|[k2 v2] [|y a2]]; simpl in *; try lia.
    by destruct v, v2.
Qed.

Lemma literalsOfValue_logical v1 v2 :
  SameValue v1 v2 -> literalsOfValue v1 = literalsOfValue v2.
Proof.
  destruct 1 as [ | | | | l1 l2 HF | | ]; try reflexivity.
  simpl. induction HF as [|x y l1 l2 Hxy _ IH]; [done|].
  simpl in *. rewrite (literalOfValue_logical _ _ Hxy), IH. reflexivity.
Qed.

Lemma scalarTokens_logical v1 v2 :
  SameValue v1 v2 -> scalarTokens v1 = scalarTokens v2.
Proof. by destruct 1. Qed.

(** C1.  The config value writer is deterministic: two value trees that are
    the same logical value, their objects and maps enumerating the keys in
    whatever order, give the same body from [writeValue], and two such
    maps the same body from the map emitter [oldWriteMap].  The conversions
    of go-cty and the rendering of hclwrite are taken to depend on the
    logical value only. *)
Theorem C1_writer_deterministic
    (FromCtyValue_Literal : Value -> option Literal)
    (FromCtyValue_Literals : Value -> option (list Literal))
    (TokensForValue : Value -> Tokens)
    (Literal_logical : forall v1 v2,
        SameValue v1 v2 -> FromCtyValue_Literal v1 = FromCtyValue_Literal v2)
    (Literals_logical : forall v1 v2,
        SameValue v1 v2 -> FromCtyValue_Literals v1 = FromCtyValue_Literals v2)
    (Tokens_logical : forall v1 v2,
        SameValue v1 v2 -> TokensForValue v1 = TokensForValue v2)
    (v1 v2 : Value) (body : Body) (key : string)
    (Hsame : SameValue v1 v2) :
  writeValue FromCtyValue_Literal FromCtyValue_Literals TokensForValue body key v1
  = writeValue FromCtyValue_Literal FromCtyValue_Literals TokensForValue body key v2
  /\ (forall m1 m2, v1 = VMap m1 -> v2 = VMap m2 ->
        oldWriteMap FromCtyValue_Literal FromCtyValue_Literals body key m1
        = oldWriteMap FromCtyValue_Literal FromCtyValue_Literals body key m2).
Proof.
  split.
  - by apply writeValue_same.
  - intros m1 m2 -> ->.
    inversion Hsame as [ | | | | | | m1' m1'' m2' Hnd Hp Hk HR ]; subst.
    by apply (oldWriteMap_same _ _ Literal_logical Literals_logical body key m1 m1'' m2).
Qed.

Lemma NoDup_keys3 (k1 k2 k3 : string) :
  k1 <> k2 -> k1 <> k3 -> k2 <> k3 -> NoDup [k1; k2; k3].
Proof.
  intros H12 H13 H23. repeat constructor; rewrite ?elem_of_cons, ?elem_of_nil; tauto.
Qed.

Lemma NoDup_keys2 (k1 k2 : string) : k1 <> k2 -> NoDup [k1; k2].
Proof.
  intros H12. repeat constructor; rewrite ?elem_of_cons, ?elem_of_nil; tauto.
Qed.

Lemma sampleTags_same : SameValue sampleTags1 sampleTags2.
Proof.
  apply SameMap with
    (m1' := [ ("a", literalValue "aws_vpc.main.id"); ("b", VString "two") ]).
  - by apply NoDup_keys2.
  - apply perm_swap.
  - reflexivity.
  - simpl. constructor; [|constructor; [constructor|constructor]].
    apply SameObject with (a1' := [ ("string", VString "aws_vpc.main.id") ]).
    + apply NoDup_singleton.
    + reflexivity.
    + reflexivity.
    + simpl. repeat constructor.
Qed.

Lemma sampleListener_same : SameValue sampleListener1 sampleListener2.
Proof.
  constructor. constructor; [|constructor].
  apply SameObject with
    (a1' := [ ("instance_port", VNumber 8443); ("lb_port", VNumber 443) ]).
  - by apply NoDup_keys2.
  - apply perm_swap.
  - reflexivity.
  - simpl. repeat constructor.
Qed.

Lemma sampleTrees_same : SameValue sampleTree1 sampleTree2.
Proof.
  apply SameObject with
    (a1' := [ ("listener", sampleListener1); ("tags", sampleTags1); ("name", VString "api") ]).
  - by apply NoDup_keys3.
  - apply perm_trans with
      [ ("tags", sampleTags1); ("listener", sampleListener1); ("name", VString "api") ].
    + apply perm_skip, perm_swap.
    + apply perm_swap.
  - reflexivity.
  - simpl. constructor; [apply sampleListener_same|].
    constructor; [apply sampleTags_same|]. repeat constructor.
Qed.

Lemma C1_writer_deterministic_witness :
  writeValue literalOfValue literalsOfValue scalarTokens [] "aws_elb" sampleTree1
  = writeValue literalOfValue literalsOfValue scalarTokens [] "aws_elb" sampleTree2.
Proof.
  exact (proj1 (C1_writer_deterministic literalOfValue literalsOfValue scalarTokens
                  literalOfValue_logical literalsOfValue_logical scalarTokens_logical
                  sampleTree1 sampleTree2 [] "aws_elb" sampleTrees_same)).
Defined.

(** C2, as stated, fails on a map whose value is neither deferred nor a
    string: a number is not a Deferred Value and not a list of Deferred
    Values, and the emitter does not emit it quoted: [AsString] panics and
    no attribute is written. *)
Lemma C2_counterexample :
  literalOfValue (VNumber 443) = None /\
  literalsOfValue (VNumber 443) = None /\
  oldWriteMap literalOfValue literalsOfValue [] "tags" numberMap = None.
Proof. repeat split. Qed.

(** C2, amended.  For every map passed to the map emitter that is not
    empty, the emitter sets the attribute to a block whose lines follow the
    keys in lexicographic order; a value is emitted unquoted when it is a
    Deferred Value or a list of Deferred Values, and quoted exactly when it
    is neither, in which case it is a string; a value that is none of the
    three makes the emitter panic.  The map with "b" a plain string and "a"
    a Deferred Value gives "a" before "b", the value of "a" unquoted and
    that of "b" quoted. *)
Theorem C2_map_block :
  (forall (FromCtyValue_Literal : Value -> option Literal)
          (FromCtyValue_Literals : Value -> option (list Literal))
          (body : Body) (key : string) (values : list (string * Value)),
     exists keys : list string,
       Sorted GoString.le keys /\ keys ≡ₚ map fst values /\
       oldWriteMap FromCtyValue_Literal FromCtyValue_Literals body key values =
       match values with
       | [] => Some body
       | _ :: _ =>
           match blockLines FromCtyValue_Literal FromCtyValue_Literals values keys with
           | Some lines =>
               Some (SetAttributeRaw body key
                       ([ mkToken TokenOBrace "{" 1; mkToken TokenNewline newline 0 ]
                        ++ lines ++ [mkToken TokenCBrace "}" 0]))
           | None => None
           end
       end) /\
  (forall (FromCtyValue_Literal : Value -> option Literal)
          (FromCtyValue_Literals : Value -> option (list Literal)) (v : Value),
     match valueTokens FromCtyValue_Literal FromCtyValue_Literals v with
     | Some ts =>
         (exists s, ts = quotedTokens s /\ v = VString s) <->
         (FromCtyValue_Literal v = None /\ FromCtyValue_Literals v = None)
     | None =>
         FromCtyValue_Literal v = None /\ FromCtyValue_Literals v = None /\
         AsString v = None
     end) /\
  oldWriteMap literalOfValue literalsOfValue [] "tags" sampleMap =
  Some [ Attribute "tags"
           ([ mkToken TokenOBrace "{" 1; mkToken TokenNewline newline 0 ]
            ++ keyTokens "a" ++ unquotedTokens (mkLiteral "aws_subnet.a.id")
            ++ [mkToken TokenNewline newline 0]
            ++ keyTokens "b" ++ quotedTokens "literalB"
            ++ [mkToken TokenNewline newline 0]
            ++ [mkToken TokenCBrace "}" 0]) ].
Proof.
  split; [|split].
  - intros FL FLs body key values.
    exists (sortStrings (map fst values)).
    split; [apply sortStrings_Sorted|]. split; [apply sortStrings_Permutation|].
    unfold oldWriteMap. destruct values as [|kv values]; [done|].
    cbn [length Nat.eqb]. rewrite foldM_blockLines.
    destruct (blockLines FL FLs (kv :: values) (sortStrings (map fst (kv :: values))));
      [|done].
    by rewrite <- app_assoc.
  - intros FL FLs v.
    destruct (valueTokens FL FLs v) as [ts|] eqn:Hv.
    + rewrite <- (valueTokens_quoted FL FLs v ts Hv). split.
      * intros (s & Hs & _). by exists s.
      * intros [s Hs]. exists s. split; [done|].
        destruct (proj1 (valueTokens_quoted FL FLs v ts Hv) (ex_intro _ s Hs)) as [H1 H2].
        unfold valueTokens in Hv. rewrite H1, H2 in Hv.
        destruct v; try done. injection Hv as Hv. rewrite Hs in Hv.
        by injection Hv as ->.
    + by apply valueTokens_None.
  - reflexivity.
Qed.

(** * The claims about the classic load balancer task *)

Import Awstasks AwstasksFacts.

Lemma GetUniqueStrings_In main extra s :
  In s (GetUniqueStrings main extra) <-> In s extra /\ ~ In s main.
Proof.
  unfold GetUniqueStrings, Contains. rewrite filter_In, negb_true_iff.
  split; intros [Hin Hn]; (split; [done|]).
  - intros Hm. apply not_true_iff_false in Hn. apply Hn, existsb_exists.
    exists s. split; [done|]. apply String.eqb_refl.
  - apply not_true_iff_false. intros (x & Hx & Heq)%existsb_exists.
    apply String.eqb_eq in Heq. by subst.
Qed.

(** C3.  For every update whose subnet list changed, a detach call of
    [RenderAWS] carries the subnets that are actual and not desired, an
    attach call those that are desired and not actual, neither is made for
    an empty list, and so no call names a subnet that is both actual and
    desired.  When the task is not shared the render starts with these
    calls: the detach call when there is something to detach, then, unless
    that call failed, the attach call when there is something to attach.
    With actual s1, s2 and desired s2, s3 the render detaches s1 and
    attaches s3. *)
Theorem C3_subnet_changes
    {World : Type} (cloud : AWSCloud World) (w : World)
    (a e changes : ClassicLoadBalancer)
    (Hchanged : Subnets changes <> None) :
  let made := calls (RenderAWS cloud w (Some a) e changes).2 in
  let actual := subnetIDs (Subnets a) in
  let desired := subnetIDs (Subnets e) in
  (ValueOfBool (Shared e) = false ->
   exists rest,
     made = subnetCalls cloud w (ToString (LoadBalancerName a)) actual desired ++ rest) /\
  Forall (fun c =>
      match detachedSubnets c with
      | Some subnets =>
          subnets = GetUniqueStrings desired actual /\ subnets <> [] /\
          (forall s, In s subnets -> In s actual /\ ~ In s desired)
      | None => True
      end /\
      match attachedSubnets c with
      | Some subnets =>
          subnets = GetUniqueStrings actual desired /\ subnets <> [] /\
          (forall s, In s subnets -> In s desired /\ ~ In s actual)
      | None => True
      end) made /\
  calls (RenderAWS (sampleCloud [sampleLB]) tt (Some subnetsActual) subnetsDesired
           (changedSubnets (Subnets subnetsDesired))).2
  = [ DetachLoadBalancerFromSubnetsCall "api-elb" ["s1"];
      AttachLoadBalancerToSubnetsCall "api-elb" ["s3"];
      AddELBTagsCall "api-elb" None;
      RemoveELBTagsCall "api-elb" None;
      ModifyLoadBalancerAttributesCall (Some subnetsActual) subnetsDesired
        (changedSubnets (Subnets subnetsDesired)) ].
Proof.
  intros made actual desired. split; [|split].
  - intros Hnotshared. by apply RenderAWS_subnet_calls.
  - eapply Forall_impl; [apply RenderAWS_calls|].
    intros c (Hdetach & Hattach & _). split.
    + destruct (detachedSubnets c) as [subnets|]; [|done].
      destruct (Hdetach subnets eq_refl) as (a' & [= <-] & -> & Hne).
      split; [done|]. split; [done|]. intros s Hs. by apply GetUniqueStrings_In in Hs.
    + destruct (attachedSubnets c) as [subnets|]; [|done].
      destruct (Hattach subnets eq_refl) as (a' & [= <-] & -> & Hne).
      split; [done|]. split; [done|]. intros s Hs. by apply GetUniqueStrings_In in Hs.
  - reflexivity.
Qed.

Lemma C3_subnet_changes_witness :
  exists rest,
    calls (RenderAWS (sampleCloud [sampleLB]) tt (Some subnetsActual) subnetsDesired
             (changedSubnets (Subnets subnetsDesired))).2
    = subnetCalls (sampleCloud [sampleLB]) tt "api-elb" ["s1"; "s2"] ["s2"; "s3"] ++ rest.
Proof.
  exact (proj1 (C3_subnet_changes (sampleCloud [sampleLB]) tt subnetsActual subnetsDesired
                  (changedSubnets (Subnets subnetsDesired)) ltac:(discriminate))
           eq_refl).
Defined.

(** C4, on the code.  Whatever listeners changed, a call of [RenderAWS]
    that deletes listeners names the one port 443; with the listener on
    port 80 changed, the render deletes port 443 and then asks for the new
    listener on port 80, which it never deleted. *)
Theorem C4_delete_names_port_443 :
  (forall (World : Type) (cloud : AWSCloud World) (w : World)
          (a : option ClassicLoadBalancer) (e changes : ClassicLoadBalancer),
     Forall (fun c =>
         match deletedPorts c with
         | Some ports => ports = [443%Z]
         | None => True
         end) (calls (RenderAWS cloud w a e changes).2)) /\
  calls (RenderAWS (sampleCloud [sampleLB]) tt (Some listenersActual) listenersDesired
           (changedListeners (Listeners listenersDesired))).2
  = [ DeleteLoadBalancerListenersCall "api-elb" [443%Z];
      CreateLoadBalancerListenersCall "api-elb"
        [mkAWSListener 80 (Some 9090%Z) (Some "TCP") (Some "TCP") None];
      AddELBTagsCall "api-elb" None;
      RemoveELBTagsCall "api-elb" None;
      ModifyLoadBalancerAttributesCall (Some listenersActual) listenersDesired
        (changedListeners (Listeners listenersDesired)) ].
Proof.
  split; [|reflexivity].
  intros World cloud w a e changes.
  eapply Forall_impl; [apply RenderAWS_calls|].
  intros c (_ & _ & Hdelete).
  destruct (deletedPorts c) as [ports|]; [|done]. by apply Hdelete.
Qed.

(** C5, as stated, fails on a shared task without a name: none of the
    conditions that the claim lists holds, and [CheckChanges] returns the
    error for the field Name, not nil. *)
Lemma C5_counterexample :
  listedMissing sharedUnnamed = false /\
  CheckChanges None sharedUnnamed sharedUnnamed = Some (RequiredField "Name").
Proof. split; reflexivity. Qed.

(** C5, amended.  For every task with actual absent, [CheckChanges] returns
    nil exactly when no required field is missing, the required fields
    being the name, the security groups and subnets of a task that is not
    shared, and the sub-fields of a present access log, connection
    draining or cross-zone block; otherwise it returns a RequiredField
    error that names a field that is missing. *)
Theorem C5_required_fields (e changes : ClassicLoadBalancer) :
  (CheckChanges None e changes = None <-> forall field, ~ Missing e field) /\
  (forall err, CheckChanges None e changes = Some err ->
     exists field, err = RequiredField field /\ Missing e field).
Proof.
  split; [apply CheckChanges_None_iff|].
  intros err. apply CheckChanges_Some_Missing.
Qed.

(** C10.  With the actual snapshot present, [CheckChanges] returns nil,
    whatever the desired state and the changes record. *)
Theorem C10_update_is_not_validated (a e changes : ClassicLoadBalancer) :
  CheckChanges (Some a) e changes = None.
Proof. reflexivity. Qed.

(** C9.  [Normalize] is idempotent; the security groups sgB, sgA come out
    as sgA, sgB, and a second call leaves them so. *)
Theorem C9_normalize_idempotent :
  (forall e : ClassicLoadBalancer, Normalize (Normalize e).1 = Normalize e) /\
  SecurityGroups (Normalize unsortedTask).1
  = Some [mkSecurityGroup (Some "sgA"); mkSecurityGroup (Some "sgB")] /\
  Normalize (Normalize unsortedTask).1 = Normalize unsortedTask.
Proof.
  split; [|split; reflexivity].
  intros e. unfold Normalize. simpl. f_equal.
  unfold setSecurityGroups, setSubnets. simpl.
  rewrite (sortSlice_idempotent (fun s => ToString (Subnet_ID s))).
  rewrite (sortSlice_idempotent (fun sg => ToString (SecurityGroup_ID sg))).
  reflexivity.
Qed.

(** C8.  For a task whose Shared flag is set, [ShouldCreate] returns false
    and both renders return nil at once: [RenderAWS] makes no call and
    leaves the remote side and the task as they are, [RenderTerraform]
    leaves the target as it is.  For a task that is not marked shared,
    [ShouldCreate] returns true. *)
Theorem C8_shared_is_not_rendered
    {World Target : Type} (cloud : AWSCloud World) (t : TerraformTarget Target)
    (w : World) (target : Target)
    (a : option ClassicLoadBalancer) (e changes : ClassicLoadBalancer)
    (Hshared : Shared e = Some true) :
  ShouldCreate a e changes = (false, None) /\
  RenderAWS cloud w a e changes = (None, mkRenderState w [] e) /\
  RenderTerraform cloud t target a e changes = (Done tt, target) /\
  (forall e', ValueOfBool (Shared e') = false -> ShouldCreate a e' changes = (true, None)).
Proof.
  assert (H : ValueOfBool (Shared e) = true) by (by rewrite Hshared).
  repeat split.
  - unfold ShouldCreate. by rewrite H.
  - by apply RenderAWS_shared.
  - unfold RenderTerraform. by rewrite H.
  - intros e' He'. unfold ShouldCreate. by rewrite He'.
Qed.

Lemma C8_shared_is_not_rendered_witness :
  ShouldCreate None sharedTask sharedTask = (false, None) /\
  RenderAWS (sampleCloud []) tt None sharedTask sharedTask
  = (None, mkRenderState tt [] sharedTask) /\
  RenderTerraform (sampleCloud []) sampleTarget [] None sharedTask sharedTask
  = (Done tt, []).
Proof.
  destruct (C8_shared_is_not_rendered (sampleCloud []) sampleTarget tt [] None
              sharedTask sharedTask eq_refl) as (H1 & H2 & H3 & _).
  exact (conj H1 (conj H2 H3)).
Defined.

(** The matches of a lookup by name and by alias. *)
Lemma describeLoadBalancers_Err_not_aws {World : Type} (cloud : AWSCloud World) w request
    filter err :
  describeLoadBalancers cloud w request filter = Err err -> asAwsError err = None.
Proof.
  unfold describeLoadBalancers. intros H.
  by destruct (describePages_Err _ _ _ _ H) as (inner & -> & _).
Qed.

(** C6, on the code.  A lookup by load balancer name gives absent for no
    match, the match for one, and an error for more; a failed listing comes
    out as an error whatever its code, since the listing has wrapped it:
    the not-found code of the provider too, which the lookup means to map
    to absent.  A lookup by alias has the same three cases and propagates
    every failed listing. *)
Theorem C6_not_found_is_propagated :
  (forall (World : Type) (cloud : AWSCloud World) (w : World) (name : string),
     match describeLoadBalancers cloud w [name] (nameFilter name) with
     | Err err =>
         findLoadBalancerByLoadBalancerName cloud w name
         = Err (ErrorfV "error listing ELBs: %v" err)
     | Ok [] => findLoadBalancerByLoadBalancerName cloud w name = Ok None
     | Ok [lb] => findLoadBalancerByLoadBalancerName cloud w name = Ok (Some lb)
     | Ok (_ :: _ :: _) =>
         findLoadBalancerByLoadBalancerName cloud w name
         = Err (Errorf ("Found multiple ELBs with name " ++ name))
     end) /\
  (forall (World : Type) (cloud : AWSCloud World) (w : World) (alias : AliasTarget),
     let dnsName := ToString (Alias_DNSName alias) in
     if String.eqb (GoString.TrimSuffix dnsName ".") EmptyString
     then findLoadBalancerByAlias cloud w alias = Err (Errorf "DNSName not set on AliasTarget")
     else
       match describeLoadBalancers cloud w []
               (aliasFilter (ToString (Alias_HostedZoneId alias))
                  (GoString.TrimSuffix dnsName ".")) with
       | Err err =>
           findLoadBalancerByAlias cloud w alias
           = Err (ErrorfV "error listing ELBs: %v" err)
       | Ok [] => findLoadBalancerByAlias cloud w alias = Ok None
       | Ok [lb] => findLoadBalancerByAlias cloud w alias = Ok (Some lb)
       | Ok (_ :: _ :: _) =>
           findLoadBalancerByAlias cloud w alias
           = Err (Errorf ("Found multiple ELBs with DNSName " ++ dnsName))
       end) /\
  findLoadBalancerByLoadBalancerName notFoundCloud tt "api-elb"
  = Err (ErrorfV "error listing ELBs: %v"
           (ErrorfW "error listing ELBs: %w"
              (AwsError "LoadBalancerNotFound" "There is no ACTIVE Load Balancer"))).
Proof.
  split; [|split; [|reflexivity]].
  - intros World cloud w name. unfold findLoadBalancerByLoadBalancerName.
    destruct (describeLoadBalancers cloud w [name] _) as [found|err] eqn:Hd.
    + by destruct found as [|lb [|lb' found]].
    + by rewrite (describeLoadBalancers_Err_not_aws _ _ _ _ _ Hd).
  - intros World cloud w alias dnsName. unfold findLoadBalancerByAlias. fold dnsName.
    destruct (String.eqb (GoString.TrimSuffix dnsName ".") EmptyString); [done|].
    destruct (describeLoadBalancers cloud w [] _) as [found|err] eqn:Hd.
    + by destruct found as [|lb [|lb' found]].
    + done.
Qed.

(** C7, as stated, fails on a desired task that names its load balancer
    otherwise than the cloud does: the name was set, and [Find] replaces
    it by the name of the load balancer it found. *)
Lemma C7_counterexample :
  LoadBalancerName renamedDesired = Some "api-old-name" /\
  LoadBalancerName (Find (sampleCloud [sampleLB]) (fun _ _ => false) tt renamedDesired).1
  = Some "api-elb".
Proof. split; reflexivity. Qed.

(** C7, amended.  [Find] backfills DNSName and HostedZoneId of the desired
    task from the snapshot it returns only when they are unset, and leaves
    them as they are when they are set; it sets LoadBalancerName to the name
    of the load balancer it found whenever the two names differ, also when
    the desired name was set; apart from these three and from Subnets it
    leaves every desired field as it is, and when it returns no snapshot it
    leaves the whole task as it is. *)
Theorem C7_find_backfill
    {World : Type} (cloud : AWSCloud World)
    (subnetSlicesEqualIgnoreOrder : slice Subnet -> slice Subnet -> bool)
    (w : World) (e : ClassicLoadBalancer) :
  let e' := (Find cloud subnetSlicesEqualIgnoreOrder w e).1 in
  (Name e' = Name e /\ Lifecycle e' = Lifecycle e /\
   SecurityGroups e' = SecurityGroups e /\ Listeners e' = Listeners e /\
   Scheme e' = Scheme e /\ HealthCheck e' = HealthCheck e /\
   AccessLog e' = AccessLog e /\ ConnectionDraining e' = ConnectionDraining e /\
   ConnectionSettings e' = ConnectionSettings e /\
   CrossZoneLoadBalancing e' = CrossZoneLoadBalancing e /\
   SSLCertificateID e' = SSLCertificateID e /\ Tags e' = Tags e /\
   Shared e' = Shared e /\ WellKnownServices e' = WellKnownServices e) /\
  (DNSName e <> None -> DNSName e' = DNSName e) /\
  (HostedZoneId e <> None -> HostedZoneId e' = HostedZoneId e) /\
  match (Find cloud subnetSlicesEqualIgnoreOrder w e).2 with
  | Done (Some actual) =>
      (DNSName e = None -> DNSName e' = DNSName actual) /\
      (HostedZoneId e = None -> HostedZoneId e' = HostedZoneId actual) /\
      LoadBalancerName e' =
        (if String.eqb (ToString (LoadBalancerName e)) (ToString (LoadBalancerName actual))
         then LoadBalancerName e else LoadBalancerName actual)
  | _ => e' = e
  end.
Proof.
  unfold Find.
  destruct (FindELBByNameTag cloud (ToString (Name e)) w) as [[lb|]|err];
    [|by repeat split..].
  destruct (LBD_LoadBalancerName lb) as [lbName|] eqn:HlbName; [|by repeat split].
  destruct (DescribeELBTags cloud [lbName] w) as [tagMap|err]; [|by repeat split].
  destruct (LoadBalancerName e) as [eName|] eqn:HeName; [|by repeat split].
  destruct (findHealthCheck cloud lb) as [healthcheck|err]; [|by repeat split].
  destruct (findELBAttributes cloud (ToString (Some lbName)) w) as [lbAttributes|err];
    [|by repeat split].
  destruct e as [name lifecycle lbn dns zone subnets sgs listeners scheme hc al cd cs cz
                   cert tags shared wks].
  simpl in HeName. subst lbn.
  unfold reconcile, Normalize, snapshot, isNil, ToString, ValueOf. simpl.
  rewrite HlbName.
  destruct (subnetSlicesEqualIgnoreOrder _ subnets);
    destruct dns; destruct zone; destruct (String.eqb eName lbName) eqn:Hnames; simpl;
    rewrite ?Hnames; simpl; repeat split; try done.
Qed.

(** * Further properties of the value writer *)

Import TextFacts.

(** X1: [quote] is injective on strings of ASCII bytes: two keys that differ
    never get the same quoted text.  (The runes of such a string are its
    bytes, which is what [quote] is modelled on.) *)
Theorem X1_quote_injective (s1 s2 : string)
    (Hs1 : isASCII s1 = true) (Hs2 : isASCII s2 = true)
    (Hquote : quote s1 = quote s2) :
  s1 = s2.
Proof.
  assert (H : unquote (quote s1) = unquote (quote s2)) by (by rewrite Hquote).
  rewrite !unquote_quote in H. by injection H.
Qed.

Lemma X1_quote_injective_witness :
  String "a" (String backslash (String dquoteChar "b"))
  = String "a" (String backslash (String dquoteChar "b")).
Proof.
  apply (X1_quote_injective
           (String "a" (String backslash (String dquoteChar "b")))
           (String "a" (String backslash (String dquoteChar "b"))));
    reflexivity.
Defined.

(** X2: the block that [writeMap] writes for a map that is not empty and
    holds no nil pointer: after what the buffer held, the indented key and
    an opening brace, one line for each key in the order of the sorted keys,
    and the indented closing brace. *)
Theorem X2_writeMap_block (buf : string) (indent : Z) (key : string)
    (values : list (string * option Literal))
    (Hnonempty : values <> [])
    (Hset : Forall (fun kv => kv.2 <> None) values) :
  writeMap buf indent key values =
  Some (buf +:+ spaces (Z.to_nat indent) +:+ key +:+ " = {" +:+ newline
        +:+ mapLines indent (maxKeyLen values) values (sortStrings (map fst values))
        +:+ spaces (Z.to_nat indent) +:+ "}" +:+ newline).
Proof.
  unfold writeMap. destruct values as [|kv values]; [done|].
  cbn [length Nat.eqb]. cbv zeta. rewrite foldM_writeMapLine.
  replace (forallb _ _) with true.
  - unfold writeIndent. by rewrite !append_assoc.
  - symmetry. apply forallb_forall. intros k Hk.
    apply list_elem_of_In in Hk. apply (proj1 (elem_of_sortStrings _ _)) in Hk.
    by apply hasLiteral_all.
Qed.

Lemma X2_writeMap_block_witness :
  writeMap "x" 2 "tags"
    [("b", Some (mkLiteral "2")); ("long", Some (mkLiteral "1"))] =
  Some ("x" +:+ spaces 2 +:+ "tags" +:+ " = {" +:+ newline
        +:+ (spaces 4 +:+ quote "b" +:+ spaces 3 +:+ " = 2" +:+ newline)
        +:+ (spaces 4 +:+ quote "long" +:+ " = 1" +:+ newline)
        +:+ spaces 2 +:+ "}" +:+ newline).
Proof.
  apply (X2_writeMap_block "x" 2 "tags"
           [("b", Some (mkLiteral "2")); ("long", Some (mkLiteral "1"))]).
  - discriminate.
  - repeat constructor; discriminate.
Defined.

(** X3: the lines of the block are aligned: the quoted key of a line is
    padded with spaces to the width of the longest quoted key of the map, so
    the equals signs stand in one column. *)
Theorem X3_writeMap_aligned (indent : Z) (values : list (string * option Literal))
    (k value : string) (Hk : k ∈ map fst values) :
  exists pad : nat,
    mapLine indent (maxKeyLen values) k value =
    spaces (Z.to_nat (indent + 2)) +:+ (quote k +:+ spaces pad)
    +:+ " = " +:+ value +:+ newline /\
    Z.of_nat (String.length (quote k +:+ spaces pad)) = maxKeyLen values.
Proof.
  pose proof (maxKeyLen_elem values k Hk) as Hle.
  exists (Z.to_nat (maxKeyLen values - Z.of_nat (String.length (quote k)))). split.
  - unfold mapLine. by rewrite !append_assoc.
  - rewrite append_length, spaces_length. lia.
Qed.

Lemma X3_writeMap_aligned_witness :
  exists pad : nat,
    mapLine 2 (maxKeyLen [("b", Some (mkLiteral "2")); ("long", Some (mkLiteral "1"))])
      "b" "2" =
    spaces (Z.to_nat (2 + 2)) +:+ (quote "b" +:+ spaces pad)
    +:+ " = " +:+ "2" +:+ newline /\
    Z.of_nat (String.length (quote "b" +:+ spaces pad))
    = maxKeyLen [("b", Some (mkLiteral "2")); ("long", Some (mkLiteral "1"))].
Proof.
  apply (X3_writeMap_aligned 2
           [("b", Some (mkLiteral "2")); ("long", Some (mkLiteral "1"))] "b" "2").
  simpl. left.
Defined.

(** X4: what [writeMap] writes does not depend on the order in which the
    map enumerates its keys. *)
Theorem X4_writeMap_order_independent (buf : string) (indent : Z) (key : string)
    (values1 values2 : list (string * option Literal))
    (Hkeys : NoDup (map fst values1))
    (Hsame : values1 ≡ₚ values2) :
  writeMap buf indent key values1 = writeMap buf indent key values2.
Proof.
  unfold writeMap.
  rewrite (Permutation_length Hsame), (maxKeyLen_Permutation _ _ Hsame).
  rewrite (sortStrings_unique (map fst values1) (map fst values2))
    by (by apply fmap_Permutation).
  destruct (length values2 =? 0)%nat; [done|]. cbv zeta.
  rewrite (foldM_ext (writeMapLine indent (maxKeyLen values2) values1)
             (writeMapLine indent (maxKeyLen values2) values2)); [done|].
  intros a k _. unfold writeMapLine.
  by rewrite (lookupKey_Permutation k values1 values2 Hkeys Hsame).
Qed.

Lemma X4_writeMap_order_independent_witness :
  writeMap "" 0 "tags" [("b", Some (mkLiteral "2")); ("a", Some (mkLiteral "1"))]
  = writeMap "" 0 "tags" [("a", Some (mkLiteral "1")); ("b", Some (mkLiteral "2"))].
Proof.
  apply X4_writeMap_order_independent.
  - simpl. apply NoDup_cons. split; [|apply NoDup_singleton].
    rewrite list_elem_of_singleton. discriminate.
  - apply perm_swap.
Defined.

(** X5: [writeMap] panics exactly when the map holds a nil pointer; an
    empty map and a map of literals are written without a panic. *)
Theorem X5_writeMap_panics_on_nil (buf : string) (indent : Z) (key : string)
    (values : list (string * option Literal))
    (Hkeys : NoDup (map fst values)) :
  writeMap buf indent key values = None <-> exists k, (k, None) ∈ values.
Proof.
  unfold writeMap. destruct values as [|kv values].
  - simpl. split; [done|]. intros [k Hk]. by apply elem_of_nil in Hk.
  - cbn [length Nat.eqb]. cbv zeta. rewrite foldM_writeMapLine.
    rewrite <- (forallb_hasLiteral_false _ Hkeys).
    destruct (forallb _ _); split; done.
Qed.

Lemma X5_writeMap_panics_on_nil_witness :
  writeMap "" 0 "tags" [("a", Some (mkLiteral "1")); ("b", None)] = None
  <-> exists k, (k, None) ∈ [("a", Some (mkLiteral "1")); ("b", (None : option Literal))].
Proof.
  apply X5_writeMap_panics_on_nil.
  simpl. apply NoDup_cons. split; [|apply NoDup_singleton].
  rewrite list_elem_of_singleton. discriminate.
Defined.

Import ListFacts.

(** X6: the tokens of [literalListTokens]: an opening bracket, the literals
    with one comma between two of them and none after the last, and a
    closing bracket. *)
Theorem X6_literalListTokens_commas (literals : list Literal) :
  literalListTokens literals =
  mkToken TokenOBrack "[" 1 :: commaSeparated literals ++ [mkToken TokenCBrack "]" 0].
Proof.
  unfold literalListTokens. cbv zeta.
  by rewrite literalListLoop_commaSeparated.
Qed.

(** X7: a write of a value under a key touches that key only: when
    [writeValue] does not panic it has left the body as it was, or set the
    attribute of that name, or appended blocks of that type after what the
    body held. *)
Theorem X7_writeValue_writes_key
    (FromCtyValue_Literal : Value -> option Literal)
    (FromCtyValue_Literals : Value -> option (list Literal))
    (TokensForValue : Value -> Tokens)
    (body body' : Body) (key : string) (value : Value)
    (Hwritten : writeValue FromCtyValue_Literal FromCtyValue_Literals TokensForValue
                  body key value = Some body') :
  WritesKey key body body'.
Proof.
  destruct value as [ | s | n | b | elems | attrs | values ];
    [simpl in Hwritten..|rewrite writeValue_VList in Hwritten|simpl in Hwritten|simpl in Hwritten].
  - injection Hwritten as <-. constructor.
  - destruct (FromCtyValue_Literal _); injection Hwritten as <-; constructor.
  - destruct (FromCtyValue_Literal _); injection Hwritten as <-; constructor.
  - destruct (FromCtyValue_Literal _); injection Hwritten as <-; constructor.
  - destruct (length elems =? 0)%nat; [injection Hwritten as <-; constructor|].
    cbv zeta in Hwritten.
    destruct (0 <? length (omap _ _))%nat; [injection Hwritten as <-; constructor|].
    destruct elems as [|firstElement rest]; [injection Hwritten as <-; constructor|].
    destruct (IsObjectType firstElement); [|injection Hwritten as <-; constructor].
    destruct (mapM _ _) as [children|]; [|done].
    injection Hwritten as <-. constructor.
  - destruct (FromCtyValue_Literal _); [injection Hwritten as <-; constructor|].
    destruct (writeAttributes _ attrs) as [child|]; [|done].
    injection Hwritten as <-. apply (WritesBlocks key body [child]).
  - destruct (FromCtyValue_Literal _); [injection Hwritten as <-; constructor|].
    unfold oldWriteMap in Hwritten.
    destruct (length values =? 0)%nat; [injection Hwritten as <-; constructor|].
    destruct (foldM _ _ _); [|done]. injection Hwritten as <-. constructor.
Qed.

Lemma X7_writeValue_writes_key_witness :
  WritesKey "tags" [Attribute "name" []]
    [Attribute "name" []; Block "tags" [Attribute "a" (scalarTokens (VString "1"))]].
Proof.
  apply (X7_writeValue_writes_key literalOfValue literalsOfValue scalarTokens
           [Attribute "name" []]
           [Attribute "name" []; Block "tags" [Attribute "a" (scalarTokens (VString "1"))]]
           "tags" (VObject [("a", VString "1")])).
  reflexivity.
Defined.

(** X8: a list of objects none of which converts into a Literal is written
    as one block per element, in the order of the list, after what the body
    held; the write panics when an element is not an object or the write of
    an element's attributes panics, and only then. *)
Theorem X8_writeValue_list_of_objects
    (FromCtyValue_Literal : Value -> option Literal)
    (FromCtyValue_Literals : Value -> option (list Literal))
    (TokensForValue : Value -> Tokens)
    (body : Body) (key : string) (first : Value) (rest : list Value)
    (Hobject : IsObjectType first = true)
    (Hnoliteral : omap FromCtyValue_Literal (first :: rest) = []) :
  writeValue FromCtyValue_Literal FromCtyValue_Literals TokensForValue
    body key (VList (first :: rest)) =
  match mapM (objectBody FromCtyValue_Literal FromCtyValue_Literals TokensForValue)
          (first :: rest) with
  | Some children => Some (body ++ map (Block key) children)
  | None => None
  end.
Proof.
  rewrite writeValue_VList. cbv zeta. rewrite Hnoliteral. cbn [length Nat.eqb Nat.ltb Nat.leb].
  by rewrite Hobject.
Qed.

Lemma X8_writeValue_list_of_objects_witness :
  writeValue literalOfValue literalsOfValue scalarTokens [] "listener"
    (VList [VObject [("port", VNumber 80)]; VObject [("port", VNumber 443)]]) =
  match mapM (objectBody literalOfValue literalsOfValue scalarTokens)
          [VObject [("port", VNumber 80)]; VObject [("port", VNumber 443)]] with
  | Some children => Some ([] ++ map (Block "listener") children)
  | None => None
  end.
Proof.
  apply (X8_writeValue_list_of_objects literalOfValue literalsOfValue scalarTokens
           [] "listener" (VObject [("port", VNumber 80)]) [VObject [("port", VNumber 443)]]);
    reflexivity.
Defined.

(** * Properties of the options builder of the cluster autoscaler *)

Import Components ComponentsFacts.

(** X9: [BuildOptions] is idempotent: a second run over the spec that a
    first run has left changes nothing. *)
Theorem X9_BuildOptions_idempotent
    (ParseKubernetesVersion : string -> option Version) (clusterSpec : ClusterSpec) :
  BuildOptions ParseKubernetesVersion (BuildOptions ParseKubernetesVersion clusterSpec).1
  = BuildOptions ParseKubernetesVersion clusterSpec.
Proof.
  unfold BuildOptions.
  destruct (ClusterAutoscaler clusterSpec) as [cas|] eqn:Hcas; cbn [fst].
  - destruct (negb (ValueOfBool (Enabled cas))) eqn:Henabled; cbn [fst].
    + by rewrite Hcas, Henabled.
    + cbn [ClusterAutoscaler KubernetesVersion].
      assert (He : Enabled (buildCAS ParseKubernetesVersion
                              (KubernetesVersion clusterSpec) cas) = Enabled cas) by done.
      by rewrite He, Henabled, buildCAS_idempotent.
  - by rewrite Hcas.
Qed.

(** X10: [BuildOptions] fills in what is missing and nothing else: it
    returns no error, leaves the Kubernetes version of the spec, and every
    field of the autoscaler's config that was set keeps its value. *)
Theorem X10_BuildOptions_keeps_settings
    (ParseKubernetesVersion : string -> option Version) (clusterSpec : ClusterSpec)
    (cas : ClusterAutoscalerConfig)
    (Hcas : ClusterAutoscaler clusterSpec = Some cas) :
  (BuildOptions ParseKubernetesVersion clusterSpec).2 = None /\
  KubernetesVersion (BuildOptions ParseKubernetesVersion clusterSpec).1
  = KubernetesVersion clusterSpec /\
  exists cas',
    ClusterAutoscaler (BuildOptions ParseKubernetesVersion clusterSpec).1 = Some cas' /\
    keepsSettings cas cas'.
Proof.
  unfold BuildOptions. rewrite Hcas.
  destruct (negb (ValueOfBool (Enabled cas))).
  - repeat split; try done. exists cas. split; [done|].
    unfold keepsSettings, keeps. by repeat split.
  - repeat split; try done. eexists. split; [reflexivity|].
    unfold keepsSettings, keeps, buildCAS. simpl.
    repeat split; try (by intros v ->).
    intros Hset. apply String.eqb_neq in Hset. by rewrite Hset.
Qed.

Lemma X10_BuildOptions_keeps_settings_witness :
  (BuildOptions sampleParse sampleSpec).2 = None /\
  KubernetesVersion (BuildOptions sampleParse sampleSpec).1 = KubernetesVersion sampleSpec /\
  exists cas',
    ClusterAutoscaler (BuildOptions sampleParse sampleSpec).1 = Some cas' /\
    keepsSettings sampleCAS cas'.
Proof.
  apply (X10_BuildOptions_keeps_settings sampleParse sampleSpec sampleCAS). reflexivity.
Defined.

(** X11: after [BuildOptions] the config of an enabled autoscaler is
    complete: no pointer field is nil and the provision time is not
    empty. *)
Theorem X11_BuildOptions_complete
    (ParseKubernetesVersion : string -> option Version) (clusterSpec : ClusterSpec)
    (cas : ClusterAutoscalerConfig)
    (Hcas : ClusterAutoscaler clusterSpec = Some cas)
    (Henabled : Enabled cas = Some true) :
  exists cas',
    ClusterAutoscaler (BuildOptions ParseKubernetesVersion clusterSpec).1 = Some cas' /\
    complete cas' = true.
Proof.
  unfold BuildOptions. rewrite Hcas, Henabled. simpl.
  eexists. split; [reflexivity|].
  unfold complete, buildCAS. simpl.
  destruct (Image cas), (Expander cas), (ScaleDownUtilizationThreshold cas),
    (SkipNodesWithLocalStorage cas), (SkipNodesWithSystemPods cas),
    (BalanceSimilarNodeGroups cas), (AWSUseStaticInstanceList cas),
    (NewPodScaleUpDelay cas), (ScaleDownDelayAfterAdd cas),
    (ScaleDownUnneededTime cas), (ScaleDownUnreadyTime cas), (AutoDiscovery cas);
    simpl;
    destruct (String.eqb (MaxNodeProvisionTime cas) EmptyString) eqn:Hempty;
    simpl; by rewrite ?Hempty.
Qed.

Lemma X11_BuildOptions_complete_witness :
  exists cas',
    ClusterAutoscaler (BuildOptions sampleParse sampleSpec).1 = Some cas' /\
    complete cas' = true.
Proof.
  apply (X11_BuildOptions_complete sampleParse sampleSpec sampleCAS); reflexivity.
Defined.

(** X12: [BuildOptions] changes the spec exactly when the autoscaler is
    enabled and its config is not complete: a spec without an autoscaler or
    with one that is not enabled is left as it is, whatever its fields. *)
Theorem X12_BuildOptions_fixed_point
    (ParseKubernetesVersion : string -> option Version) (clusterSpec : ClusterSpec) :
  (BuildOptions ParseKubernetesVersion clusterSpec).1 = clusterSpec <->
  match ClusterAutoscaler clusterSpec with
  | None => True
  | Some cas => ValueOfBool (Enabled cas) = false \/ complete cas = true
  end.
Proof.
  destruct clusterSpec as [version [cas|]]; unfold BuildOptions; simpl; [|done].
  destruct (ValueOfBool (Enabled cas)); simpl.
  - rewrite <- (complete_buildCAS ParseKubernetesVersion version cas). split.
    + intros [= H]. by right.
    + intros [?|H]; [done|]. by rewrite H.
  - split; [by left | done].
Qed.

(** X13: a config that names no image gets one from the Kubernetes version
    of the spec: the empty string when the version does not parse (no error
    is returned), and an image of the autoscaler's registry otherwise. *)
Theorem X13_BuildOptions_image
    (ParseKubernetesVersion : string -> option Version) (clusterSpec : ClusterSpec)
    (cas : ClusterAutoscalerConfig)
    (Hcas : ClusterAutoscaler clusterSpec = Some cas)
    (Henabled : Enabled cas = Some true)
    (Himage : Image cas = None) :
  exists cas' image,
    BuildOptions ParseKubernetesVersion clusterSpec
    = (mkClusterSpec (KubernetesVersion clusterSpec) (Some cas'), None) /\
    Image cas' = Some image /\
    (image = EmptyString <->
     ParseKubernetesVersion (KubernetesVersion clusterSpec) = None) /\
    (ParseKubernetesVersion (KubernetesVersion clusterSpec) <> None ->
     GoString.HasPrefix image imagePrefix = true).
Proof.
  unfold BuildOptions. rewrite Hcas, Henabled. simpl.
  eexists. exists (defaultImage ParseKubernetesVersion (KubernetesVersion clusterSpec)).
  split; [reflexivity|]. split; [by unfold buildCAS; simpl; rewrite Himage|].
  unfold defaultImage.
  destruct (ParseKubernetesVersion (KubernetesVersion clusterSpec)) as [v|].
  - repeat match goal with |- context [(?a =? ?b)%Z] => destruct (a =? b)%Z end;
      (split; [split; discriminate | intros _; reflexivity]).
  - split; [done | intros H; by destruct H].
Qed.

Lemma X13_BuildOptions_image_witness :
  exists cas' image,
    BuildOptions sampleParse sampleSpec
    = (mkClusterSpec (KubernetesVersion sampleSpec) (Some cas'), None) /\
    Image cas' = Some image /\
    (image = EmptyString <-> sampleParse (KubernetesVersion sampleSpec) = None) /\
    (sampleParse (KubernetesVersion sampleSpec) <> None ->
     GoString.HasPrefix image imagePrefix = true).
Proof.
  apply (X13_BuildOptions_image sampleParse sampleSpec sampleCAS); reflexivity.
Defined.

(** * Further properties of the classic load balancer task *)

Import AwstasksMoreFacts.

(** X14: the load balancer that the lookup by name returns has that name
    and is one of those the cloud has listed. *)
Theorem X14_lookup_by_name_sound
    {World : Type} (cloud : AWSCloud World) (w : World) (loadBalancerName : string)
    (lb : LoadBalancerDescription)
    (Hfound : findLoadBalancerByLoadBalancerName cloud w loadBalancerName = Ok (Some lb)) :
  ToString (LBD_LoadBalancerName lb) = loadBalancerName /\
  exists page,
    Ok page ∈ DescribeLoadBalancers cloud [loadBalancerName] w /\ lb ∈ page.
Proof.
  unfold findLoadBalancerByLoadBalancerName in Hfound.
  destruct (describeLoadBalancers cloud w [loadBalancerName] (nameFilter loadBalancerName))
    as [found|err] eqn:Hlist.
  - destruct (found_one cloud w _ _ found lb Hlist) as [Hname Hpage].
    + destruct (length found =? 0)%nat; [done|].
      by destruct (negb (length found =? 1)%nat).
    + split; [|done]. by apply String.eqb_eq in Hname.
  - destruct (asAwsError err) as [code|]; [|done].
    by destruct (String.eqb code "LoadBalancerNotFound").
Qed.

Lemma X14_lookup_by_name_sound_witness :
  ToString (LBD_LoadBalancerName sampleLB) = "api-elb" /\
  exists page,
    Ok page ∈ DescribeLoadBalancers (sampleCloud [sampleLB]) ["api-elb"] tt /\
    sampleLB ∈ page.
Proof.
  apply (X14_lookup_by_name_sound (sampleCloud [sampleLB]) tt "api-elb" sampleLB).
  reflexivity.
Defined.

(** X15: the load balancer that the lookup by alias returns is in the
    hosted zone of the alias, and the DNS name of the alias, without a
    trailing dot, is its own or its own after the prefix "dualstack."; an
    alias without a DNS name finds nothing. *)
Theorem X15_lookup_by_alias_sound
    {World : Type} (cloud : AWSCloud World) (w : World) (alias : AliasTarget)
    (lb : LoadBalancerDescription)
    (Hfound : findLoadBalancerByAlias cloud w alias = Ok (Some lb)) :
  let wanted := TrimSuffix (ToString (Alias_DNSName alias)) "." in
  let lbDnsName := TrimSuffix (ToString (LBD_DNSName lb)) "." in
  wanted <> EmptyString /\
  ToString (Alias_HostedZoneId alias) = ToString (LBD_CanonicalHostedZoneNameID lb) /\
  (wanted = lbDnsName \/ wanted = ("dualstack." ++ lbDnsName)%string) /\
  exists page, Ok page ∈ DescribeLoadBalancers cloud [] w /\ lb ∈ page.
Proof.
  intros wanted lbDnsName. unfold findLoadBalancerByAlias in Hfound. cbv zeta in Hfound.
  fold wanted in Hfound.
  destruct (String.eqb wanted EmptyString) eqn:Hwanted; [done|].
  apply String.eqb_neq in Hwanted. split; [done|].
  destruct (describeLoadBalancers cloud w [] _) as [found|err] eqn:Hlist; [|done].
  destruct (found_one cloud w _ _ found lb Hlist) as [Hmatch Hpage].
  - destruct (length found =? 0)%nat; [done|].
    by destruct (negb (length found =? 1)%nat).
  - unfold aliasFilter in Hmatch.
    destruct (String.eqb (ToString (Alias_HostedZoneId alias))
                (ToString (LBD_CanonicalHostedZoneNameID lb))) eqn:Hzone; [|done].
    apply String.eqb_eq in Hzone. split; [done|]. split; [|done].
    cbn [negb] in Hmatch. cbv zeta in Hmatch. fold lbDnsName in Hmatch.
    apply orb_prop in Hmatch as [H|H]; apply String.eqb_eq in H; [by left | by right].
Qed.

Lemma X15_lookup_by_alias_sound_witness :
  let alias := mkAlias (Some "dualstack.api-elb-1234.elb.amazonaws.com.")
                 (Some "Z35SXDOTRQ7X7K") in
  let wanted := TrimSuffix (ToString (Alias_DNSName alias)) "." in
  let lbDnsName := TrimSuffix (ToString (LBD_DNSName sampleLB)) "." in
  wanted <> EmptyString /\
  ToString (Alias_HostedZoneId alias) = ToString (LBD_CanonicalHostedZoneNameID sampleLB) /\
  (wanted = lbDnsName \/ wanted = ("dualstack." ++ lbDnsName)%string) /\
  exists page, Ok page ∈ DescribeLoadBalancers (sampleCloud [sampleLB]) [] tt /\ sampleLB ∈ page.
Proof.
  apply (X15_lookup_by_alias_sound (sampleCloud [sampleLB]) tt
           (mkAlias (Some "dualstack.api-elb-1234.elb.amazonaws.com.")
              (Some "Z35SXDOTRQ7X7K")) sampleLB).
  reflexivity.
Defined.

(** X16: the snapshot that [Find] returns is normalized: [Normalize] leaves
    it as it is. *)
Theorem X16_Find_snapshot_normalized
    {World : Type} (cloud : AWSCloud World)
    (subnetSlicesEqualIgnoreOrder : slice Subnet -> slice Subnet -> bool)
    (w : World) (e actual : ClassicLoadBalancer)
    (Hfound : (Find cloud subnetSlicesEqualIgnoreOrder w e).2 = Done (Some actual)) :
  Normalize actual = (actual, None).
Proof.
  destruct (Find_Done cloud subnetSlicesEqualIgnoreOrder w e actual Hfound)
    as (lb & lbName & tagMap & eName & hc & attrs & _ & _ & _ & _ & _ & _ & Hfind).
  rewrite Hfind in Hfound. unfold reconcile in Hfound. simpl in Hfound.
  injection Hfound as <-. apply Normalize_fixed.
Qed.

Lemma X16_Find_snapshot_normalized_witness :
  Normalize (foundOf sampleFind.2) = (foundOf sampleFind.2, None).
Proof.
  apply (X16_Find_snapshot_normalized taggedCloud (fun _ _ => false) tt subnetsDesired).
  reflexivity.
Defined.

(** X17: every tag of the snapshot that [Find] returns is a tag that the
    cloud has listed, under the name of the load balancer that the desired
    task carries, and none of them is a tag of CloudFormation. *)
Theorem X17_Find_snapshot_tags
    {World : Type} (cloud : AWSCloud World)
    (subnetSlicesEqualIgnoreOrder : slice Subnet -> slice Subnet -> bool)
    (w : World) (e actual : ClassicLoadBalancer)
    (Hfound : (Find cloud subnetSlicesEqualIgnoreOrder w e).2 = Done (Some actual)) :
  exists lbName tagMap tags,
    DescribeELBTags cloud [lbName] w = Ok tagMap /\
    Tags actual = Some tags /\
    forall k v, (k, v) ∈ tags ->
      HasPrefix k "aws:cloudformation:" = false /\
      exists tag,
        tag ∈ ValueOf [] (mapLookup (ToString (LoadBalancerName e)) tagMap) /\
        ToString (Tag_Key tag) = k /\ ToString (Tag_Value tag) = v.
Proof.
  destruct (Find_Done cloud subnetSlicesEqualIgnoreOrder w e actual Hfound)
    as (lb & lbName & tagMap & eName & hc & attrs & _ & _ & Htags & HeName & _ & _ & Hfind).
  rewrite Hfind in Hfound. unfold reconcile in Hfound. simpl in Hfound.
  injection Hfound as <-. exists lbName, tagMap. eexists. split; [done|].
  split.
  - destruct (subnetSlicesEqualIgnoreOrder _ _); reflexivity.
  - intros k v Hin. rewrite HeName. cbn [ToString ValueOf].
    apply snapshot_tags in Hin as [Hin|Hin]; [by apply elem_of_nil in Hin | done].
Qed.

Lemma X17_Find_snapshot_tags_witness :
  exists lbName tagMap tags,
    DescribeELBTags taggedCloud [lbName] tt = Ok tagMap /\
    Tags (foundOf sampleFind.2) = Some tags /\
    forall k v, (k, v) ∈ tags ->
      HasPrefix k "aws:cloudformation:" = false /\
      exists tag,
        tag ∈ ValueOf [] (mapLookup (ToString (LoadBalancerName subnetsDesired)) tagMap) /\
        ToString (Tag_Key tag) = k /\ ToString (Tag_Value tag) = v.
Proof.
  apply (X17_Find_snapshot_tags taggedCloud (fun _ _ => false) tt subnetsDesired).
  reflexivity.
Defined.

(** X18: [Find] leaves the subnets of the desired task as they were, or puts
    them in the order of [Normalize]; in the second case it has returned a
    snapshot, and the snapshot holds the same slice. *)
Theorem X18_Find_subnets
    {World : Type} (cloud : AWSCloud World)
    (subnetSlicesEqualIgnoreOrder : slice Subnet -> slice Subnet -> bool)
    (w : World) (e : ClassicLoadBalancer) :
  let found := Find cloud subnetSlicesEqualIgnoreOrder w e in
  Subnets found.1 = Subnets e \/
  (Subnets found.1 = Subnets (Normalize e).1 /\
   exists actual, found.2 = Done (Some actual) /\ Subnets actual = Subnets found.1).
Proof.
  intros found.
  destruct (found.2) as [[actual|]|err|] eqn:Hfound;
    try (left; unfold found in *; revert Hfound; unfold Find;
         repeat match goal with
                | |- context [match ?x with _ => _ end] => destruct x
                end; simpl; by (done || discriminate)).
  unfold found in *.
  destruct (Find_Done cloud subnetSlicesEqualIgnoreOrder w e actual Hfound)
    as (lb & lbName & tagMap & eName & hc & attrs & _ & _ & _ & _ & _ & _ & Hfind).
  rewrite Hfind in Hfound |- *. unfold reconcile in *. simpl in *.
  injection Hfound as <-.
  destruct (subnetSlicesEqualIgnoreOrder _ _); simpl.
  - right. split; [|eexists; split; reflexivity].
    repeat match goal with |- context [if ?b then _ else _] => destruct b end; reflexivity.
  - left.
    repeat match goal with |- context [if ?b then _ else _] => destruct b end; reflexivity.
Qed.


(** X20: [RenderAWS] writes to two fields of the desired task at most, the
    DNS name and the hosted zone, and to none of them when it updates a load
    balancer that exists. *)
Theorem X20_RenderAWS_desired
    {World : Type} (cloud : AWSCloud World) (w : World)
    (a : option ClassicLoadBalancer) (e changes : ClassicLoadBalancer) :
  let e' := desired (RenderAWS cloud w a e changes).2 in
  sameButAddress e e' /\ (a <> None -> e' = e).
Proof.
  intros e'. unfold e', RenderAWS. split.
  - pose proof (writes_renderAWS cloud a e changes (mkRenderState w [] e)) as H.
    by destruct (renderAWS cloud a e changes (mkRenderState w [] e)) as [[u|err] s].
  - intros Ha. destruct a as [a|]; [|done].
    pose proof (writes_renderAWS_update cloud a e changes (mkRenderState w [] e)) as H.
    by destruct (renderAWS cloud (Some a) e changes (mkRenderState w [] e)) as [[u|err] s].
Qed.

(** X21: every call of a render that names a load balancer names the same
    one: the load balancer of the actual task for an update, that of the
    desired task for a creation. *)
Theorem X21_RenderAWS_targets
    {World : Type} (cloud : AWSCloud World) (w : World)
    (a : option ClassicLoadBalancer) (e changes : ClassicLoadBalancer) :
  Forall (targets (ToString (LoadBalancerName (ValueOf e a))))
    (calls (RenderAWS cloud w a e changes).2).
Proof.
  unfold RenderAWS.
  destruct (targets_renderAWS cloud a e changes (mkRenderState w [] e)) as (cs & Hcs & HP).
  destruct (renderAWS cloud a e changes (mkRenderState w [] e)) as [[u|err] s];
    simpl in *; by rewrite Hcs.
Qed.

(** X22: a creation that cannot build its request makes no call: when the
    desired task names no load balancer, or the port of one of its listeners
    does not parse, [RenderAWS] returns an error and leaves the remote side
    and the task as they were. *)
Theorem X22_RenderAWS_create_preflight
    {World : Type} (cloud : AWSCloud World) (w : World)
    (e changes : ClassicLoadBalancer)
    (Hnotshared : ValueOfBool (Shared e) = false)
    (Hrequest : LoadBalancerName e = None \/
                succeeded (listenersToAWS (ValueOf [] (Listeners e)) []) = false) :
  exists err, RenderAWS cloud w None e changes = (Some err, mkRenderState w [] e).
Proof.
  unfold RenderAWS, renderAWS. rewrite Hnotshared.
  unfold mbind, M_bind, bind, renderCreate.
  destruct (LoadBalancerName e) as [name|].
  - destruct Hrequest as [?|Hlisteners]; [done|].
    unfold bind, lift.
    destruct (listenersToAWS (ValueOf [] (Listeners e)) []) as [listeners|err]; [done|].
    by exists err.
  - by eexists.
Qed.

Lemma X22_RenderAWS_create_preflight_witness :
  exists err,
    RenderAWS (sampleCloud []) tt None unnamedTask unnamedTask
    = (Some err, mkRenderState tt [] unnamedTask).
Proof.
  apply (X22_RenderAWS_create_preflight (sampleCloud []) tt unnamedTask unnamedTask).
  - reflexivity.
  - left. reflexivity.
Defined.

(** X23: an update never creates a load balancer, and a creation creates
    one at most: when it makes a call at all, the first is the creation of
    the load balancer that the desired task names, and no later call is a
    creation. *)
Theorem X23_RenderAWS_creates_once
    {World : Type} (cloud : AWSCloud World) (w : World)
    (a : option ClassicLoadBalancer) (e changes : ClassicLoadBalancer) :
  let made := calls (RenderAWS cloud w a e changes).2 in
  match a with
  | Some _ => Forall (fun c => isCreate c = false) made
  | None =>
      made = [] \/
      exists request rest,
        made = CreateLoadBalancerCall request :: rest /\
        Create_LoadBalancerName request = LoadBalancerName e /\
        Forall (fun c => isCreate c = false) rest
  end.
Proof.
  intros made. unfold made, RenderAWS, renderAWS.
  destruct (ValueOfBool (Shared e)).
  { destruct a; [constructor | by left]. }
  unfold mbind, M_bind.
  set (s0 := mkRenderState w [] e).
  match goal with
  | |- context [bind _ ?f] =>
      assert (Hfinish : forall name, adds (fun c => isCreate c = false) (f name))
        by (intros name; by apply adds_finish)
  end.
  destruct a as [a|].
  - assert (H : adds (fun c => isCreate c = false)
                  (bind (renderUpdate cloud a e changes)
                     (fun name =>
                        bind (call cloud (AddELBTagsCall name (Tags e)) id) (fun _ =>
                        bind (call cloud (RemoveELBTagsCall name (Tags e)) id) (fun _ =>
                        bind (match HealthCheck e with
                              | Some healthCheck =>
                                  when (negb (isNil (HealthCheck changes)))
                                    (bind (call cloud
                                             (ConfigureHealthCheckCall name healthCheck)
                                             (ErrorfV
                                                "error configuring health checks on ELB: %v"))
                                       (fun _ => ret tt))
                              | None => ret tt
                              end) (fun _ =>
                        bind (call cloud (ModifyLoadBalancerAttributesCall (Some a) e changes)
                                id) (fun _ =>
                        ret tt))))))).
    { apply adds_bind; [apply nocreate_renderUpdate | exact Hfinish]. }
    destruct (H s0) as (cs & Hcs & HP).
    match type of Hcs with
    | calls (?t).2 = _ => destruct t as [[u|err] s] eqn:Hr
    end; simpl in *; by rewrite Hcs.
  - rewrite bind_run.
    destruct (renderCreate_calls cloud e s0) as [[Hcalls Hfailed]|(request & Hcalls & Hname)].
    + left. destruct (renderCreate cloud e s0) as [[name|err] s1]; [done|]. exact Hcalls.
    + right. exists request.
      destruct (renderCreate cloud e s0) as [[name|err] s1]; simpl in Hcalls.
      * destruct (Hfinish name s1) as (cs & Hcs & HP). exists cs. cbv beta.
        match type of Hcs with
        | calls (?t).2 = _ => destruct t as [[u|err] s] eqn:Hr
        end; simpl in *; by rewrite Hcs, Hcalls.
      * exists []. simpl. by rewrite Hcalls.
Qed.





(** X26: the two renders part on a port that needs more than 32 bits:
    [RenderAWS] parses the ports with 32 bits and fails, [RenderTerraform]
    parses them with 64 bits, converts to int32 and renders a listener with
    another port than the one that was written. *)
Theorem X26_wide_port
    (listeners : list (string * ClassicLoadBalancerListener))
    (port : string) (listener : ClassicLoadBalancerListener) (v : Z)
    (Hlistener : (port, listener) ∈ listeners)
    (Hparse : Forall (fun kv => ParseInt kv.1 64 <> None) listeners)
    (Hwide : ParseInt port 64 = Some v)
    (Hnarrow : ParseInt port 32 = None) :
  succeeded (listenersToAWS listeners []) = false /\
  exists rendered t,
    listenersToTerraform listeners [] = Ok rendered /\
    t ∈ rendered /\ tf_InstancePort t = Listener_InstancePort listener /\
    tf_LBPort t = int32 v /\ int32 v <> v.
Proof.
  split; [by eapply listenersToAWS_narrow|].
  destruct (listenersToTerraform_wide listeners [] Hparse) as (outT & HT & Hports).
  destruct (Hports port listener v Hlistener Hwide) as (t & Ht & Hport & Hinstance).
  exists outT, t. repeat split; try done. by apply (ParseInt_64_wide port).
Qed.

Lemma X26_wide_port_witness :
  succeeded (listenersToAWS (ValueOf [] (Listeners widePortTask)) []) = false /\
  exists rendered t,
    listenersToTerraform (ValueOf [] (Listeners widePortTask)) [] = Ok rendered /\
    t ∈ rendered /\ tf_InstancePort t = Listener_InstancePort (mkListener 8080 EmptyString) /\
    tf_LBPort t = int32 4294967376 /\ int32 4294967376 <> 4294967376%Z.
Proof.
  apply (X26_wide_port (ValueOf [] (Listeners widePortTask)) "4294967376"
           (mkListener 8080 EmptyString) 4294967376).
  - simpl. left.
  - repeat constructor. simpl. discriminate.
  - reflexivity.
  - reflexivity.
Defined.

(** X27: the resource that [RenderTerraform] hands to the target when it
    returns no error, for a task that is not shared: an [aws_elb] under the
    name of the task, with the name of the load balancer, the listeners of
    the task, marked internal exactly when the scheme is "internal", with an
    access log only when the task enables one, and with the tags of the
    cloud for the task overridden by the tags of the task. *)
Theorem X27_RenderTerraform_resource
    {World Target : Type} (cloud : AWSCloud World) (t : TerraformTarget Target)
    (target target' : Target)
    (a : option ClassicLoadBalancer) (e changes : ClassicLoadBalancer)
    (Hnotshared : ValueOfBool (Shared e) = false)
    (Htags : NoDup (map fst (ValueOf [] (Tags e))))
    (Hdone : RenderTerraform cloud t target a e changes = (Done tt, target')) :
  exists name tf,
    Name e = Some name /\
    RenderResource t "aws_elb" name tf target = (None, target') /\
    tf_LoadBalancerName tf = LoadBalancerName e /\ LoadBalancerName e <> None /\
    listenersToTerraform (ValueOf [] (Listeners e)) [] = Ok (tf_Listener tf) /\
    (tf_Internal tf = Some true <-> ToString (Scheme e) = "internal") /\
    (forall log, tf_AccessLog tf = Some log ->
       tf_Enabled log = Some true /\
       exists accessLog, AccessLog e = Some accessLog /\
                         AccessLog_Enabled accessLog = Some true) /\
    (forall k,
       mapLookup k (tf_Tags tf) =
       match mapLookup k (ValueOf [] (Tags e)) with
       | Some v => Some v
       | None => mapLookup k (BuildTags cloud (Name e))
       end).
Proof.
  unfold RenderTerraform in Hdone. rewrite Hnotshared in Hdone.
  destruct (LoadBalancerName e) as [lbName|] eqn:HlbName; [|done].
  destruct (listenersToTerraform (ValueOf [] (Listeners e)) []) as [listeners|err];
    [|done].
  cbv zeta in Hdone.
  destruct (Name e) as [name|] eqn:Hname; [|done].
  match type of Hdone with
  | context [RenderResource t "aws_elb" name ?tf target] =>
      exists name, tf; destruct (RenderResource t "aws_elb" name tf target)
        as [[err|] target0] eqn:Hrender; [done|]
  end.
  injection Hdone as <-. cbn [tf_LoadBalancerName tf_Listener tf_Internal tf_AccessLog tf_Tags].
  split; [done|]. split; [done|]. split; [done|]. split; [done|]. split; [done|].
  split; [|split].
  - split.
    + destruct (String.eqb (ToString (Scheme e)) "internal") eqn:Hscheme; [|done].
      intros _. by apply String.eqb_eq in Hscheme.
    + intros Hscheme. by rewrite Hscheme.
  - intros log Hlog. destruct (AccessLog e) as [accessLog|]; [|done].
    destruct (AccessLog_Enabled accessLog) as [[|]|] eqn:Henabled; simpl in *; try done.
    injection Hlog as <-. split; [done|]. by exists accessLog.
  - intros k. destruct (mapLookup k (ValueOf [] (Tags e))) as [v|] eqn:Hk.
    + by apply mapLookup_fold.
    + by apply mapLookup_fold_other.
Qed.

Lemma X27_RenderTerraform_resource_witness :
  exists name tf,
    Name subnetsDesired = Some name /\
    RenderResource sampleTarget "aws_elb" name tf []
    = (None, (RenderTerraform taggedCloud sampleTarget [] None subnetsDesired
                subnetsDesired).2) /\
    tf_LoadBalancerName tf = LoadBalancerName subnetsDesired /\
    LoadBalancerName subnetsDesired <> None /\
    listenersToTerraform (ValueOf [] (Listeners subnetsDesired)) [] = Ok (tf_Listener tf) /\
    (tf_Internal tf = Some true <-> ToString (Scheme subnetsDesired) = "internal") /\
    (forall log, tf_AccessLog tf = Some log ->
       tf_Enabled log = Some true /\
       exists accessLog, AccessLog subnetsDesired = Some accessLog /\
                         AccessLog_Enabled accessLog = Some true) /\
    (forall k,
       mapLookup k (tf_Tags tf) =
       match mapLookup k (ValueOf [] (Tags subnetsDesired)) with
       | Some v => Some v
       | None => mapLookup k (BuildTags taggedCloud (Name subnetsDesired))
       end).
Proof.
  apply (X27_RenderTerraform_resource taggedCloud sampleTarget []
           (RenderTerraform taggedCloud sampleTarget [] None subnetsDesired subnetsDesired).2
           None subnetsDesired subnetsDesired).
  - reflexivity.
  - simpl. apply NoDup_nil_2.
  - reflexivity.
Defined.


(** X29: [FindAddresses] passes the error of the lookup by the Name tag on
    as it is; otherwise it returns the DNS name of the load balancer found,
    alone, or the nil slice: never an empty address and never more than
    one. *)
Theorem X29_FindAddresses
    {World : Type} (cloud : AWSCloud World) (w : World) (e : ClassicLoadBalancer) :
  match FindAddresses cloud w e with
  | Err err => FindELBByNameTag cloud (ToString (Name e)) w = Err err
  | Ok addresses =>
      (len addresses <= 1)%nat /\ addresses <> Some [] /\
      forall address, address ∈ elems addresses ->
        address <> EmptyString /\
        exists lb, FindELBByNameTag cloud (ToString (Name e)) w = Ok (Some lb) /\
                   LBD_DNSName lb = Some address
  end.
Proof.
  unfold FindAddresses.
  destruct (FindELBByNameTag cloud (ToString (Name e)) w) as [[lb|]|err]; [| |done].
  - destruct (String.eqb (ToString (LBD_DNSName lb)) EmptyString) eqn:Hdns.
    + split; [unfold len; simpl; lia|]. split; [done|].
      intros address Hin. by apply elem_of_nil in Hin.
    + apply String.eqb_neq in Hdns. split; [unfold len; simpl; lia|]. split; [done|].
      intros address Hin. apply list_elem_of_singleton in Hin. subst address.
      split; [done|]. exists lb. split; [done|].
      destruct (LBD_DNSName lb); [done|]. by destruct Hdns.
  - split; [unfold len; simpl; lia|]. split; [done|].
    intros address Hin. by apply elem_of_nil in Hin.
Qed.

(** X30: [Normalize] reorders the subnets and the security groups and does
    nothing else: each slice keeps its elements, a nil slice stays nil,
    every other field is as it was, and no error is returned. *)
Theorem X30_Normalize_reorders (e : ClassicLoadBalancer) :
  let e' := (Normalize e).1 in
  (Normalize e).2 = None /\
  isNil (Subnets e') = isNil (Subnets e) /\
  elems (Subnets e') ≡ₚ elems (Subnets e) /\
  isNil (SecurityGroups e') = isNil (SecurityGroups e) /\
  elems (SecurityGroups e') ≡ₚ elems (SecurityGroups e) /\
  e' = setSecurityGroups (SecurityGroups e') (setSubnets (Subnets e') e).
Proof.
  intros e'. unfold e', Normalize. cbn [fst snd].
  destruct e as [name lifecycle lbName dns zone subnets groups listeners scheme hc log
                 draining settings crossZone cert tags shared services].
  unfold setSecurityGroups, setSubnets. cbn.
  destruct (sortSlice_Permutation (fun s => ToString (Subnet_ID s)) subnets) as [Hn1 Hp1].
  destruct (sortSlice_Permutation (fun sg => ToString (SecurityGroup_ID sg)) groups)
    as [Hn2 Hp2].
  split; [done|]. split; [exact Hn1|]. split; [exact Hp1|]. split; [exact Hn2|].
  split; [exact Hp2 | reflexivity].
Qed.
